(** * Vehicle-Alert-Data-Analytics: the loader and the route handlers of app.py

    A shallow embedding of [app.py].  A pandas DataFrame is a list of column
    labels together with a list of rows, every row a finite map from column
    label to cell; float64 values are Rocq's primitive binary64 floats, so
    the comparisons of [categorize_speed] are the IEEE comparisons Python
    performs.  Route handlers run in a small state-and-exception monad over
    a store of DataFrame objects, so that assignment into a frame
    ([df['Date'] = ...]) is an update of the object the variable refers to.

    The pandas operations the handlers call are written out as functions
    on frames.  What pandas, numpy and the parsers compute on their own
    (the seeded permutation behind [sample], the parsing of dates, times
    and floats, means and summaries) is an interface, [Library], that
    every statement quantifies over; so is the numeric kernel of [corr].
    Row labels (the index) are carried by pandas through every operation
    used here and never consulted; they are left out. *)

From Stdlib Require Import ZArith String Ascii Floats Lia OrderedTypeEx Sorted.
From stdpp Require Import base option list strings gmap.

Local Open Scope Z_scope.
Local Open Scope string_scope.
Local Open Scope list_scope.
#[local] Set Warnings "-inexact-float".

(** ** The speed categories *)

(** [categorize_speed], the function nested in [speed_analysis]
    (app.py, lines 75-81). *)
Definition categorize_speed (speed : float) : string :=
  if (speed <? 60)%float then "Low"
  else if ((60 <=? speed)%float && (speed <? 80)%float)%bool then "Medium"
  else "High".

(** ** Cells, rows and frames *)

(** A cell of a DataFrame.  [NA] is the float NaN that pandas uses for a
    missing value, [NaT] the missing datetime; [Stamp] is a datetime64[ns]
    value, the nanoseconds since 1970-01-01T00:00. *)
Inductive cell : Type :=
  | NA
  | NaT
  | Str (s : string)
  | Int (z : Z)
  | Flt (x : float)
  | Stamp (ns : Z).

#[global] Instance float_eq_dec : EqDecision float.
Proof.
  intros x y. destruct (PrimFloat.Leibniz.eqb x y) eqn:E; [left|right].
  - by apply FloatAxioms.Leibniz.eqb_spec.
  - intros H. apply FloatAxioms.Leibniz.eqb_spec in H. congruence.
Defined.

#[global] Instance cell_eq_dec : EqDecision cell.
Proof. solve_decision. Defined.

(** [pd.isna] / [pd.notna] on a scalar. *)
Definition isna (c : cell) : bool :=
  match c with
  | NA | NaT => true
  | Flt x => PrimFloat.is_nan x
  | _ => false
  end.

Definition notna (c : cell) : bool := negb (isna c).

Abbreviation row := (gmap string cell).

Record DataFrame : Type := mkFrame {
  columns : list string;
  rows : list row
}.

#[global] Instance DataFrame_eq_dec : EqDecision DataFrame.
Proof. solve_decision. Defined.

(** The value a row shows under a label: a label the row does not carry
    reads as NaN, which is what reindexing fills in. *)
Definition cell_of (r : row) (c : string) : cell := default NA (r !! c).

(** The values of the Series [df[c]]. *)
Definition series (df : DataFrame) (c : string) : list cell :=
  (λ r, cell_of r c) <$> rows df.

(** A frame as [read_csv] delivers it: distinct labels, and every row keyed
    by exactly the frame's labels. *)
Definition row_fits (cols : list string) (r : row) : Prop :=
  dom r = (list_to_set cols : gset string).

#[global] Instance row_fits_dec cols r : Decision (row_fits cols r).
Proof. unfold row_fits. apply _. Defined.

Definition rectangular (df : DataFrame) : Prop :=
  NoDup (columns df) ∧ Forall (row_fits (columns df)) (rows df).

#[global] Instance rectangular_dec df : Decision (rectangular df).
Proof. unfold rectangular. apply _. Defined.

(** *** The pandas operations of [load_data] *)

Definition reindex (cols : list string) (r : row) : row :=
  list_to_map ((λ c, (c, cell_of r c)) <$> cols).

(** An int64 as the nearest float64. *)
Definition float_of_Z (z : Z) : float :=
  if (z <? 0)%Z then (- PrimFloat.of_uint63 (Uint63.of_Z (- z)))%float
  else PrimFloat.of_uint63 (Uint63.of_Z z).

(** The cells of the numeric dtypes: integers, floats and NaN. *)
Definition numeric_cell (c : cell) : bool :=
  match c with
  | NA | Int _ | Flt _ => true
  | _ => false
  end.

(** The common dtype of a column that is put together from two frames.
    A column of numbers only becomes float64 as soon as one of them is a
    float or is missing (an int64 column meets a float64 one, or meets
    the NaN that fills in for a frame without the column): its integers
    are converted.  A column of integers only stays int64, and a column
    with any other value is of dtype object and keeps its values. *)
Definition floating (s : list cell) : bool :=
  forallb numeric_cell s
  && existsb (λ c, match c with Int _ => false | _ => true end) s.

Definition upcast_cell (c : cell) : cell :=
  match c with
  | Int z => Flt (float_of_Z z)
  | _ => c
  end.

(** The row with its cells under the labels [floats] converted. *)
Definition upcast (floats : list string) (r : row) : row :=
  foldr (alter upcast_cell) r floats.

(** The labels among [cols] under which the rows [rs] make a float64
    column. *)
Definition float_columns (cols : list string) (rs : list row) : list string :=
  filter (λ c, floating ((λ r, cell_of r c) <$> rs) = true) cols.

(** The labels of [pd.concat([a, b], axis=0)]: those of [a], then the
    new ones of [b]. *)
Definition union_columns (a b : DataFrame) : list string :=
  columns a ++ filter (λ c, c ∉ columns a) (columns b).

(** A row of [a] or [b] as the union holds it: NaN where the row has no
    value for a label, every cell in the common dtype of its column. *)
Definition unify (a b : DataFrame) (r : row) : row :=
  let cols := union_columns a b in
  upcast (float_columns cols (reindex cols <$> (rows a ++ rows b)))
    (reindex cols r).

(** [pd.concat([a, b], axis=0)]: the rows of [a] then those of [b], each
    as [unify] has it. *)
Definition concat (a b : DataFrame) : DataFrame :=
  let cols := union_columns a b in
  let floats := float_columns cols (reindex cols <$> (rows a ++ rows b)) in
  {| columns := cols;
     rows := (λ r, upcast floats (reindex cols r)) <$> (rows a ++ rows b) |}.

(** [keep='first']: a value goes when an equal value came before it. *)
Fixpoint first_occurrences {A : Type} `{EqDecision A}
    (seen : list A) (l : list A) : list A :=
  match l with
  | [] => []
  | x :: l' =>
      if decide (x ∈ seen) then first_occurrences seen l'
      else x :: first_occurrences (x :: seen) l'
  end.

(** The same with equality taken on a key of the values. *)
Fixpoint first_by {A K : Type} `{EqDecision K} (key : A → K)
    (seen : list K) (l : list A) : list A :=
  match l with
  | [] => []
  | x :: l' =>
      if decide (key x ∈ seen) then first_by key seen l'
      else x :: first_by key (key x :: seen) l'
  end.

(** What [duplicated] compares: floats by [==] except that NaN equals
    NaN, so 0.0 and -0.0 are one value; every other cell by its value. *)
Definition canonical_cell (c : cell) : cell :=
  match c with
  | Flt x =>
      if PrimFloat.is_nan x then NA
      else if (x =? 0)%float then Flt 0
      else c
  | _ => c
  end.

Definition canonical (r : row) : row := canonical_cell <$> r.

(** [df.drop_duplicates()]: a row goes when a row that [duplicated]
    takes for equal came before it. *)
Definition drop_duplicates (df : DataFrame) : DataFrame :=
  {| columns := columns df; rows := first_by canonical [] (rows df) |}.

Definition complete (cols : list string) (r : row) : bool :=
  forallb (λ c, notna (cell_of r c)) cols.

(** [df.dropna()]: rows with a missing value in any column go. *)
Definition dropna (df : DataFrame) : DataFrame :=
  {| columns := columns df;
     rows := filter (λ r, complete (columns df) r = true) (rows df) |}.

(** [round(0.01 * n)]: Python rounds halves to even.  The binary64 product
    rounds to the same integer as the exact n/100 for every length below
    2^53: it is within 3e-17 (relative) of n/100, and a half is itself a
    binary64 value. *)
Definition sample_size (n : nat) : nat :=
  let q := (n / 100)%nat in
  let r := (n mod 100)%nat in
  if (r <? 50)%nat then q
  else if (50 <? r)%nat then S q
  else if Nat.even q then q else S q.

Definition take_rows (positions : list nat) (rs : list row) : list row :=
  omap (λ i, rs !! i) positions.

(** ** What the handlers use of pandas, numpy and the parsers *)

(** The functions whose code is not part of the application: the seeded
    generator behind [sample], the text parsers, the summaries, and the
    numeric kernel of [corr].  [permutation n] is
    [RandomState(42).permutation(n)]; the parsers see the whole Series
    beside the cell, since pandas may infer one format for a Series;
    [nancorr xs ys] is the binary64 number (NaN included) that
    [DataFrame.corr] computes for two columns of its float64 matrix. *)
Class Library : Type := {
  permutation : nat → list nat;
  parse_datetime : list cell → cell → option Z;
  parse_float : string → option float;
  series_mean : list cell → cell;
  describe_html : DataFrame → string;
  nancorr : list float → list float → float
}.

Section Pandas.

Context `{lib : Library}.

(** [df.sample(frac=0.01, random_state=42)]: without replacement, the
    rows at the first [round(0.01 * n)] positions of the permutation. *)
Definition sample (df : DataFrame) : DataFrame :=
  let n := length (rows df) in
  {| columns := columns df;
     rows := take_rows (take (sample_size n) (permutation n)) (rows df) |}.

(** The frame [load_data] builds from the two frames it read
    (app.py, lines 18-21). *)
Definition load_frame (df df1 : DataFrame) : DataFrame :=
  let df := concat df df1 in
  let df := drop_duplicates df in
  let df := dropna df in
  sample df.

End Pandas.

(** *** What the loader is to deliver *)

(** The frame before the sample is drawn. *)
Definition cleaned (df df1 : DataFrame) : DataFrame :=
  dropna (drop_duplicates (concat df df1)).

(** No missing value under any of the frame's labels. *)
Definition no_missing (df : DataFrame) : Prop :=
  ∀ r c, r ∈ rows df → c ∈ columns df → isna (cell_of r c) = false.

(** ** Sorting *)

(** A stable sort by a comparison: the stand-in for the sorts of pandas.
    Where pandas leaves the order of equal keys open (the default
    [kind='quicksort'] of [sort_values]), the earlier row comes first. *)
Fixpoint insert_by {A : Type} (leb : A → A → bool) (x : A) (l : list A) : list A :=
  match l with
  | [] => [x]
  | y :: l' => if leb x y then x :: l else y :: insert_by leb x l'
  end.

Definition sort_by {A : Type} (leb : A → A → bool) (l : list A) : list A :=
  foldr (insert_by leb) [] l.

(** ** Series operations *)

(** The order pandas sorts one column by.  Values of one kind compare as
    Python compares them (text by code point, which on UTF-8 bytes is the
    byte order of [String.leb]); missing values go last
    ([na_position='last']). *)
Definition cell_kind (c : cell) : nat :=
  match c with
  | NA | NaT => 0
  | Str _ => 1
  | Int _ => 2
  | Flt _ => 3
  | Stamp _ => 4
  end.

Definition cell_leb (a b : cell) : bool :=
  match a, b with
  | Str s, Str t => String.leb s t
  | Int x, Int y => (x <=? y)%Z
  | Flt x, Flt y => (x <=? y)%float
  | Stamp x, Stamp y => (x <=? y)%Z
  | _, _ => false
  end.

Definition key_leb (a b : cell) : bool :=
  if isna b then true else if isna a then false else cell_leb a b.




(** Values of different kinds do not compare (Python raises TypeError). *)
Definition sortable (s : list cell) : bool :=
  match filter (λ c, notna c = true) s with
  | [] => true
  | c :: cs => forallb (λ d, (cell_kind d =? cell_kind c)%nat) cs
  end.

(** [s.astype('category').cat.codes]: the position of each value among the
    sorted distinct values, -1 for a missing one. *)
Definition categories (s : list cell) : list cell :=
  let vals := first_occurrences [] (filter (λ c, notna c = true) s) in
  if sortable vals then sort_by cell_leb vals else vals.

Definition cat_codes (s : list cell) : list cell :=
  let cats := categories s in
  (λ c, match list_find (λ d, d = c) cats with
        | Some (i, _) => Int (Z.of_nat i)
        | None => Int (-1)
        end) <$> s.

(** [s.isin(values)] for a list of strings. *)
Definition isin (values : list string) (c : cell) : bool :=
  match c with
  | Str a => bool_decide (a ∈ values)
  | _ => false
  end.

(** [s.dt.hour] and [s.dt.day_name()] on one timezone-naive datetime. *)
Definition ns_per_hour : Z := 3600000000000.
Definition ns_per_day : Z := 86400000000000.

Definition day_names : list string :=
  ["Monday"; "Tuesday"; "Wednesday"; "Thursday"; "Friday"; "Saturday";
   "Sunday"].

Definition hour_of (c : cell) : cell :=
  match c with
  | Stamp ns => Int ((ns `div` ns_per_hour) `mod` 24)
  | _ => NA
  end.

(** 1970-01-01 was a Thursday. *)
Definition day_name_of (c : cell) : cell :=
  match c with
  | Stamp ns =>
      match day_names !! Z.to_nat ((ns `div` ns_per_day + 3) `mod` 7) with
      | Some d => Str d
      | None => NA
      end
  | _ => NA
  end.

Definition datetimelike (s : list cell) : bool :=
  forallb (λ c, match c with Stamp _ | NaT => true | _ => false end) s.

(** The float a cell of a float64 Series holds. *)
Definition float_of (c : cell) : float :=
  match c with
  | Flt x => x
  | _ => PrimFloat.nan
  end.

Definition float_cell (x : float) : cell :=
  if PrimFloat.is_nan x then NA else Flt x.

(** Distinct non-missing values with the number of their occurrences. *)
Definition occurrences (s : list cell) : list (cell * nat) :=
  (λ v, (v, length (filter (λ c, c = v) s)))
    <$> first_occurrences [] (filter (λ c, notna c = true) s).

Definition more_frequent (a b : cell * nat) : bool := (b.2 <=? a.2)%nat.

(** [s.value_counts().reset_index()] with the columns then named
    [name] and [count_name]: most frequent first. *)
Definition value_counts (name count_name : string) (s : list cell) : DataFrame :=
  {| columns := [name; count_name];
     rows := (λ vn, {[ name := vn.1; count_name := Int (Z.of_nat vn.2) ]})
               <$> sort_by more_frequent (occurrences s) |}.

(** The group keys in the order [groupby] lists them: sorted by the first
    key, then the second, and so on; rows with a missing key form no
    group. *)
Fixpoint keys_leb (a b : list cell) : bool :=
  match a, b with
  | [], _ => true
  | _ :: _, [] => false
  | x :: a', y :: b' =>
      if decide (x = y) then keys_leb a' b' else cell_leb x y
  end.

Definition group_keys (keys : list string) (df : DataFrame) : list (list cell) :=
  sort_by keys_leb
    (first_occurrences []
       (filter (λ ks, forallb notna ks = true)
          ((λ r, (λ k, cell_of r k) <$> keys) <$> rows df))).

(** [df.groupby(keys).size().reset_index(name=count_name)]. *)
Definition groupby_size (keys : list string) (count_name : string)
    (df : DataFrame) : DataFrame :=
  {| columns := keys ++ [count_name];
     rows := (λ ks,
               <[ count_name :=
                    Int (Z.of_nat (length
                      (filter (λ r, (λ k, cell_of r k) <$> keys = ks) (rows df)))) ]>
                 (list_to_map (zip keys ks)))
               <$> group_keys keys df |}.

(** [df.groupby(key)[counted].count().reset_index()]: per group, the
    number of rows whose [counted] value is not missing. *)
Definition groupby_count (key counted : string) (df : DataFrame) : DataFrame :=
  {| columns := [key; counted];
     rows := (λ ks,
               {[ key := default NA (head ks);
                  counted :=
                    Int (Z.of_nat (length
                      (filter (λ r, [cell_of r key] = ks
                                    ∧ notna (cell_of r counted) = true)
                         (rows df)))) ]})
               <$> group_keys [key] df |}.

(** ** The correlation matrix *)

(** The columns [corr] keeps: those of a numeric dtype (pandas before 2.0
    leaves the other columns out; later versions raise on them).  The
    dtype is read off the cells, integers, floats and NaN only, which is
    the dtype pandas has recorded whenever the frame has a row; a frame
    without rows carries no trace of its dtypes here, and all its
    columns are kept. *)
Definition numeric_columns (df : DataFrame) : list string :=
  filter (λ c, forallb numeric_cell (series df c) = true) (columns df).

(** [to_numpy(dtype=float)] on a cell of a numeric column. *)
Definition matrix_cell (c : cell) : float :=
  match c with
  | Int z => float_of_Z z
  | Flt x => x
  | _ => PrimFloat.nan
  end.

Record CorrMatrix : Type := mkCorr {
  m_index : list string;
  m_columns : list string;
  m_values : list (list float)
}.

Section Corr.

Context `{lib : Library}.

(** [df.corr()]: the kernel runs once for every pair of columns, the
    later column first, and its result is stored at both places of the
    pair ([result[xi, yi] = result[yi, xi] = ...] for [yi <= xi]). *)
Definition corr (df : DataFrame) : CorrMatrix :=
  let cs := numeric_columns df in
  let column c := matrix_cell <$> series df c in
  {| m_index := cs;
     m_columns := cs;
     m_values :=
       imap (λ i y,
               imap (λ j x,
                       if (j <=? i)%nat then nancorr (column y) (column x)
                       else nancorr (column x) (column y)) cs) cs |}.

End Corr.


(** ** Figures and responses *)

(** What a handler hands to plotly: the kind of chart, the frame, the
    column encodings, the other options, the title and the layout
    updates.  What plotly computes from them (bins, densities, a trend
    line) is outside the application. *)
Inductive figure : Type :=
  | Px (kind : string) (data : DataFrame) (enc opts : list (string * string))
       (title : string) (layout : list (string * cell))
  | AnnotatedHeatmap (z : list (list float)) (x y : list string)
       (colorscale title : string).

Definition update_layout (f : figure) (l : list (string * cell)) : figure :=
  match f with
  | Px k d e o t l0 => Px k d e o t (l0 ++ l)
  | _ => f
  end.

Definition fig_data (f : figure) : option DataFrame :=
  match f with
  | Px _ d _ _ _ _ => Some d
  | _ => None
  end.

(** A Python value that is either [None] or a cell passed through. *)
Inductive pyvalue : Type :=
  | PyNone
  | PyVal (c : cell).

(** The dict [get_coordinates] builds per row. *)
Record coordinate : Type := mkCoordinate {
  alert : pyvalue;
  date : pyvalue;
  time : pyvalue;
  lat : pyvalue;
  long : pyvalue;
  vehicle : pyvalue;
  speed : pyvalue
}.

(** The dict [home] builds per row. *)
Record location : Type := mkLocation {
  loc_lat : cell;
  loc_lng : cell;
  loc_alert : cell;
  loc_date : cell;
  loc_time : cell;
  loc_vehicle : cell;
  loc_speed : cell
}.

Inductive response : Type :=
  | Json (fig : figure)
  | JsonDict (figs : list (string * figure))
  | JsonList (records : list coordinate)
  | Page (summary : string) (heatmap alert_frequency_chart speed_chart : figure)
         (locations : list location).

(** ** The store of frames and the handler monad *)

Inductive exn : Type :=
  | FileNotFoundError (path : string)
  | KeyError (label : string)
  | ValueError (what : string)
  | TypeError (what : string)
  | AttributeError (what : string).

(** The files on disk, and the DataFrame objects alive in the request; a
    variable of the handler holds the position of its object. *)
Record world : Type := mkWorld {
  files : gmap string DataFrame;
  heap : list DataFrame
}.

Definition M (A : Type) : Type := world → (exn + A) * world.

#[global] Instance M_ret : MRet M := λ A a w, (inr a, w).

#[global] Instance M_bind : MBind M := λ A B f m w,
  match m w with
  | (inl e, w') => (inl e, w')
  | (inr a, w') => f a w'
  end.

Definition raise {A : Type} (e : exn) : M A := λ w, (inl e, w).

Definition alloc (df : DataFrame) : M nat := λ w,
  (inr (length (heap w)), {| files := files w; heap := heap w ++ [df] |}).

Definition deref (p : nat) : M DataFrame := λ w,
  match heap w !! p with
  | Some df => (inr df, w)
  | None => (inl (ValueError "no such object"), w)
  end.

Definition assign (p : nat) (df : DataFrame) : M unit := λ w,
  (inr (), {| files := files w; heap := <[p := df]> (heap w) |}).

(** [pd.read_csv(path)]. *)
Definition read_csv (path : string) : M DataFrame := λ w,
  match files w !! path with
  | Some df => (inr df, w)
  | None => (inl (FileNotFoundError path), w)
  end.

(** A request starts with the files on disk and no frame alive. *)
Definition request (fs : gmap string DataFrame) : world :=
  {| files := fs; heap := [] |}.

(** Whether a handler returns (rather than raises) in a world. *)
Definition returns {A : Type} (m : M A) (w : world) : bool :=
  match (m w).1 with
  | inr _ => true
  | inl _ => false
  end.

(** A computation writes only the objects in [P]: the files and every
    other object alive before are the same after, whatever the outcome;
    new objects may have been added. *)
Definition writes_only {A : Type} (P : nat → Prop) (m : M A) : Prop :=
  ∀ w r w', m w = (r, w') →
    files w' = files w
    ∧ (length (heap w) ≤ length (heap w'))%nat
    ∧ ∀ i, (i < length (heap w))%nat → ¬ P i → heap w' !! i = heap w !! i.

(** ** Frame objects *)

(** [df[c]]: the values of a column, KeyError when the frame has none of
    that label. *)
Definition getitem (p : nat) (c : string) : M (list cell) :=
  df ← deref p;
  if decide (c ∈ columns df) then mret (series df c) else raise (KeyError c).

(** The frame with column [c] holding [vals]: an existing column is
    replaced where it stands, a new one goes last. *)
Definition set_column (df : DataFrame) (c : string) (vals : list cell) : DataFrame :=
  {| columns := if decide (c ∈ columns df) then columns df else columns df ++ [c];
     rows := zip_with (λ r v, <[c := v]> r) (rows df) vals |}.

(** [df[c] = vals]: assignment into the object [p] refers to. *)
Definition setitem (p : nat) (c : string) (vals : list cell) : M unit :=
  df ← deref p;
  if decide (length vals = length (rows df)) then assign p (set_column df c vals)
  else raise (ValueError "Length of values does not match length of index").

(** [df.copy()]: a new object with the same contents. *)
Definition copy (p : nat) : M nat :=
  df ← deref p; alloc df.

Definition drop_column (df : DataFrame) (c : string) : DataFrame :=
  {| columns := filter (λ c', c' ≠ c) (columns df);
     rows := delete c <$> rows df |}.

(** [df.drop([c], axis=1, inplace=True)]. *)
Definition drop_inplace (p : nat) (c : string) : M unit :=
  df ← deref p;
  if decide (c ∈ columns df) then assign p (drop_column df c)
  else raise (KeyError c).

Definition row_leb (by_ : string) (r r' : row) : bool :=
  key_leb (cell_of r by_) (cell_of r' by_).

Definition sorted_by (by_ : string) (df : DataFrame) : DataFrame :=
  {| columns := columns df; rows := sort_by (row_leb by_) (rows df) |}.

(** What the comparison of [sort_values] comes to on a column whose
    values are text or missing: text in byte order, missing values last. *)
Definition text_leb (c : string) (r r' : row) : bool :=
  match cell_of r c, cell_of r' c with
  | Str a, Str b => String.leb a b
  | Str _, _ => true
  | _, Str _ => false
  | _, _ => true
  end.

Definition text_or_missing (c : cell) : Prop :=
  isna c = true ∨ ∃ a, c = Str a.

(** [df.sort_values(by=c)]: a new object, the rows in ascending order of
    the column as it is at that moment. *)
Definition sort_values (p : nat) (by_ : string) : M nat :=
  df ← deref p;
  if decide (by_ ∈ columns df) then
    if sortable (series df by_) then alloc (sorted_by by_ df)
    else raise (TypeError "'<' not supported between instances")
  else raise (KeyError by_).

Definition select (df : DataFrame) (keep : row → bool) : DataFrame :=
  {| columns := columns df; rows := filter (λ r, keep r = true) (rows df) |}.

(** [df[df[c].isin(values)]]: a new object with the rows the mask keeps. *)
Definition where_isin (p : nat) (c : string) (values : list string) : M nat :=
  df ← deref p;
  if decide (c ∈ columns df) then alloc (select df (λ r, isin values (cell_of r c)))
  else raise (KeyError c).

(** A plotly express call: every column it names must be in the frame. *)
Definition px (kind : string) (df : DataFrame) (enc opts : list (string * string))
    (title : string) : M figure :=
  match filter (λ kc : string * string, kc.2 ∉ columns df) enc with
  | [] => mret (Px kind df enc opts title [])
  | kc :: _ => raise (ValueError kc.2)
  end.

(** [row[c]] on a row of [iterrows]. *)
Definition row_getitem (cols : list string) (r : row) (c : string) : M cell :=
  if decide (c ∈ cols) then mret (cell_of r c) else raise (KeyError c).

Section Handlers.

Context `{lib : Library}.

(** [pd.to_datetime(s)] fails on a value it cannot parse;
    with [errors='coerce'] that value becomes NaT. *)
Definition to_datetime_cell (s : list cell) (c : cell) : option cell :=
  if isna c then Some NaT
  else match c with
       | Stamp ns => Some (Stamp ns)
       | _ => Stamp <$> parse_datetime s c
       end.

Definition to_datetime (s : list cell) : M (list cell) :=
  match mapM (to_datetime_cell s) s with
  | Some s' => mret s'
  | None => raise (ValueError "to_datetime")
  end.

Definition to_datetime_coerce (s : list cell) : list cell :=
  (λ c, default NaT (to_datetime_cell s c)) <$> s.

(** [s.astype(float)]. *)
Definition astype_float_cell (c : cell) : option cell :=
  match c with
  | NA => Some NA
  | Str s => float_cell <$> parse_float s
  | Int z => Some (Flt (float_of_Z z))
  | Flt x => Some (float_cell x)
  | NaT | Stamp _ => None
  end.

Definition astype_float (s : list cell) : M (list cell) :=
  match mapM astype_float_cell s with
  | Some s' => mret s'
  | None => raise (ValueError "astype(float)")
  end.

(** The [.dt] accessor exists on datetime Series only. *)
Definition dt_day_name (s : list cell) : M (list cell) :=
  if datetimelike s then mret (day_name_of <$> s)
  else raise (AttributeError "Can only use .dt accessor with datetimelike values").

Definition dt_hour (s : list cell) : M (list cell) :=
  if datetimelike s then mret (hour_of <$> s)
  else raise (AttributeError "Can only use .dt accessor with datetimelike values").

(** *** load_data (app.py, lines 12-22) *)
Definition load_data : M nat :=
  df ← read_csv "data/iraste_nxt_cas.csv";
  df1 ← read_csv "data/iraste_nxt_casdms.csv";
  alloc (load_frame df df1).

(** *** spatial_analysis (lines 26-34) *)
Definition spatial_analysis : M response :=
  df ← load_data;
  d ← deref df;
  fig ← px "density_mapbox" d [("lat", "Lat"); ("lon", "Long")]
           [("radius", "10"); ("zoom", "5"); ("mapbox_style", "carto-positron")]
           "Spatial Distribution of Alert Occurrences";
  lat_ ← getitem df "Lat";
  lon_ ← getitem df "Long";
  mret (Json (update_layout fig
                [("mapbox_center.lat", series_mean lat_);
                 ("mapbox_center.lon", series_mean lon_)])).

(** *** alert_frequency (lines 38-64) *)
Definition alert_frequency : M response :=
  df ← load_data;
  s ← getitem df "Date"; s ← to_datetime s; setitem df "Date" s;;
  s ← getitem df "Date"; s ← dt_day_name s; setitem df "DayOfWeek" s;;
  s ← getitem df "Time"; setitem df "Time" (to_datetime_coerce s);;
  s ← getitem df "Speed"; s ← astype_float s; setitem df "Speed" s;;
  d ← deref df;
  fig1 ← px "histogram" d [("x", "DayOfWeek"); ("color", "Alert")] []
            "Alert Frequency by Day of Week";
  let fig1 := update_layout fig1 [("xaxis.categoryorder", Str "total descending")] in
  fig2 ← px "scatter" d [("x", "Speed"); ("color", "Alert")] []
            "Alert Frequency Comparison Across Different Vehicles";
  let fig2 := update_layout fig2
                [("xaxis_title", Str "Speed"); ("yaxis_title", Str "Alert Frequency")] in
  fig_speed_time ← px "scatter" d [("x", "Time"); ("y", "Speed"); ("color", "Alert")] []
                      "Speed vs. Time with Alert Events";
  mret (JsonDict [("day_of_week_chart", fig1); ("speed_alert_chart", fig2);
                  ("speed_time", fig_speed_time)]).

(** *** speed_analysis (lines 68-102) *)
Definition speed_analysis : M response :=
  df ← load_data;
  s ← getitem df "Speed"; s ← astype_float s; setitem df "Speed" s;;
  df_sorted ← sort_values df "Time";
  s ← getitem df_sorted "Time"; setitem df_sorted "Time" (to_datetime_coerce s);;
  s ← getitem df_sorted "Speed";
  setitem df_sorted "Speed_Category" ((λ c, Str (categorize_speed (float_of c))) <$> s);;
  d ← deref df_sorted;
  fig1 ← px "scatter" d [("x", "Time"); ("y", "Speed"); ("color", "Alert")] []
            "Speed vs. Time with Alert Events";
  fig2 ← px "histogram" d [("x", "Speed")] [("nbins", "20")] "Distribution of Speed";
  grouped_data ← (if decide ("Alert" ∈ columns d)
                  then mret (groupby_size ["Speed_Category"; "Alert"] "Count" d)
                  else raise (KeyError "Alert"));
  fig3 ← px "bar" grouped_data [("x", "Speed_Category"); ("y", "Count"); ("color", "Alert")]
            [("barmode", "group")] "Alerts Count by Speed Category";
  mret (JsonDict [("speed_time_chart", fig1); ("speed_distribution_chart", fig2);
                  ("speed_category_chart", fig3)]).

(** *** correlation_analysis (lines 106-133) *)
Definition correlation_analysis : M response :=
  df ← load_data;
  df1 ← copy df;
  s ← getitem df1 "Alert"; setitem df1 "Alert" (cat_codes s);;
  s ← getitem df1 "Date"; s ← to_datetime s; setitem df1 "Date" s;;
  s ← getitem df1 "Date"; s ← dt_day_name s; setitem df1 "DayOfWeek" s;;
  s ← getitem df1 "Date"; s ← dt_hour s; setitem df1 "HourOfDay" s;;
  s ← getitem df1 "Date"; setitem df1 "Date" (cat_codes s);;
  s ← getitem df1 "Time"; setitem df1 "Time" (to_datetime_coerce s);;
  s ← getitem df1 "DayOfWeek"; setitem df1 "DayOfWeek" (cat_codes s);;
  s ← getitem df1 "HourOfDay"; setitem df1 "HourOfDay" (cat_codes s);;
  drop_inplace df1 "HourOfDay";;
  d ← deref df1;
  let correlation_matrix := corr d in
  let fig := AnnotatedHeatmap (m_values correlation_matrix)
               (m_columns correlation_matrix) (m_index correlation_matrix)
               "Viridis"
               "Correlation Between Alert Occurrence and Road Conditions" in
  mret (Json fig).

(** *** driver_behavior (lines 137-146) *)
Definition driver_behavior : M response :=
  df ← load_data;
  s ← getitem df "Alert";
  let alert_counts := value_counts "Alert" "Frequency" s in
  fig ← px "pie" alert_counts [("values", "Frequency"); ("names", "Alert")] []
           "Distribution of Driver Alerts";
  mret (Json fig).

(** *** safety_impact (lines 150-166) *)
Definition safety_impact : M response :=
  df ← load_data;
  safety_df ← where_isin df "Alert"
                ["cas_ldw"; "cas_hmw"; "hard_brake"; "cas_pcw"; "cas_fcw"];
  sd ← deref safety_df;
  counts ← (if decide ("Speed" ∈ columns sd)
            then mret (groupby_count "Speed" "Alert" sd)
            else raise (KeyError "Speed"));
  fig1 ← px "scatter" counts [("x", "Speed"); ("y", "Alert")] []
            "Speed vs. Frequency of Safety-Related Alerts";
  fig2 ← px "box" sd [("x", "Alert"); ("y", "Speed")] []
            "Speed Distribution During Safety Alerts";
  mret (JsonDict [("safety_speed_frequency", fig1);
                  ("safety_speed_distribution", fig2)]).

(** *** safety_analysis (lines 170-196) *)
Definition safety_alerts : list string :=
  ["cas_ldw"; "cas_hmw"; "hard_brake"; "cas_pcw"; "cas_fcw"].

Definition safety_analysis : M response :=
  df ← load_data;
  safety_df ← where_isin df "Alert" safety_alerts;
  s ← getitem safety_df "Alert";
  let safety_counts := value_counts "Alert" "Frequency" s in
  fig_safety_pie ← px "pie" safety_counts [("values", "Frequency"); ("names", "Alert")] []
                      "Distribution of Safety-Related Alerts";
  sd ← deref safety_df;
  safety_speed_freq ← (if decide ("Speed" ∈ columns sd)
                       then mret (groupby_count "Speed" "Alert" sd)
                       else raise (KeyError "Speed"));
  fig_safety_speed ← px "scatter" safety_speed_freq [("x", "Speed"); ("y", "Alert")]
                        [("trendline", "ols")]
                        "Speed vs. Frequency of Safety-Related Alerts";
  mret (JsonDict [("safety_pie", fig_safety_pie); ("safety_speed", fig_safety_speed)]).

(** *** home (lines 200-238) *)
Definition location_of (cols : list string) (r : row) : M location :=
  a ← row_getitem cols r "Lat";
  b ← row_getitem cols r "Long";
  c ← row_getitem cols r "Alert";
  d ← row_getitem cols r "Date";
  e ← row_getitem cols r "Time";
  f ← row_getitem cols r "Vehicle";
  g ← row_getitem cols r "Speed";
  mret {| loc_lat := a; loc_lng := b; loc_alert := c; loc_date := d;
          loc_time := e; loc_vehicle := f; loc_speed := g |}.

Definition home : M response :=
  df ← load_data;
  d ← deref df;
  let summary := describe_html d in
  fig1 ← px "density_mapbox" d [("lat", "Lat"); ("lon", "Long")]
            [("radius", "10"); ("zoom", "5"); ("mapbox_style", "carto-positron")]
            "Spatial Distribution of Alert Occurrences";
  lat_ ← getitem df "Lat";
  lon_ ← getitem df "Long";
  let fig1 := update_layout fig1
                [("mapbox_center.lat", series_mean lat_);
                 ("mapbox_center.lon", series_mean lon_)] in
  s ← getitem df "Date"; s ← to_datetime s; setitem df "Date" s;;
  s ← getitem df "Date"; s ← dt_day_name s; setitem df "DayOfWeek" s;;
  s ← getitem df "DayOfWeek";
  let freq_data := value_counts "Day" "Frequency" s in
  fig2 ← px "bar" freq_data [("x", "Day"); ("y", "Frequency"); ("color", "Frequency")]
            [("labels.Frequency", "Number of Alerts")]
            "Alert Frequency by Day of the Week";
  d ← deref df;
  fig3 ← px "histogram" d [("x", "Speed")]
            [("nbins", "30"); ("labels.Speed", "Speed (km/h)");
             ("labels.count", "Number of Vehicles")]
            "Vehicle Speed Distribution";
  locations ← mapM (location_of (columns d)) (rows d);
  mret (Page summary fig1 fig2 fig3 locations).

(** *** get_coordinates (lines 242-256) *)
Definition or_else (c : cell) (default_ : pyvalue) : pyvalue :=
  if notna c then PyVal c else default_.

Definition record_of (cols : list string) (r : row) : M coordinate :=
  a ← row_getitem cols r "Alert";
  d ← row_getitem cols r "Date";
  t ← row_getitem cols r "Time";
  la ← row_getitem cols r "Lat";
  lo ← row_getitem cols r "Long";
  v ← row_getitem cols r "Vehicle";
  s ← row_getitem cols r "Speed";
  mret {| alert := or_else a (PyVal (Str ""));
          date := or_else d (PyVal (Str ""));
          time := or_else t (PyVal (Str ""));
          lat := or_else la PyNone;
          long := or_else lo PyNone;
          vehicle := or_else v (PyVal (Str ""));
          speed := or_else s (PyVal (Int 0)) |}.

Definition get_coordinates : M response :=
  df ← load_data;
  d ← deref df;
  data ← mapM (record_of (columns d)) (rows d);
  mret (JsonList data).

End Handlers.



(** ** A stand-in for the library functions

    The theorems below hold for every [Library].  To run the handlers on
    concrete files one is needed: this one reads ISO dates (YYYY-MM-DD,
    optionally followed by a space or T and HH:MM:SS) and times of day
    (HH:MM:SS, on 1970-01-01), takes plain decimal text as a float,
    draws the sample from the descending permutation, and correlates two
    columns by Welford's method, as pandas does. *)
Module Standin.

Definition digit (a : ascii) : option Z :=
  let n := Z.of_nat (nat_of_ascii a) in
  if ((48 <=? n) && (n <=? 57))%Z then Some (n - 48)%Z else None.

Fixpoint number_from (acc : Z) (s : string) : option Z :=
  match s with
  | EmptyString => Some acc
  | String a s' => d ← digit a; number_from (10 * acc + d) s'
  end.

Definition number (s : string) : option Z :=
  match s with
  | EmptyString => None
  | _ => number_from 0 s
  end.

(** Days from 1970-01-01 to a date of the proleptic Gregorian calendar. *)
Definition days_from_civil (y m d : Z) : Z :=
  let y' := if (m <=? 2)%Z then y - 1 else y in
  let era := y' `div` 400 in
  let yoe := y' - era * 400 in
  let mp := (m + 9) `mod` 12 in
  let doy := (153 * mp + 2) `div` 5 + d - 1 in
  let doe := yoe * 365 + yoe `div` 4 - yoe `div` 100 + doy in
  era * 146097 + doe - 719468.

Definition parse_clock (s : string) : option Z :=
  if bool_decide (String.length s = 8%nat ∧ substring 2 1 s = ":" ∧ substring 5 1 s = ":")
  then
    h ← number (substring 0 2 s);
    m ← number (substring 3 2 s);
    sec ← number (substring 6 2 s);
    if ((h <? 24) && (m <? 60) && (sec <? 60))%Z
    then Some ((h * 3600 + m * 60 + sec) * 1000000000)
    else None
  else None.

(** [H:MM:SS] reads as [0H:MM:SS]. *)
Definition parse_time (s : string) : option Z :=
  if bool_decide (String.length s = 7%nat) then parse_clock (String "0" s)
  else parse_clock s.

Definition parse_date (s : string) : option Z :=
  if bool_decide (String.length s = 10%nat ∧ substring 4 1 s = "-" ∧ substring 7 1 s = "-")
  then
    y ← number (substring 0 4 s);
    m ← number (substring 5 2 s);
    d ← number (substring 8 2 s);
    if ((1 <=? m) && (m <=? 12) && (1 <=? d) && (d <=? 31))%Z
    then Some (days_from_civil y m d * ns_per_day)
    else None
  else None.

Definition parse_stamp (s : string) : option Z :=
  match parse_date s, parse_time s with
  | Some ns, _ => Some ns
  | None, Some ns => Some ns
  | None, None =>
      if bool_decide (String.length s = 19%nat)
      then d ← parse_date (substring 0 10 s);
           t ← parse_time (substring 11 8 s);
           Some (d + t)
      else None
  end.

Fixpoint split_point (s : string) : string * option string :=
  match s with
  | EmptyString => (EmptyString, None)
  | String a s' =>
      if Ascii.eqb a "." then (EmptyString, Some s')
      else let '(i, f) := split_point s' in (String a i, f)
  end.

Definition parse_decimal (s : string) : option float :=
  let '(i, f) := split_point s in
  n ← number i;
  match f with
  | None => Some (float_of_Z n)
  | Some f =>
      k ← number f;
      Some (float_of_Z (n * 10 ^ Z.of_nat (String.length f) + k)
            / float_of_Z (10 ^ Z.of_nat (String.length f)))%float
  end.

Definition number_of (c : cell) : float :=
  match c with
  | Int z => float_of_Z z
  | _ => float_of c
  end.

Definition mean (s : list cell) : cell :=
  let xs := filter (λ c, notna c = true) s in
  float_cell (foldr (λ c acc, number_of c + acc)%float 0%float xs
              / float_of_Z (Z.of_nat (length xs)))%float.

(** Pearson's r by Welford's method, over the rows where both values
    are finite: the kernel of [DataFrame.corr]. *)
Record moments : Type := mkMoments {
  nobs : Z;
  meanx : float;
  meany : float;
  ssqdm_x : float;
  ssqdm_y : float;
  covxy : float
}.

Definition is_finite (x : float) : bool :=
  negb (PrimFloat.is_nan x) && negb (PrimFloat.is_infinity x).

Definition welford (m : moments) (v : float * float) : moments :=
  let '(vx, vy) := v in
  if is_finite vx && is_finite vy then
    let n := (nobs m + 1)%Z in
    let dx := (vx - meanx m)%float in
    let dy := (vy - meany m)%float in
    let mx := (meanx m + 1 / float_of_Z n * dx)%float in
    let my := (meany m + 1 / float_of_Z n * dy)%float in
    {| nobs := n; meanx := mx; meany := my;
       ssqdm_x := (ssqdm_x m + (vx - mx) * dx)%float;
       ssqdm_y := (ssqdm_y m + (vy - my) * dy)%float;
       covxy := (covxy m + (vx - mx) * dy)%float |}
  else m.

Definition correlate (xs ys : list float) : float :=
  let m := foldl welford
             {| nobs := 0; meanx := 0; meany := 0; ssqdm_x := 0; ssqdm_y := 0;
                covxy := 0 |} (zip xs ys) in
  if (nobs m <? 1)%Z then PrimFloat.nan
  else
    let divisor := PrimFloat.sqrt (ssqdm_x m * ssqdm_y m) in
    if (divisor =? 0)%float then PrimFloat.nan else (covxy m / divisor)%float.

#[export] Instance library : Library := {|
  permutation n := reverse (seq 0 n);
  parse_datetime _ c :=
    match c with
    | Str s => parse_stamp s
    | Int z => Some z
    | _ => None
    end;
  parse_float := parse_decimal;
  series_mean := mean;
  describe_html d := "";
  nancorr := correlate
|}.

End Standin.

(** ** Concrete data *)

(** Two files of telemetry, 180 distinct readings between them (20 are in
    both files), so that the 1% sample holds two rows. *)
Module Fleet.

Import Standin.

Definition pick (l : list string) (i : nat) : string :=
  default "" (l !! (i `mod` length l)%nat).

Definition times : list string :=
  ["09:15:00"; "23:10:10"; "00:00:01"; "10:05:30"; "9:59:59"; "noon";
   "12:00:00"].

Definition alerts : list string :=
  ["cas_ldw"; "cas_hmw"; "hard_brake"; "cas_pcw"; "cas_fcw"; "speeding"].

Definition reading (i : nat) : row :=
  {[ "Vehicle" := Int (Z.of_nat i);
     "Date" := Str (pick ["2022-06-01"; "2022-06-02"; "2022-06-05"] i);
     "Time" := Str (pick times i);
     "Lat" := Flt 12.5;
     "Long" := Flt 77.25;
     "Speed" := Int (Z.of_nat (30 + (7 * i) `mod` 70));
     "Alert" := Str (pick alerts i) ]}.

Definition schema : list string :=
  ["Alert"; "Date"; "Time"; "Lat"; "Long"; "Vehicle"; "Speed"].

Definition cas : DataFrame :=
  {| columns := schema; rows := reading <$> seq 0 100 |}.

Definition casdms : DataFrame :=
  {| columns := schema; rows := reading <$> seq 80 100 |}.

Definition disk : gmap string DataFrame :=
  {[ "data/iraste_nxt_cas.csv" := cas; "data/iraste_nxt_casdms.csv" := casdms ]}.

(** Two files that share no column. *)
Definition positions : DataFrame :=
  {| columns := ["Vehicle"; "Lat"; "Long"];
     rows := [ {[ "Vehicle" := Int 1; "Lat" := Flt 12.5; "Long" := Flt 77.25 ]};
               {[ "Vehicle" := Int 2; "Lat" := Flt 13; "Long" := Flt 77.5 ]} ] |}.

Definition events : DataFrame :=
  {| columns := ["Date"; "Time"; "Speed"; "Alert"];
     rows := [ {[ "Date" := Str "2022-06-01"; "Time" := Str "09:15:00";
                  "Speed" := Int 64; "Alert" := Str "cas_ldw" ]} ] |}.

Definition unrelated : gmap string DataFrame :=
  {[ "data/iraste_nxt_cas.csv" := positions;
     "data/iraste_nxt_casdms.csv" := events ]}.

End Fleet.

(** ** Reading the counts of a summary frame *)

Definition int_of (c : cell) : Z :=
  match c with
  | Int z => z
  | _ => 0
  end.

(** The sum of an integer column. *)
Definition column_total (df : DataFrame) (c : string) : Z :=
  foldr Z.add 0 (int_of <$> series df c).

(** ** More concrete data *)

(** Files that lack what the handlers ask for. *)
Module Depot.

(** Both files hold positions only: no Alert, Date, Time or Speed. *)
Definition bare : gmap string DataFrame :=
  {[ "data/iraste_nxt_cas.csv" := Fleet.positions;
     "data/iraste_nxt_casdms.csv" := Fleet.positions ]}.



(** The readings of the fleet without the Speed column. *)
Definition unmetered (first : nat) : DataFrame :=
  {| columns := ["Alert"; "Date"; "Time"; "Lat"; "Long"; "Vehicle"];
     rows := (λ i, delete "Speed" (Fleet.reading i)) <$> seq first 100 |}.

Definition unmetered_disk : gmap string DataFrame :=
  {[ "data/iraste_nxt_cas.csv" := unmetered 0;
     "data/iraste_nxt_casdms.csv" := unmetered 80 ]}.

(** Fifty distinct readings in two files of thirty. *)
Definition few (first : nat) : DataFrame :=
  {| columns := Fleet.schema; rows := Fleet.reading <$> seq first 30 |}.

Definition few_disk : gmap string DataFrame :=
  {[ "data/iraste_nxt_cas.csv" := few 0; "data/iraste_nxt_casdms.csv" := few 20 ]}.



End Depot.

(** * Properties *)

(** ** The speed bands

    Facts about binary64 comparison against the two band limits. *)

Section Bands.

Local Open Scope float_scope.

Lemma SF_of_60 : Prim2SF 60 = S754_finite false 8444249301319680 (-47).
Proof. vm_compute. reflexivity. Qed.

Lemma SF_of_80 : Prim2SF 80 = S754_finite false 5629499534213120 (-46).
Proof. vm_compute. reflexivity. Qed.

(** Swapping the operands of the specification's comparison swaps the
    verdict, also when one operand is NaN (no verdict either way). *)
Lemma SFcompare_antisym (x y : spec_float) :
  SFcompare y x = CompOpp <$> SFcompare x y.
Proof.
  destruct x as [sx|sx| |sx mx ex], y as [sy|sy| |sy my ey];
    cbn [SFcompare fmap option_fmap option_map];
    try destruct sx; try destruct sy; try reflexivity.
  all: change (PosDef.Pos.compare_cont Eq) with Pos.compare.
  all: rewrite (Z.compare_antisym ex ey), (Pos.compare_antisym mx my).
  all: destruct (ex ?= ey)%Z; cbn [CompOpp]; try reflexivity.
  all: destruct (mx ?= my)%positive; reflexivity.
Qed.

Lemma leb_not_ltb (x y : float) : (x <=? y) = true -> (y <? x) = false.
Proof.
  rewrite leb_spec, ltb_spec. unfold SFleb, SFltb.
  rewrite (SFcompare_antisym (Prim2SF x) (Prim2SF y)).
  destruct (SFcompare (Prim2SF x) (Prim2SF y)) as [[]|]; cbn; congruence.
Qed.

(** A speed of at least 80 is not below 60: the exponent of 80 already
    exceeds that of 60, so the mantissas never get compared. *)
Lemma above_80_above_60 (s : float) :
  (80 <=? s) = true -> (s <? 60) = false.
Proof.
  rewrite leb_spec, ltb_spec, SF_of_80, SF_of_60.
  unfold SFleb, SFltb.
  destruct (Prim2SF s) as [sg|sg| |sg m e]; cbn [SFcompare];
    try destruct sg; try discriminate; try reflexivity.
  destruct (Z.compare_spec (-46) e), (Z.compare_spec e (-47));
    try (exfalso; lia); try discriminate; try reflexivity.
  all: destruct (PosDef.Pos.compare_cont Eq 5629499534213120 m);
    try discriminate; reflexivity.
Qed.

End Bands.

(** C2.  Every speed gets one of the three labels, by lower-bound-inclusive
    bands: below 60 is "Low", from 60 up to but not including 80 is
    "Medium", 80 and above is "High"; and the four boundary values of the
    specification land as it says. *)
Theorem categorize_speed_bands (s : float) :
  (categorize_speed s = "Low" \/ categorize_speed s = "Medium"
     \/ categorize_speed s = "High")
  /\ ((s <? 60)%float = true -> categorize_speed s = "Low")
  /\ ((60 <=? s)%float = true -> (s <? 80)%float = true ->
        categorize_speed s = "Medium")
  /\ ((80 <=? s)%float = true -> categorize_speed s = "High")
  /\ categorize_speed 59.9 = "Low"
  /\ categorize_speed 60.0 = "Medium"
  /\ categorize_speed 79.9 = "Medium"
  /\ categorize_speed 80.0 = "High".
Proof.
  unfold categorize_speed. repeat split; try (vm_compute; reflexivity).
  - destruct (s <? 60)%float; [by left|].
    destruct ((60 <=? s)%float && (s <? 80)%float)%bool; [right; by left|].
    right; by right.
  - by intros ->.
  - intros H1 H2. by rewrite (leb_not_ltb 60 s H1), H1, H2.
  - intros H. by rewrite (above_80_above_60 s H), (leb_not_ltb 80 s H), andb_false_r.
Qed.

(** The bands of C2 at a speed inside each of them. *)
Lemma categorize_speed_bands_witness :
  categorize_speed 42.5 = "Low" /\ categorize_speed 61.25 = "Medium"
  /\ categorize_speed 120 = "High".
Proof.
  destruct (categorize_speed_bands 42.5) as (_ & Hlow & _).
  destruct (categorize_speed_bands 61.25) as (_ & _ & Hmed & _).
  destruct (categorize_speed_bands 120) as (_ & _ & _ & Hhigh & _).
  split; [apply Hlow; vm_compute; reflexivity|].
  split; [apply Hmed; vm_compute; reflexivity | apply Hhigh; vm_compute; reflexivity].
Defined.

(** ** The loader *)

Section FirstOccurrences.

Context {A : Type} `{EqDecision A}.

Lemma first_occurrences_elem (seen l : list A) (x : A) :
  x ∈ first_occurrences seen l ↔ x ∈ l ∧ x ∉ seen.
Proof.
  revert seen. induction l as [|y l IH]; intros seen; simpl.
  - rewrite elem_of_nil. tauto.
  - destruct (decide (y ∈ seen)) as [Hy|Hy].
    + rewrite IH, elem_of_cons. split; [tauto|].
      intros [[->|Hx] Hs]; [done|tauto].
    + rewrite !elem_of_cons, IH, not_elem_of_cons.
      destruct (decide (x = y)) as [->|Hne]; tauto.
Qed.

Lemma first_occurrences_NoDup (seen l : list A) :
  NoDup (first_occurrences seen l).
Proof.
  revert seen. induction l as [|y l IH]; intros seen; simpl.
  - constructor.
  - destruct (decide (y ∈ seen)); [apply IH|].
    constructor; [|apply IH].
    rewrite first_occurrences_elem, not_elem_of_cons. tauto.
Qed.

Lemma first_occurrences_sublist (seen l : list A) :
  first_occurrences seen l `sublist_of` l.
Proof.
  revert seen. induction l as [|y l IH]; intros seen; simpl; [done|].
  destruct (decide (y ∈ seen)).
  - by apply sublist_cons.
  - by apply sublist_skip.
Qed.

End FirstOccurrences.

Section FirstBy.

Context {A K : Type} `{EqDecision K} (key : A → K).

Lemma first_by_elem (seen : list K) (l : list A) (x : A) :
  x ∈ first_by key seen l → x ∈ l ∧ key x ∉ seen.
Proof.
  revert seen. induction l as [|y l IH]; intros seen; cbn [first_by].
  - by intros ?%elem_of_nil.
  - destruct (decide (key y ∈ seen)) as [Hy|Hy].
    + intros [? ?]%IH. split; [by right|done].
    + intros [->|[? Hs]%IH]%elem_of_cons; [split; [by left|done]|].
      split; [by right|]. intros ?. apply Hs. by right.
Qed.

(** No two of the kept values have the same key. *)
Lemma first_by_keys_NoDup (seen : list K) (l : list A) :
  NoDup (key <$> first_by key seen l).
Proof.
  revert seen. induction l as [|y l IH]; intros seen; cbn [first_by].
  - constructor.
  - destruct (decide (key y ∈ seen)); [apply IH|].
    csimpl. constructor; [|apply IH].
    intros (x & Hkey & [_ Hx]%first_by_elem)%list_elem_of_fmap.
    apply Hx. rewrite Hkey. by left.
Qed.

Lemma first_by_NoDup (seen : list K) (l : list A) : NoDup (first_by key seen l).
Proof. apply (NoDup_fmap_1 key), first_by_keys_NoDup. Qed.

Lemma first_by_sublist (seen : list K) (l : list A) :
  first_by key seen l `sublist_of` l.
Proof.
  revert seen. induction l as [|y l IH]; intros seen; cbn [first_by]; [done|].
  destruct (decide (key y ∈ seen)).
  - by apply sublist_cons.
  - by apply sublist_skip.
Qed.

(** Every value has its key among the kept ones, unless it was seen. *)
Lemma first_by_covers (seen : list K) (l : list A) (x : A) :
  x ∈ l → key x ∉ seen → ∃ y, y ∈ first_by key seen l ∧ key y = key x.
Proof.
  revert seen. induction l as [|y l IH]; intros seen; cbn [first_by].
  - by intros ?%elem_of_nil.
  - intros [->|Hx]%elem_of_cons Hs.
    + rewrite decide_False by done. exists y. split; [by left|done].
    + destruct (decide (key y ∈ seen)) as [Hy|Hy]; [by apply IH|].
      destruct (decide (key x = key y)) as [Heq|Hne].
      * exists y. split; [by left|done].
      * destruct (IH (key y :: seen) Hx) as (z & Hz & Hkey).
        { rewrite not_elem_of_cons. by split. }
        exists z. split; [by right|done].
Qed.

End FirstBy.

Lemma take_rows_elem (ps : list nat) (rs : list row) (r : row) :
  r ∈ take_rows ps rs → r ∈ rs.
Proof.
  unfold take_rows. rewrite list_elem_of_omap.
  intros (i & _ & Hi). by eapply list_elem_of_lookup_2.
Qed.

Lemma take_rows_NoDup (ps : list nat) (rs : list row) :
  NoDup ps → NoDup rs → NoDup (take_rows ps rs).
Proof.
  intros Hps Hrs. unfold take_rows.
  induction Hps as [|i ps Hi Hps IH]; simpl; [constructor|].
  destruct (rs !! i) as [r|] eqn:Hr; [|done].
  constructor; [|done].
  rewrite list_elem_of_omap. intros (j & Hj & Hrj).
  assert (i = j) as -> by (eapply (NoDup_lookup rs); eauto).
  done.
Qed.

Lemma cleaned_NoDup (df df1 : DataFrame) : NoDup (rows (cleaned df df1)).
Proof. apply NoDup_filter, first_by_NoDup. Qed.

Lemma cleaned_no_missing (df df1 : DataFrame) : no_missing (cleaned df df1).
Proof.
  intros r c Hr Hc. simpl in *.
  apply list_elem_of_filter in Hr as [Hr _].
  unfold complete in Hr. rewrite forallb_forall in Hr.
  specialize (Hr c). unfold notna in Hr.
  apply negb_true_iff, Hr. by apply list_elem_of_In.
Qed.

Section Loader.

Context `{lib : Library}.

Lemma sample_rows_elem (df : DataFrame) (r : row) :
  r ∈ rows (sample df) → r ∈ rows df.
Proof. apply take_rows_elem. Qed.

Lemma sample_NoDup (df : DataFrame) :
  NoDup (permutation (length (rows df))) →
  NoDup (rows df) → NoDup (rows (sample df)).
Proof.
  intros Hp Hr. apply take_rows_NoDup; [|done].
  eapply sublist_NoDup; [exact Hp|apply sublist_take].
Qed.

Lemma load_data_run (w : world) (df df1 : DataFrame) :
  files w !! "data/iraste_nxt_cas.csv" = Some df →
  files w !! "data/iraste_nxt_casdms.csv" = Some df1 →
  load_data w =
    (inr (length (heap w)),
     {| files := files w; heap := heap w ++ [load_frame df df1] |}).
Proof.
  intros H1 H2. unfold load_data, mbind, M_bind, read_csv, alloc.
  by rewrite H1, H2.
Qed.

Lemma load_data_inv (w w' : world) (p : nat) :
  load_data w = (inr p, w') →
  ∃ df df1,
    files w !! "data/iraste_nxt_cas.csv" = Some df
    ∧ files w !! "data/iraste_nxt_casdms.csv" = Some df1
    ∧ p = length (heap w)
    ∧ w' = {| files := files w; heap := heap w ++ [load_frame df df1] |}.
Proof.
  unfold load_data, mbind, M_bind, read_csv, alloc.
  destruct (files w !! "data/iraste_nxt_cas.csv") as [df|]; [|done].
  destruct (files w !! "data/iraste_nxt_casdms.csv") as [df1|]; [|done].
  intros [= <- <-]. by exists df, df1.
Qed.

End Loader.

(** C1.  Whatever the two files hold, the frame [load_data] returns has no
    two equal rows and no missing value under any of its columns: the
    rows are drawn, at distinct positions, from the frame that duplicates
    and incomplete rows were already removed from. *)
Theorem load_data_distinct_complete `{lib : Library} (w : world) (df df1 : DataFrame) :
  files w !! "data/iraste_nxt_cas.csv" = Some df →
  files w !! "data/iraste_nxt_casdms.csv" = Some df1 →
  NoDup (permutation (length (rows (cleaned df df1)))) →
  ∃ w' loaded,
    load_data w = (inr (length (heap w)), w')
    ∧ heap w' !! length (heap w) = Some loaded
    ∧ loaded = sample (cleaned df df1)
    ∧ NoDup (rows (cleaned df df1)) ∧ no_missing (cleaned df df1)
    ∧ rows loaded ⊆ rows (cleaned df df1)
    ∧ NoDup (rows loaded) ∧ no_missing loaded.
Proof.
  intros H1 H2 Hperm. eexists _, _.
  split; [by apply load_data_run|].
  split; [simpl; by rewrite lookup_app_r, Nat.sub_diag by lia|].
  split; [done|].
  split; [apply cleaned_NoDup|]. split; [apply cleaned_no_missing|].
  split; [intros r; apply sample_rows_elem|].
  split; [apply sample_NoDup; [done|apply cleaned_NoDup]|].
  intros r c Hr Hc. apply (cleaned_no_missing df df1 r c); [|done].
  by apply sample_rows_elem.
Qed.


(** The files of the fleet, looked up. *)
Lemma fleet_disk_cas : Fleet.disk !! "data/iraste_nxt_cas.csv" = Some Fleet.cas.
Proof. unfold Fleet.disk. by rewrite lookup_insert_eq. Qed.

Lemma fleet_disk_casdms : Fleet.disk !! "data/iraste_nxt_casdms.csv" = Some Fleet.casdms.
Proof. unfold Fleet.disk. by rewrite lookup_insert_ne, lookup_singleton_eq. Qed.

Lemma fleet_unrelated_cas : Fleet.unrelated !! "data/iraste_nxt_cas.csv" = Some Fleet.positions.
Proof. unfold Fleet.unrelated. by rewrite lookup_insert_eq. Qed.

Lemma fleet_unrelated_casdms : Fleet.unrelated !! "data/iraste_nxt_casdms.csv" = Some Fleet.events.
Proof. unfold Fleet.unrelated. by rewrite lookup_insert_ne, lookup_singleton_eq. Qed.

(** C1 on the fleet files: the loader returns a frame of two distinct,
    complete rows. *)
Lemma load_data_distinct_complete_witness :
  ∃ w' loaded,
    load_data (lib := Standin.library) (request Fleet.disk) = (inr 0%nat, w')
    ∧ heap w' !! 0%nat = Some loaded
    ∧ length (rows loaded) = 2%nat
    ∧ NoDup (rows loaded) ∧ no_missing loaded.
Proof.
  destruct (load_data_distinct_complete (lib := Standin.library)
              (request Fleet.disk) Fleet.cas Fleet.casdms)
    as (w' & loaded & Hrun & Hheap & Hloaded & _ & _ & _ & Hnd & Hnm).
  - apply fleet_disk_cas.
  - apply fleet_disk_casdms.
  - apply (bool_decide_unpack _). vm_compute. exact I.
  - exists w', loaded. repeat split; try done.
    rewrite Hloaded. vm_compute. reflexivity.
Defined.

(** ** Files with unrelated schemas *)

Lemma row_fits_lookup (cols : list string) (r : row) (c : string) :
  row_fits cols r → is_Some (r !! c) ↔ c ∈ cols.
Proof.
  unfold row_fits. intros Hd.
  by rewrite <- elem_of_dom, Hd, elem_of_list_to_set.
Qed.

Lemma reindex_lookup (cols : list string) (r : row) (c : string) :
  c ∈ cols → reindex cols r !! c = Some (cell_of r c).
Proof.
  intros Hc. unfold reindex.
  induction cols as [|c' cols IH]; [by apply elem_of_nil in Hc|].
  rewrite fmap_cons, list_to_map_cons.
  destruct (decide (c' = c)) as [->|Hne].
  - by rewrite lookup_insert_eq.
  - rewrite lookup_insert_ne by done. apply IH.
    apply elem_of_cons in Hc as [Hc|Hc]; [congruence|done].
Qed.

Lemma cell_of_reindex (cols : list string) (r : row) (c : string) :
  c ∈ cols → cell_of (reindex cols r) c = cell_of r c.
Proof. intros Hc. unfold cell_of at 1. by rewrite reindex_lookup. Qed.

Lemma complete_false (cols : list string) (r : row) (c : string) :
  c ∈ cols → cell_of r c = NA → complete cols r = false.
Proof.
  intros Hc Hna. apply not_true_is_false. unfold complete.
  rewrite forallb_forall. intros Hall.
  specialize (Hall c). rewrite Hna in Hall.
  discriminate Hall. by apply list_elem_of_In.
Qed.

Lemma take_rows_nil (ps : list nat) : take_rows ps [] = [].
Proof. unfold take_rows. induction ps as [|i ps IH]; [done|]. simpl. done. Qed.

Lemma filter_all {A : Type} (P : A → Prop) `{∀ x, Decision (P x)} (l : list A) :
  Forall P l → filter P l = l.
Proof.
  induction 1 as [|x l Hx _ IH]; [done|].
  by rewrite filter_cons_True, IH.
Qed.

Lemma filter_none {A : Type} (P : A → Prop) `{∀ x, Decision (P x)} (l : list A) :
  Forall (λ x, ¬ P x) l → filter P l = [].
Proof.
  induction 1 as [|x l Hx _ IH]; [done|].
  by rewrite filter_cons_False, IH.
Qed.

(** A cell of a row of the union: the cell of the row it comes from,
    converted where the column is float64. *)
Lemma cell_of_alter_upcast (r : row) (c c' : string) :
  cell_of (alter upcast_cell c' r) c
  = if decide (c = c') then upcast_cell (cell_of r c) else cell_of r c.
Proof.
  unfold cell_of. destruct (decide (c = c')) as [->|Hne].
  - rewrite lookup_alter_eq. by destruct (r !! c').
  - by rewrite lookup_alter_ne.
Qed.

Lemma upcast_cell_idemp (x : cell) : upcast_cell (upcast_cell x) = upcast_cell x.
Proof. by destruct x. Qed.

Lemma cell_of_upcast (floats : list string) (r : row) (c : string) :
  cell_of (upcast floats r) c
  = if decide (c ∈ floats) then upcast_cell (cell_of r c) else cell_of r c.
Proof.
  induction floats as [|c' floats IH]; cbn [upcast foldr].
  - by rewrite decide_False by apply not_elem_of_nil.
  - fold (upcast floats r). rewrite cell_of_alter_upcast, IH.
    destruct (decide (c = c')) as [->|Hne].
    + rewrite (decide_True (P := c' ∈ c' :: floats)) by left.
      destruct (decide (c' ∈ floats)); [apply upcast_cell_idemp|done].
    + destruct (decide (c ∈ floats)) as [Hin|Hin].
      * by rewrite decide_True by (by right).
      * rewrite decide_False; [done|]. rewrite not_elem_of_cons. by split.
Qed.

Lemma cell_of_unify (a b : DataFrame) (r : row) (c : string) :
  c ∈ union_columns a b →
  cell_of (unify a b r) c = cell_of r c
  ∨ cell_of (unify a b r) c = upcast_cell (cell_of r c).
Proof.
  intros Hc. unfold unify. rewrite cell_of_upcast, cell_of_reindex by done.
  destruct (decide _); [by right|by left].
Qed.

Lemma concat_rows (a b : DataFrame) :
  rows (concat a b) = unify a b <$> (rows a ++ rows b).
Proof. reflexivity. Qed.

Lemma concat_columns (a b : DataFrame) : columns (concat a b) = union_columns a b.
Proof. reflexivity. Qed.

(** A label the row has no value for reads NaN in the union. *)
Lemma unify_missing (a b : DataFrame) (r : row) (c : string) :
  c ∈ union_columns a b → cell_of r c = NA → cell_of (unify a b r) c = NA.
Proof.
  intros Hc Hna. destruct (cell_of_unify a b r c Hc) as [->| ->]; by rewrite Hna.
Qed.

(** Two frames without a common column: every row of the union lacks the
    columns of the other frame, so none survives [dropna]. *)
Lemma cleaned_disjoint (df df1 : DataFrame) :
  rectangular df → rectangular df1 →
  columns df ≠ [] → columns df1 ≠ [] →
  (∀ c, c ∈ columns df → c ∉ columns df1) →
  columns (cleaned df df1) = columns df ++ columns df1
  ∧ rows (cleaned df df1) = [].
Proof.
  intros [_ Hfit] [_ Hfit1] Hne Hne1 Hdisj.
  assert (filter (λ c, c ∉ columns df) (columns df1) = columns df1) as Hcols.
  { apply filter_all, Forall_forall. intros c Hc Hin. by apply (Hdisj c). }
  assert (union_columns df df1 = columns df ++ columns df1) as Hunion
    by (unfold union_columns; by rewrite Hcols).
  split; [exact Hunion|].
  unfold cleaned, dropna, drop_duplicates. cbn [rows columns].
  rewrite concat_rows, concat_columns.
  apply filter_none, Forall_forall.
  intros r' Hr'. apply first_by_elem in Hr' as [Hr' _].
  apply list_elem_of_fmap in Hr' as (r & -> & [Hr|Hr]%elem_of_app).
  - destruct (columns df1) as [|c1 cs1] eqn:E1; [done|].
    assert (c1 ∈ columns df1) as Hc1 by (rewrite E1; left).
    rewrite <- E1 in *. rewrite not_true_iff_false.
    apply (complete_false _ _ c1);
      [rewrite Hunion, elem_of_app; by right|].
    apply unify_missing; [rewrite Hunion, elem_of_app; by right|].
    rewrite Forall_forall in Hfit. specialize (Hfit r Hr).
    unfold cell_of. destruct (r !! c1) eqn:E; [|done].
    exfalso. apply (Hdisj c1); [|done].
    apply (row_fits_lookup _ r); [done|by eexists].
  - destruct (columns df) as [|c0 cs0] eqn:E0; [done|].
    assert (c0 ∈ columns df) as Hc0 by (rewrite E0; left).
    rewrite <- E0 in *. rewrite not_true_iff_false.
    apply (complete_false _ _ c0);
      [rewrite Hunion, elem_of_app; by left|].
    apply unify_missing; [rewrite Hunion, elem_of_app; by left|].
    rewrite Forall_forall in Hfit1. specialize (Hfit1 r Hr).
    unfold cell_of. destruct (r !! c0) eqn:E; [|done].
    exfalso. apply (Hdisj c0); [done|].
    apply (row_fits_lookup _ r); [done|by eexists].
Qed.

Lemma sample_empty `{lib : Library} (df : DataFrame) :
  rows df = [] → rows (sample df) = [].
Proof. intros Hr. unfold sample. simpl. rewrite Hr. apply take_rows_nil. Qed.

(** C3, as the code has it.  [load_data] checks no schema.  Whenever both
    files can be read it returns a frame, whatever their columns; for two
    files that share no column the frame has the columns of both and no
    row.  The only failure is that of [read_csv] on a file that is not
    there. *)
Theorem load_data_no_schema_check `{lib : Library} (fs : gmap string DataFrame) :
  (∀ df df1,
     fs !! "data/iraste_nxt_cas.csv" = Some df →
     fs !! "data/iraste_nxt_casdms.csv" = Some df1 →
     load_data (request fs)
       = (inr 0%nat, {| files := fs; heap := [load_frame df df1] |})
     ∧ (rectangular df → rectangular df1 →
        columns df ≠ [] → columns df1 ≠ [] →
        (∀ c, c ∈ columns df → c ∉ columns df1) →
        columns (load_frame df df1) = columns df ++ columns df1
        ∧ rows (load_frame df df1) = []))
  ∧ (∀ e w',
       load_data (request fs) = (inl e, w') →
       (e = FileNotFoundError "data/iraste_nxt_cas.csv"
        ∧ fs !! "data/iraste_nxt_cas.csv" = None)
       ∨ (e = FileNotFoundError "data/iraste_nxt_casdms.csv"
          ∧ fs !! "data/iraste_nxt_casdms.csv" = None)).
Proof.
  split.
  - intros df df1 H1 H2. split.
    + by rewrite (load_data_run (request fs) df df1).
    + intros Hr Hr1 Hne Hne1 Hdisj.
      destruct (cleaned_disjoint df df1) as [Hcols Hrows]; try done.
      split; [exact Hcols|]. by apply (sample_empty (cleaned df df1)).
  - intros e w'. unfold load_data, mbind, M_bind, read_csv, alloc, request. simpl.
    destruct (fs !! "data/iraste_nxt_cas.csv") as [df|] eqn:E1; simpl.
    + destruct (fs !! "data/iraste_nxt_casdms.csv") as [df1|] eqn:E2; simpl.
      * intros ?; discriminate.
      * intros [= <- _]. by right.
    + intros [= <- _]. by left.
Qed.

(** The amended C3 on the two files without a common column. *)
Lemma load_data_no_schema_check_witness :
  load_data (lib := Standin.library) (request Fleet.unrelated)
    = (inr 0%nat,
       {| files := Fleet.unrelated;
          heap := [load_frame (lib := Standin.library) Fleet.positions Fleet.events] |})
  ∧ columns (load_frame (lib := Standin.library) Fleet.positions Fleet.events)
    = ["Vehicle"; "Lat"; "Long"; "Date"; "Time"; "Speed"; "Alert"]
  ∧ rows (load_frame (lib := Standin.library) Fleet.positions Fleet.events) = [].
Proof.
  destruct (load_data_no_schema_check (lib := Standin.library) Fleet.unrelated)
    as [Hret _].
  destruct (Hret Fleet.positions Fleet.events) as [Hrun Hempty].
  - apply fleet_unrelated_cas.
  - apply fleet_unrelated_casdms.
  - split; [exact Hrun|]. apply Hempty.
    + apply (bool_decide_unpack _). vm_compute. exact I.
    + apply (bool_decide_unpack _). vm_compute. exact I.
    + done.
    + done.
    + (apply Forall_forall, (bool_decide_unpack _); vm_compute; exact I).
Defined.

(** C3 fails on the code: two readable files without a single common
    column are loaded without any exception; the result is a frame over
    the seven columns of both, with no row. *)
Lemma load_data_unrelated_schemas_returns :
  (∀ c, c ∈ columns Fleet.positions → c ∉ columns Fleet.events)
  ∧ (load_data (lib := Standin.library) (request Fleet.unrelated)).1 = inr 0%nat
  ∧ heap (load_data (lib := Standin.library) (request Fleet.unrelated)).2
    = [ {| columns := ["Vehicle"; "Lat"; "Long"; "Date"; "Time"; "Speed"; "Alert"];
           rows := [] |} ].
Proof.
  split; [apply Forall_forall, (bool_decide_unpack _); vm_compute; exact I|].
  rewrite (load_data_run (request Fleet.unrelated) Fleet.positions Fleet.events).
  - split; [done|]. vm_compute. reflexivity.
  - apply fleet_unrelated_cas.
  - apply fleet_unrelated_casdms.
Qed.

(** ** The stable sort *)

Section SortBy.

Context {A : Type}.
Implicit Types (leb : A → A → bool) (l : list A).

Lemma insert_by_Permutation leb x l : insert_by leb x l ≡ₚ x :: l.
Proof.
  induction l as [|y l IH]; simpl; [done|].
  destruct (leb x y); [done|]. by rewrite IH, Permutation_swap.
Qed.

Lemma sort_by_Permutation leb l : sort_by leb l ≡ₚ l.
Proof.
  induction l as [|x l IH]; simpl; [done|].
  by rewrite insert_by_Permutation, IH.
Qed.

Lemma sort_by_elem leb l x : x ∈ sort_by leb l ↔ x ∈ l.
Proof. by rewrite sort_by_Permutation. Qed.

Lemma insert_by_ext leb leb' x l :
  (∀ y, y ∈ l → leb x y = leb' x y) →
  insert_by leb x l = insert_by leb' x l.
Proof.
  induction l as [|y l IH]; intros Hext; simpl; [done|].
  rewrite <- (Hext y) by left.
  destruct (leb x y); [done|]. f_equal. apply IH.
  intros z Hz. apply Hext. by right.
Qed.

(** Two comparisons that agree on the elements sort alike. *)
Lemma sort_by_ext leb leb' l :
  (∀ x y, x ∈ l → y ∈ l → leb x y = leb' x y) →
  sort_by leb l = sort_by leb' l.
Proof.
  induction l as [|x l IH]; intros Hext; simpl; [done|].
  fold (sort_by leb l). fold (sort_by leb' l).
  rewrite IH by (intros y z Hy Hz; apply Hext; by right).
  apply insert_by_ext. intros y Hy%sort_by_elem.
  apply Hext; [left|by right].
Qed.

Lemma insert_by_sorted leb x l :
  (∀ a b, leb a b = false → leb b a = true) →
  (∀ a b c, leb a b = true → leb b c = true → leb a c = true) →
  StronglySorted (λ a b, leb a b = true) l →
  StronglySorted (λ a b, leb a b = true) (insert_by leb x l).
Proof.
  intros Htot Htrans. induction 1 as [|y l Hl IH Hy]; simpl.
  - repeat constructor.
  - destruct (leb x y) eqn:Hxy.
    + constructor; [by constructor|].
      constructor; [done|].
      eapply Forall_impl; [exact Hy|]. intros z Hz. by eapply Htrans.
    + constructor; [done|].
      rewrite (insert_by_Permutation leb x l).
      constructor; [by apply Htot|done].
Qed.

Lemma sort_by_sorted leb l :
  (∀ a b, leb a b = false → leb b a = true) →
  (∀ a b c, leb a b = true → leb b c = true → leb a c = true) →
  StronglySorted (λ a b, leb a b = true) (sort_by leb l).
Proof.
  intros Htot Htrans. induction l as [|x l IH]; simpl; [constructor|].
  by apply insert_by_sorted.
Qed.

End SortBy.

(** In a strongly sorted list the element at an earlier position is
    below the one at a later position. *)
Lemma StronglySorted_lookup {A : Type} (R : relation A) (l : list A)
    (i j : nat) (x y : A) :
  StronglySorted R l → (i < j)%nat → l !! i = Some x → l !! j = Some y → R x y.
Proof.
  intros Hs. revert i j. induction Hs as [|z l Hl IH Hz]; intros i j Hij Hi Hj.
  - done.
  - destruct j as [|j]; [lia|]. destruct i as [|i]; simpl in *.
    + injection Hi as ->. rewrite Forall_forall in Hz.
      by eapply Hz, list_elem_of_lookup_2.
    + apply (IH i j); [lia|done..].
Qed.

(** ** The order of text *)

Lemma string_leb_iff (a b : string) :
  String.leb a b = true ↔ a = b ∨ String_as_OT.lt a b.
Proof.
  unfold String.leb.
  destruct (String.compare a b) eqn:Hc.
  - apply String_as_OT.cmp_eq in Hc. tauto.
  - apply String_as_OT.cmp_lt in Hc. tauto.
  - split; [done|]. intros [->|Hlt].
    + assert (String.compare b b = Eq) as Hb by (by apply String_as_OT.cmp_eq).
      congruence.
    + apply String_as_OT.cmp_lt in Hlt. unfold String_as_OT.cmp in Hlt. congruence.
Qed.

Lemma string_leb_refl (a : string) : String.leb a a = true.
Proof. apply string_leb_iff. by left. Qed.

Lemma string_leb_trans (a b c : string) :
  String.leb a b = true → String.leb b c = true → String.leb a c = true.
Proof.
  rewrite !string_leb_iff. intros [->|Hab] [->|Hbc]; try tauto.
  right. by eapply String_as_OT.lt_trans.
Qed.

Lemma string_leb_total (a b : string) :
  String.leb a b = false → String.leb b a = true.
Proof. destruct (String.leb_total a b) as [H|H]; congruence. Qed.

(** ** Columns of a frame *)

Lemma set_column_lookup (d : DataFrame) (c : string) (v : list cell)
    (i : nat) (r : row) (x : cell) :
  rows d !! i = Some r → v !! i = Some x →
  rows (set_column d c v) !! i = Some (<[c := x]> r).
Proof.
  intros Hr Hv. simpl. rewrite lookup_zip_with, Hr. simpl. by rewrite Hv.
Qed.

Lemma set_column_length (d : DataFrame) (c : string) (v : list cell) :
  length v = length (rows d) → length (rows (set_column d c v)) = length (rows d).
Proof. intros Hl. simpl. rewrite length_zip_with. lia. Qed.

Lemma series_lookup (d : DataFrame) (c : string) (i : nat) (r : row) :
  rows d !! i = Some r → series d c !! i = Some (cell_of r c).
Proof. intros Hr. unfold series. by rewrite list_lookup_fmap, Hr. Qed.

Lemma series_length (d : DataFrame) (c : string) :
  length (series d c) = length (rows d).
Proof. unfold series. by rewrite length_fmap. Qed.

Lemma cell_of_insert (r : row) (c : string) (x : cell) :
  cell_of (<[c := x]> r) c = x.
Proof. unfold cell_of. by rewrite lookup_insert_eq. Qed.

Lemma cell_of_insert_ne (r : row) (c c' : string) (x : cell) :
  c ≠ c' → cell_of (<[c := x]> r) c' = cell_of r c'.
Proof. intros Hne. unfold cell_of. by rewrite lookup_insert_ne. Qed.

Lemma series_set_column_eq (d : DataFrame) (c : string) (v : list cell) :
  length v = length (rows d) → series (set_column d c v) c = v.
Proof.
  intros Hlen. unfold series. simpl.
  apply list_eq. intros i. rewrite list_lookup_fmap, lookup_zip_with.
  destruct (rows d !! i) as [r|] eqn:Hr; simpl.
  - destruct (v !! i) as [x|] eqn:Hx; simpl; [by rewrite cell_of_insert|].
    apply lookup_lt_Some in Hr. apply lookup_ge_None in Hx. lia.
  - symmetry. apply lookup_ge_None. apply lookup_ge_None in Hr. lia.
Qed.

Lemma series_set_column_ne (d : DataFrame) (c c' : string) (v : list cell) :
  c ≠ c' → length v = length (rows d) →
  series (set_column d c v) c' = series d c'.
Proof.
  intros Hne Hlen. unfold series. simpl.
  apply list_eq. intros i. rewrite !list_lookup_fmap, lookup_zip_with.
  destruct (rows d !! i) as [r|] eqn:Hr; simpl; [|done].
  destruct (v !! i) as [x|] eqn:Hx; simpl; [by rewrite cell_of_insert_ne|].
  apply lookup_lt_Some in Hr. apply lookup_ge_None in Hx. lia.
Qed.

(** ** Running handlers step by step *)

Section Steps.

Context {A B : Type}.

Lemma bind_inr (m : M A) (f : A → M B) (w w1 : world) (a : A) :
  m w = (inr a, w1) → (m ≫= f) w = f a w1.
Proof. intros Hm. unfold mbind, M_bind. by rewrite Hm. Qed.

Lemma bind_returns (m : M A) (f : A → M B) (w w' : world) (b : B) :
  (m ≫= f) w = (inr b, w') →
  ∃ a w1, m w = (inr a, w1) ∧ f a w1 = (inr b, w').
Proof.
  unfold mbind, M_bind. destruct (m w) as [[e|a] w1]; [done|].
  intros Hf. by exists a, w1.
Qed.

Lemma mret_returns (a a' : A) (w w' : world) :
  mret (M := M) a w = (inr a', w') → a' = a ∧ w' = w.
Proof. by intros [= -> ->]. Qed.

Lemma raise_returns (e : exn) (w w' : world) (a : A) :
  raise e w = (inr a, w') → False.
Proof. done. Qed.

End Steps.

Lemma deref_returns (p : nat) (w w' : world) (d : DataFrame) :
  deref p w = (inr d, w') → w' = w ∧ heap w !! p = Some d.
Proof. unfold deref. destruct (heap w !! p); [|done]. by intros [= -> ->]. Qed.

Lemma getitem_returns (p : nat) (c : string) (w w' : world) (s : list cell) :
  getitem p c w = (inr s, w') →
  w' = w ∧ ∃ d, heap w !! p = Some d ∧ c ∈ columns d ∧ s = series d c.
Proof.
  unfold getitem. intros (d & w1 & [-> Hd]%deref_returns & Hk)%bind_returns.
  destruct (decide (c ∈ columns d)); [|done].
  apply mret_returns in Hk as [-> ->]. split; [done|]. by exists d.
Qed.

Lemma setitem_returns (p : nat) (c : string) (v : list cell) (w w' : world) (u : unit) :
  setitem p c v w = (inr u, w') →
  ∃ d, heap w !! p = Some d ∧ length v = length (rows d)
       ∧ w' = {| files := files w; heap := <[p := set_column d c v]> (heap w) |}.
Proof.
  unfold setitem. intros (d & w1 & [-> Hd]%deref_returns & Hk)%bind_returns.
  destruct (decide (length v = length (rows d))); [|done].
  injection Hk as _ <-. by exists d.
Qed.

Lemma copy_returns (p q : nat) (w w' : world) :
  copy p w = (inr q, w') →
  ∃ d, heap w !! p = Some d ∧ q = length (heap w)
       ∧ w' = {| files := files w; heap := heap w ++ [d] |}.
Proof.
  unfold copy. intros (d & w1 & [-> Hd]%deref_returns & Hk)%bind_returns.
  injection Hk as <- <-. by exists d.
Qed.

Lemma drop_inplace_returns (p : nat) (c : string) (w w' : world) (u : unit) :
  drop_inplace p c w = (inr u, w') →
  ∃ d, heap w !! p = Some d ∧ c ∈ columns d
       ∧ w' = {| files := files w; heap := <[p := drop_column d c]> (heap w) |}.
Proof.
  unfold drop_inplace. intros (d & w1 & [-> Hd]%deref_returns & Hk)%bind_returns.
  destruct (decide (c ∈ columns d)); [|done].
  injection Hk as _ <-. by exists d.
Qed.

Lemma sort_values_returns (p q : nat) (c : string) (w w' : world) :
  sort_values p c w = (inr q, w') →
  ∃ d, heap w !! p = Some d ∧ c ∈ columns d ∧ sortable (series d c) = true
       ∧ q = length (heap w)
       ∧ w' = {| files := files w; heap := heap w ++ [sorted_by c d] |}.
Proof.
  unfold sort_values. intros (d & w1 & [-> Hd]%deref_returns & Hk)%bind_returns.
  destruct (decide (c ∈ columns d)); [|done].
  destruct (sortable (series d c)) eqn:Hs; [|done].
  injection Hk as <- <-. by exists d.
Qed.

Lemma where_isin_returns (p q : nat) (c : string) (vs : list string) (w w' : world) :
  where_isin p c vs w = (inr q, w') →
  ∃ d, heap w !! p = Some d ∧ c ∈ columns d ∧ q = length (heap w)
       ∧ w' = {| files := files w;
                 heap := heap w ++ [select d (λ r, isin vs (cell_of r c))] |}.
Proof.
  unfold where_isin. intros (d & w1 & [-> Hd]%deref_returns & Hk)%bind_returns.
  destruct (decide (c ∈ columns d)); [|done].
  injection Hk as <- <-. by exists d.
Qed.

Lemma px_returns (kind : string) (d : DataFrame) (enc opts : list (string * string))
    (title : string) (w w' : world) (f : figure) :
  px kind d enc opts title w = (inr f, w') →
  w' = w ∧ f = Px kind d enc opts title []
  ∧ Forall (λ kc, kc.2 ∈ columns d) enc.
Proof.
  unfold px.
  destruct (filter (λ kc : string * string, kc.2 ∉ columns d) enc) eqn:Hf; [|done].
  intros [-> ->]%mret_returns. repeat split.
  apply Forall_forall. intros kc Hkc.
  destruct (decide (kc.2 ∈ columns d)) as [|Hn]; [done|].
  assert (kc ∈ filter (λ kc : string * string, kc.2 ∉ columns d) enc) as Hin
    by (by apply list_elem_of_filter).
  rewrite Hf in Hin. by apply elem_of_nil in Hin.
Qed.

Lemma row_getitem_returns (cols : list string) (r : row) (c : string)
    (w w' : world) (v : cell) :
  row_getitem cols r c w = (inr v, w') → w' = w ∧ c ∈ cols ∧ v = cell_of r c.
Proof.
  unfold row_getitem. destruct (decide (c ∈ cols)); [|done].
  by intros [-> ->]%mret_returns.
Qed.

Section HandlerSteps.

Context `{lib : Library}.

Lemma to_datetime_returns (s s' : list cell) (w w' : world) :
  to_datetime s w = (inr s', w') →
  w' = w ∧ mapM (to_datetime_cell s) s = Some s'.
Proof.
  unfold to_datetime. destruct (mapM _ s) as [t|]; [|done].
  by intros [-> ->]%mret_returns.
Qed.

Lemma astype_float_returns (s s' : list cell) (w w' : world) :
  astype_float s w = (inr s', w') →
  w' = w ∧ mapM astype_float_cell s = Some s'.
Proof.
  unfold astype_float. destruct (mapM _ s) as [t|]; [|done].
  by intros [-> ->]%mret_returns.
Qed.

Lemma dt_day_name_returns (s s' : list cell) (w w' : world) :
  dt_day_name s w = (inr s', w') →
  w' = w ∧ datetimelike s = true ∧ s' = day_name_of <$> s.
Proof.
  unfold dt_day_name. destruct (datetimelike s); [|done].
  by intros [-> ->]%mret_returns.
Qed.

Lemma dt_hour_returns (s s' : list cell) (w w' : world) :
  dt_hour s w = (inr s', w') →
  w' = w ∧ datetimelike s = true ∧ s' = hour_of <$> s.
Proof.
  unfold dt_hour. destruct (datetimelike s); [|done].
  by intros [-> ->]%mret_returns.
Qed.

End HandlerSteps.

(** Reading a handler that returned back into what each of its steps
    did, in program order.  [tidy] keeps the worlds explicit, so that the
    positions of the frames compute; a Series read from a frame that was
    assigned into is at once brought back to the Series of the frame
    before the assignment, or to the list assigned. *)
Ltac tidy :=
  subst;
  cbn [heap files request lookup list_lookup insert list_insert length app] in *;
  repeat match goal with
    | H : Some _ = Some _ |- _ => injection H as H; try subst
    end.

Ltac operation_back H :=
  lazymatch type of H with
  | mret _ _ = _ => apply mret_returns in H as [? ?]
  | raise _ _ = _ => by apply raise_returns in H
  | (if decide ?P then _ else _) _ = _ =>
      destruct (decide P); [operation_back H|by apply raise_returns in H]
  | load_data _ = _ => apply load_data_inv in H as (? & ? & ? & ? & ? & ?)
  | deref _ _ = _ => apply deref_returns in H as [? ?]
  | getitem _ _ _ = _ => apply getitem_returns in H as (? & ? & ? & ? & ?)
  | setitem _ _ _ _ = _ => apply setitem_returns in H as (? & ? & ? & ?)
  | copy _ _ = _ => apply copy_returns in H as (? & ? & ? & ?)
  | drop_inplace _ _ _ = _ => apply drop_inplace_returns in H as (? & ? & ? & ?)
  | sort_values _ _ _ = _ => apply sort_values_returns in H as (? & ? & ? & ? & ? & ?)
  | where_isin _ _ _ _ = _ => apply where_isin_returns in H as (? & ? & ? & ? & ?)
  | px _ _ _ _ _ _ = _ => apply px_returns in H as (? & ? & ?)
  | to_datetime _ _ = _ => apply to_datetime_returns in H as [? ?]
  | astype_float _ _ = _ => apply astype_float_returns in H as [? ?]
  | dt_day_name _ _ = _ => apply dt_day_name_returns in H as (? & ? & ?)
  | dt_hour _ _ = _ => apply dt_hour_returns in H as (? & ? & ?)
  | _ => idtac
  end.

Ltac run_back H :=
  lazymatch type of H with
  | mbind _ _ _ = (inr _, _) =>
      let Hop := fresh "Hop" in
      apply bind_returns in H as (? & ? & Hop & H); cbv beta in H;
      operation_back Hop; tidy;
      repeat first [ rewrite series_set_column_eq in H by assumption
                   | rewrite series_set_column_ne in H by (assumption || done) ];
      run_back H
  | _ => operation_back H; tidy
  end.

(** ** Sorting by a column of text *)

Lemma text_leb_total (c : string) (r r' : row) :
  text_leb c r r' = false → text_leb c r' r = true.
Proof.
  unfold text_leb. destruct (cell_of r c), (cell_of r' c); try done.
  apply string_leb_total.
Qed.

Lemma text_leb_trans (c : string) (r1 r2 r3 : row) :
  text_leb c r1 r2 = true → text_leb c r2 r3 = true → text_leb c r1 r3 = true.
Proof.
  unfold text_leb.
  destruct (cell_of r1 c), (cell_of r2 c), (cell_of r3 c); try done.
  apply string_leb_trans.
Qed.

Lemma row_leb_text (c : string) (r r' : row) :
  text_or_missing (cell_of r c) → text_or_missing (cell_of r' c) →
  row_leb c r r' = text_leb c r r'.
Proof.
  unfold row_leb, text_leb, key_leb.
  intros [Hr|[a ->]] [Hr'|[b ->]]; simpl.
  - rewrite Hr'. by destruct (cell_of r c), (cell_of r' c).
  - rewrite Hr. by destruct (cell_of r c).
  - rewrite Hr'. by destruct (cell_of r' c).
  - done.
Qed.

(** A sortable Series with one text value holds text and missing values
    only. *)
Lemma sortable_text (s : list cell) (a : string) :
  sortable s = true → Str a ∈ s → Forall text_or_missing s.
Proof.
  unfold sortable. intros Hs Ha.
  assert (Str a ∈ filter (λ c, notna c = true) s) as Hin
    by (by apply list_elem_of_filter).
  destruct (filter (λ c, notna c = true) s) as [|c0 cs] eqn:Hf;
    [by apply elem_of_nil in Hin|].
  rewrite forallb_forall in Hs.
  assert (cell_kind c0 = 1%nat) as Hk0.
  { apply elem_of_cons in Hin as [<-|Hin]; [done|].
    apply list_elem_of_In, Hs, Nat.eqb_eq in Hin. by rewrite <- Hin. }
  apply Forall_forall. intros c Hc.
  destruct (isna c) eqn:Hna; [by left|]. right.
  assert (c ∈ c0 :: cs) as Hc'.
  { rewrite <- Hf. apply list_elem_of_filter. unfold notna. by rewrite Hna. }
  assert (cell_kind c = 1%nat) as Hk.
  { apply elem_of_cons in Hc' as [->|Hc']; [done|].
    apply list_elem_of_In, Hs, Nat.eqb_eq in Hc'. by rewrite Hc'. }
  destruct c; try done. by eexists.
Qed.

(** The rows of a frame sorted by a text column stand in the byte order
    of that text. *)
Lemma sorted_by_text (c : string) (d : DataFrame) (i j : nat) (r r' : row)
    (a b : string) :
  sortable (series d c) = true →
  (i ≤ j)%nat →
  rows (sorted_by c d) !! i = Some r → rows (sorted_by c d) !! j = Some r' →
  cell_of r c = Str a → cell_of r' c = Str b →
  String.leb a b = true.
Proof.
  intros Hs Hij Hi Hj Ha Hb. simpl in Hi, Hj.
  assert (r ∈ rows d) as Hr
    by (eapply sort_by_elem, list_elem_of_lookup_2; exact Hi).
  assert (Forall text_or_missing (series d c)) as Htext.
  { apply (sortable_text _ a); [done|]. rewrite <- Ha.
    unfold series. by apply (list_elem_of_fmap_2 (λ r, cell_of r c)). }
  assert (∀ x, x ∈ rows d → text_or_missing (cell_of x c)) as Hrows.
  { intros x Hx. rewrite Forall_forall in Htext. apply Htext.
    unfold series. by apply (list_elem_of_fmap_2 (λ r, cell_of r c)). }
  rewrite (sort_by_ext (row_leb c) (text_leb c)) in Hi, Hj
    by (intros x y Hx Hy; apply row_leb_text; by apply Hrows).
  destruct (decide (i = j)) as [->|Hne].
  - assert (r' = r) as -> by congruence.
    assert (b = a) as -> by congruence. apply string_leb_refl.
  - pose proof (StronglySorted_lookup _ _ i j r r'
                  (sort_by_sorted (text_leb c) (rows d)
                     (text_leb_total c) (text_leb_trans c))
                  ltac:(lia) Hi Hj) as Hle.
    unfold text_leb in Hle. by rewrite Ha, Hb in Hle.
Qed.

(** C10.  When [speed_analysis] returns, the frame that gets sorted is
    the frame [load_data] made of the two files with only its Speed
    column converted: its Time column is the Time column as loaded.  The
    frame behind the charts has its rows in the order [sort_values] gave
    them on that column, before it was parsed: a permutation of the
    loaded rows in which text stands in byte (lexicographic) order.  The
    parsed Time of the row at each position is the parse of the raw text
    at that position, NaT when it does not parse; the other loaded
    columns are as they were. *)
Theorem speed_analysis_orders_by_raw_time `{lib : Library}
    (fs : gmap string DataFrame) (resp : response) (w' : world) :
  speed_analysis (request fs) = (inr resp, w') →
  ∃ (d0 d1 loaded : DataFrame) (speeds : list cell)
    (df raw charted : DataFrame) (fig1 fig2 fig3 : figure),
    fs !! "data/iraste_nxt_cas.csv" = Some d0
    ∧ fs !! "data/iraste_nxt_casdms.csv" = Some d1
    ∧ loaded = load_frame d0 d1
    ∧ mapM astype_float_cell (series loaded "Speed") = Some speeds
    ∧ df = set_column loaded "Speed" speeds
    ∧ series df "Time" = series loaded "Time"
    ∧ heap w' = [df; charted]
    ∧ resp = JsonDict [("speed_time_chart", fig1);
                       ("speed_distribution_chart", fig2);
                       ("speed_category_chart", fig3)]
    ∧ fig_data fig1 = Some charted ∧ fig_data fig2 = Some charted
    ∧ raw = sorted_by "Time" df
    ∧ rows raw ≡ₚ rows df
    ∧ (∀ i j r r' a b,
         (i ≤ j)%nat → rows raw !! i = Some r → rows raw !! j = Some r' →
         cell_of r "Time" = Str a → cell_of r' "Time" = Str b →
         String.leb a b = true)
    ∧ length (rows charted) = length (rows raw)
    ∧ (∀ i r,
         rows raw !! i = Some r →
         ∃ r', rows charted !! i = Some r'
               ∧ cell_of r' "Time"
                 = default NaT (to_datetime_cell (series raw "Time") (cell_of r "Time"))
               ∧ ∀ c, c ≠ "Time" → c ≠ "Speed_Category" → cell_of r' c = cell_of r c).
Proof.
  intros Hrun. unfold speed_analysis in Hrun. run_back Hrun.
  match goal with
  | Hcast : mapM astype_float_cell (series (load_frame ?a ?b) "Speed") = Some ?s,
    Hlen : length ?s = length (rows (load_frame ?a ?b)) |- _ =>
      exists a, b, (load_frame a b), s;
      set (df := set_column (load_frame a b) "Speed" s) in *;
      assert (series df "Time" = series (load_frame a b) "Time") as Htime
        by (unfold df; by rewrite series_set_column_ne);
      rename Hcast into Hspeeds
  end.
  set (raw := sorted_by "Time" df) in *.
  set (timed := set_column raw "Time" (to_datetime_coerce (series raw "Time"))) in *.
  eexists df, raw, _, _, _, _.
  split; [assumption|]. split; [assumption|]. split; [reflexivity|].
  split; [exact Hspeeds|]. split; [reflexivity|]. split; [exact Htime|].
  split; [reflexivity|]. split; [reflexivity|].
  split; [reflexivity|]. split; [reflexivity|]. split; [reflexivity|].
  split; [apply sort_by_Permutation|].
  split; [intros i j r r' a b; by apply sorted_by_text|].
  assert (length (rows timed) = length (rows raw)) as Hlen.
  { apply set_column_length. unfold to_datetime_coerce.
    by rewrite length_fmap, series_length. }
  split.
  { rewrite set_column_length; [done|].
    by rewrite length_fmap, series_length. }
  intros i r Hr.
  pose proof (series_lookup raw "Time" i r Hr) as Ht.
  assert (rows timed !! i
          = Some (<["Time" := default NaT (to_datetime_cell (series raw "Time")
                                             (cell_of r "Time"))]> r)) as Htimed.
  { apply set_column_lookup; [done|].
    unfold to_datetime_coerce. by rewrite list_lookup_fmap, Ht. }
  eexists. split.
  { apply set_column_lookup; [exact Htimed|].
    rewrite list_lookup_fmap, (series_lookup raw "Speed" i r Hr). reflexivity. }
  split.
  - rewrite cell_of_insert_ne by done. apply cell_of_insert.
  - intros c Hc1 Hc2. by rewrite !cell_of_insert_ne.
Qed.

Lemma returns_run {A : Type} (m : M A) (w : world) :
  returns m w = true → ∃ a w', m w = (inr a, w').
Proof.
  unfold returns. destruct (m w) as [[e|a] w'] eqn:E; [done|]. by exists a, w'.
Qed.

(** C10 on the fleet files: the two sampled readings were taken at
    9:59:59 and 10:05:30; the chart has the later one first, because
    "10:05:30" is below "9:59:59" as text. *)
Lemma speed_analysis_orders_by_raw_time_witness :
  ∃ resp w' df charted,
    speed_analysis (lib := Standin.library) (request Fleet.disk) = (inr resp, w')
    ∧ heap w' = [df; charted]
    ∧ series (load_frame (lib := Standin.library) Fleet.cas Fleet.casdms) "Time"
      = [Str "9:59:59"; Str "10:05:30"]
    ∧ series df "Time" = [Str "9:59:59"; Str "10:05:30"]
    ∧ series (sorted_by "Time" df) "Time" = [Str "10:05:30"; Str "9:59:59"]
    ∧ series charted "Time" = [Stamp 36330000000000; Stamp 35999000000000]
    ∧ String.leb "10:05:30" "9:59:59" = true.
Proof.
  destruct (returns_run (speed_analysis (lib := Standin.library)) (request Fleet.disk))
    as (resp & w' & Hrun); [vm_compute; reflexivity|].
  destruct (speed_analysis_orders_by_raw_time (lib := Standin.library) _ _ _ Hrun)
    as (d0 & d1 & loaded & speeds & df & raw & charted & fig1 & fig2 & fig3
        & Hd0 & Hd1 & Hloaded & _ & _ & Htime & Hheap & _ & _ & _ & -> & _
        & Hsorted & _ & _).
  rewrite fleet_disk_cas in Hd0. rewrite fleet_disk_casdms in Hd1.
  injection Hd0 as <-. injection Hd1 as <-. rewrite Hloaded in Htime.
  assert (series (load_frame (lib := Standin.library) Fleet.cas Fleet.casdms) "Time"
          = [Str "9:59:59"; Str "10:05:30"]) as Hloadedtime
    by (vm_compute; reflexivity).
  assert (match heap (speed_analysis (lib := Standin.library)
                        (request Fleet.disk)).2 with
          | [d; c] =>
              series (sorted_by "Time" d) "Time" = [Str "10:05:30"; Str "9:59:59"]
              ∧ series c "Time" = [Stamp 36330000000000; Stamp 35999000000000]
          | _ => False
          end) as Hdata by (vm_compute; split; reflexivity).
  rewrite Hrun in Hdata. simpl in Hdata. rewrite Hheap in Hdata.
  destruct Hdata as [Hraw Hparsed].
  exists resp, w', df, charted.
  split; [exact Hrun|]. split; [exact Hheap|].
  split; [exact Hloadedtime|]. split; [by rewrite Htime|].
  split; [exact Hraw|]. split; [exact Hparsed|].
  unfold series in Hraw.
  destruct (rows (sorted_by "Time" df)) as [|r0 [|r1 [|]]] eqn:Hrows;
    try discriminate Hraw.
  injection Hraw as H0 H1.
  apply (Hsorted 0%nat 1%nat r0 r1);
    [lia|reflexivity|reflexivity|exact H0|exact H1].
Defined.

(** ** The safety subset *)

Lemma isin_true (values : list string) (c : cell) :
  isin values c = true ↔ ∃ a, c = Str a ∧ a ∈ values.
Proof.
  destruct c; simpl; try (split; [done|by intros (? & ? & _)]).
  rewrite bool_decide_eq_true. split; [by eexists|by intros (? & [= ->] & ?)].
Qed.

Lemma select_isin_elem (d : DataFrame) (c : string) (values : list string) (r : row) :
  r ∈ rows (select d (λ r, isin values (cell_of r c)))
  ↔ r ∈ rows d ∧ ∃ a, cell_of r c = Str a ∧ a ∈ values.
Proof. simpl. rewrite list_elem_of_filter, isin_true. tauto. Qed.

(** C5.  When either safety handler returns, the first frame of the
    request is the frame [load_data] made of the two files, untouched,
    and the frame the handler filtered out of it has the loaded columns
    and a sub-sequence of the loaded rows: exactly those whose Alert is
    one of cas_ldw, cas_hmw, hard_brake, cas_pcw and cas_fcw.  The charts
    are drawn from that frame. *)
Theorem safety_subset_of_loaded `{lib : Library}
    (fs : gmap string DataFrame) (resp : response) (w' : world) :
  safety_impact (request fs) = (inr resp, w')
  ∨ safety_analysis (request fs) = (inr resp, w') →
  ∃ (d0 d1 loaded safety_df : DataFrame) (figs : list (string * figure)),
    fs !! "data/iraste_nxt_cas.csv" = Some d0
    ∧ fs !! "data/iraste_nxt_casdms.csv" = Some d1
    ∧ loaded = load_frame d0 d1
    ∧ heap w' = [loaded; safety_df]
    ∧ columns safety_df = columns loaded
    ∧ rows safety_df `sublist_of` rows loaded
    ∧ (∀ r, r ∈ rows safety_df ↔
            r ∈ rows loaded
            ∧ ∃ a, cell_of r "Alert" = Str a
                   ∧ a ∈ ["cas_ldw"; "cas_hmw"; "hard_brake"; "cas_pcw"; "cas_fcw"])
    ∧ resp = JsonDict figs
    ∧ Forall (λ nf, fig_data nf.2 = Some safety_df
                    ∨ fig_data nf.2 = Some (groupby_count "Speed" "Alert" safety_df)
                    ∨ fig_data nf.2
                      = Some (value_counts "Alert" "Frequency" (series safety_df "Alert")))
        figs.
Proof.
  intros [Hrun|Hrun].
  - unfold safety_impact in Hrun. run_back Hrun.
    eexists _, _, _, _, _. split; [eassumption|]. split; [eassumption|].
    split; [reflexivity|]. split; [reflexivity|]. split; [reflexivity|].
    split; [apply sublist_filter|]. split; [intros r; apply select_isin_elem|].
    split; [reflexivity|].
    repeat constructor; simpl; tauto.
  - unfold safety_analysis, safety_alerts in Hrun. run_back Hrun.
    eexists _, _, _, _, _. split; [eassumption|]. split; [eassumption|].
    split; [reflexivity|]. split; [reflexivity|]. split; [reflexivity|].
    split; [apply sublist_filter|]. split; [intros r; apply select_isin_elem|].
    split; [reflexivity|].
    repeat constructor; simpl; tauto.
Qed.

(** C5 on the fleet files: of the two sampled readings, a speeding alert
    and a forward-collision warning, the safety frame keeps the second. *)
Lemma safety_subset_of_loaded_witness :
  ∃ resp w' loaded safety_df,
    safety_impact (lib := Standin.library) (request Fleet.disk) = (inr resp, w')
    ∧ loaded = load_frame (lib := Standin.library) Fleet.cas Fleet.casdms
    ∧ heap w' = [loaded; safety_df]
    ∧ series loaded "Alert" = [Str "speeding"; Str "cas_fcw"]
    ∧ series safety_df "Alert" = [Str "cas_fcw"]
    ∧ rows safety_df `sublist_of` rows loaded.
Proof.
  destruct (returns_run (safety_impact (lib := Standin.library)) (request Fleet.disk))
    as (resp & w' & Hrun); [vm_compute; reflexivity|].
  destruct (safety_subset_of_loaded (lib := Standin.library) _ _ _ (or_introl Hrun))
    as (d0 & d1 & loaded & safety_df & figs & Hd0 & Hd1 & Hloaded & Hheap & _
        & Hsub & _).
  rewrite fleet_disk_cas in Hd0. rewrite fleet_disk_casdms in Hd1.
  injection Hd0 as <-. injection Hd1 as <-.
  assert (match heap (safety_impact (lib := Standin.library)
                        (request Fleet.disk)).2 with
          | [d; s] =>
              series d "Alert" = [Str "speeding"; Str "cas_fcw"]
              ∧ series s "Alert" = [Str "cas_fcw"]
          | _ => False
          end) as Hdata by (vm_compute; split; reflexivity).
  rewrite Hrun in Hdata. simpl in Hdata. rewrite Hheap in Hdata.
  destruct Hdata as [Hall Hsafe].
  exists resp, w', loaded, safety_df.
  split; [exact Hrun|]. split; [exact Hloaded|]. split; [exact Hheap|].
  split; [exact Hall|]. split; [exact Hsafe|exact Hsub].
Defined.

(** ** The coordinate records *)



(** A list traversed by a function that leaves the world alone. *)
Lemma mapM_returns {A B : Type} (f : A → M B) (P : A → B → Prop)
    (l : list A) (k : list B) (w w' : world) :
  (∀ a b w1 w2, f a w1 = (inr b, w2) → w2 = w1 ∧ P a b) →
  mapM f l w = (inr k, w') → w' = w ∧ Forall2 P l k.
Proof.
  intros Hf. revert k w w'. induction l as [|a l IH]; intros k w w' Hrun; simpl in Hrun.
  - apply mret_returns in Hrun as [-> ->]. by split.
  - apply bind_returns in Hrun as (b & w1 & [-> Hb]%Hf & Hrun). cbv beta in Hrun.
    apply bind_returns in Hrun as (k' & w2 & [-> Hk]%IH & Hrun). cbv beta in Hrun.
    apply mret_returns in Hrun as [-> ->]. split; [done|]. by constructor.
Qed.




(** ** Which frames a handler writes *)

Create HintDb writes.

Section Writes.

Context (P : nat → Prop).

Lemma writes_only_ret {A : Type} (a : A) : writes_only P (mret a).
Proof. intros w r w' [= <- <-]. by repeat split. Qed.

Lemma writes_only_raise {A : Type} (e : exn) : writes_only P (raise (A := A) e).
Proof. intros w r w' [= <- <-]. by repeat split. Qed.

Lemma writes_only_bind {A B : Type} (m : M A) (f : A → M B) :
  writes_only P m → (∀ a, writes_only P (f a)) → writes_only P (m ≫= f).
Proof.
  intros Hm Hf w r w' Hrun. unfold mbind, M_bind in Hrun.
  destruct (m w) as [[e|a] w1] eqn:E.
  - injection Hrun as <- <-. by apply (Hm w (inl e)).
  - destruct (Hm w _ _ E) as (Hfs & Hlen & Hsame).
    destruct (Hf a w1 _ _ Hrun) as (Hfs' & Hlen' & Hsame').
    split; [congruence|]. split; [lia|].
    intros i Hi HP. rewrite Hsame' by (done || lia). by apply Hsame.
Qed.

Lemma writes_only_if {A : Type} (b : bool) (m1 m2 : M A) :
  writes_only P m1 → writes_only P m2 → writes_only P (if b then m1 else m2).
Proof. by destruct b. Qed.

Lemma writes_only_decide {A : Type} (Q : Prop) `{Decision Q} (m1 m2 : M A) :
  writes_only P m1 → writes_only P m2 →
  writes_only P (if decide Q then m1 else m2).
Proof. by destruct (decide Q). Qed.

Lemma writes_only_alloc (d : DataFrame) : writes_only P (alloc d).
Proof.
  intros w r w' [= <- <-]. simpl. split; [done|].
  split; [rewrite length_app; lia|].
  intros i Hi _. by rewrite lookup_app_l.
Qed.

Lemma writes_only_deref (p : nat) : writes_only P (deref p).
Proof.
  intros w r w'. unfold deref.
  destruct (heap w !! p); intros [= <- <-]; by repeat split.
Qed.

Lemma writes_only_read_csv (path : string) : writes_only P (read_csv path).
Proof.
  intros w r w'. unfold read_csv.
  destruct (files w !! path); intros [= <- <-]; by repeat split.
Qed.

Lemma writes_only_assign (p : nat) (d : DataFrame) :
  P p → writes_only P (assign p d).
Proof.
  intros Hp w r w' [= <- <-]. simpl. split; [done|].
  split; [by rewrite length_insert|].
  intros i Hi Hn. apply list_lookup_insert_ne. by intros ->.
Qed.

Lemma writes_only_px k d enc opts t : writes_only P (px k d enc opts t).
Proof.
  unfold px. destruct (filter _ enc);
    [apply writes_only_ret|apply writes_only_raise].
Qed.

Lemma writes_only_mapM {A B : Type} (f : A → M B) (l : list A) :
  (∀ a, writes_only P (f a)) → writes_only P (mapM f l).
Proof.
  intros Hf. induction l as [|a l IH]; simpl; [apply writes_only_ret|].
  apply writes_only_bind; [apply Hf|]. intros b.
  apply writes_only_bind; [apply IH|]. intros k. apply writes_only_ret.
Qed.

End Writes.

#[global] Hint Resolve writes_only_ret writes_only_raise writes_only_alloc
  writes_only_deref writes_only_read_csv writes_only_px : writes.

(** Discharges [writes_only] for a handler body: binds and branches are
    taken apart, the operations answered from the hint database, an
    assignment by showing its target is in the set. *)
Ltac writes :=
  repeat first
    [ progress intros
    | solve [auto with writes]
    | apply writes_only_bind
    | apply writes_only_decide
    | apply writes_only_if
    | apply writes_only_mapM
    | apply writes_only_assign; reflexivity
    | match goal with
      | |- writes_only _ (match ?x with _ => _ end) => destruct x
      end ].

Section WritesOf.

Context `{lib : Library} (P : nat → Prop).

Lemma writes_only_getitem p c : writes_only P (getitem p c).
Proof. unfold getitem. writes. Qed.

Lemma writes_only_setitem p c v : P p → writes_only P (setitem p c v).
Proof. intros Hp. unfold setitem. writes. by apply writes_only_assign. Qed.

Lemma writes_only_drop_inplace p c : P p → writes_only P (drop_inplace p c).
Proof. intros Hp. unfold drop_inplace. writes. by apply writes_only_assign. Qed.

Lemma writes_only_location_of cols r : writes_only P (location_of cols r).
Proof. unfold location_of, row_getitem. writes. Qed.

Lemma writes_only_record_of cols r : writes_only P (record_of cols r).
Proof. unfold record_of, row_getitem. writes. Qed.

Lemma writes_only_copy p : writes_only P (copy p).
Proof. unfold copy. writes. Qed.

Lemma writes_only_sort_values p c : writes_only P (sort_values p c).
Proof. unfold sort_values. writes. Qed.

Lemma writes_only_where_isin p c vs : writes_only P (where_isin p c vs).
Proof. unfold where_isin. writes. Qed.

Lemma writes_only_row_getitem cols r c : writes_only P (row_getitem cols r c).
Proof. unfold row_getitem. writes. Qed.

Lemma writes_only_to_datetime s : writes_only P (to_datetime s).
Proof. unfold to_datetime. writes. Qed.

Lemma writes_only_astype_float s : writes_only P (astype_float s).
Proof. unfold astype_float. writes. Qed.

Lemma writes_only_dt_day_name s : writes_only P (dt_day_name s).
Proof. unfold dt_day_name. writes. Qed.

Lemma writes_only_dt_hour s : writes_only P (dt_hour s).
Proof. unfold dt_hour. writes. Qed.

Lemma writes_only_load_data : writes_only P load_data.
Proof. unfold load_data. writes. Qed.

End WritesOf.

#[global] Hint Resolve writes_only_getitem writes_only_copy writes_only_sort_values
  writes_only_where_isin writes_only_row_getitem writes_only_to_datetime
  writes_only_astype_float writes_only_dt_day_name writes_only_dt_hour
  writes_only_load_data : writes.


#[global] Hint Resolve writes_only_location_of writes_only_record_of : writes.

(** ** The loaded frame after a handler *)

Section Kept.

Context `{lib : Library}.

(** After [load_data] the loaded frame is object 0; a continuation
    that writes no object leaves it there. *)
Lemma kept_after_load {A : Type} (k : nat → M A) (fs : gmap string DataFrame)
    (df df1 : DataFrame) (r : exn + A) (w' : world) :
  fs !! "data/iraste_nxt_cas.csv" = Some df →
  fs !! "data/iraste_nxt_casdms.csv" = Some df1 →
  writes_only (λ i, i ≠ 0%nat) (k 0%nat) →
  (load_data ≫= k) (request fs) = (r, w') →
  heap w' !! 0%nat = Some (load_frame df df1).
Proof.
  intros H1 H2 Hk Hrun.
  rewrite (bind_inr _ _ _ _ _ (load_data_run (request fs) df df1 H1 H2)) in Hrun.
  destruct (Hk _ _ _ Hrun) as (_ & _ & Hsame).
  rewrite Hsame; simpl; [done|lia|]. by intros ?.
Qed.

Lemma location_of_returns (cols : list string) (r : row) (w w' : world)
    (l : location) :
  location_of cols r w = (inr l, w') → w' = w ∧ True.
Proof.
  intros Hrun. unfold location_of in Hrun.
  repeat match goal with
    | H : mbind _ _ _ = (inr _, _) |- _ =>
        apply bind_returns in H as (? & ? & (-> & ? & ->)%row_getitem_returns & H);
        cbv beta in H
    end.
  by apply mret_returns in Hrun as [-> ->].
Qed.

End Kept.

(** Two readings of one file are the same frame. *)
Ltac same_files :=
  repeat match goal with
    | H : ?fs !! ?p = Some ?a, H' : ?fs !! ?p = Some ?b |- _ =>
        assert (b = a) as -> by congruence; clear H'
    end.

(** C9, as the code has it.  Only [correlation_analysis] works on a copy.
    After it, and after the five handlers that only read
    ([spatial_analysis], [driver_behavior], [safety_impact],
    [safety_analysis], [get_coordinates]), the loaded frame is as
    [load_data] returned it, whatever the outcome.  [alert_frequency],
    [speed_analysis] and [home] assign into the loaded frame itself: when
    they return, its Date column holds the parsed dates and a DayOfWeek
    column has been added ([alert_frequency], [home]), its Time column
    holds the parsed times ([alert_frequency]) and its Speed column the
    speeds as floats ([alert_frequency], [speed_analysis]). *)
Theorem loaded_frame_after_handlers `{lib : Library}
    (fs : gmap string DataFrame) (df df1 : DataFrame) :
  fs !! "data/iraste_nxt_cas.csv" = Some df →
  fs !! "data/iraste_nxt_casdms.csv" = Some df1 →
  let loaded := load_frame df df1 in
  Forall (λ handler : M response,
            ∀ r w', handler (request fs) = (r, w') → heap w' !! 0%nat = Some loaded)
    [spatial_analysis; correlation_analysis; driver_behavior; safety_impact;
     safety_analysis; get_coordinates]
  ∧ (∀ resp w',
       alert_frequency (request fs) = (inr resp, w') →
       ∃ dates speeds,
         mapM (to_datetime_cell (series loaded "Date")) (series loaded "Date") = Some dates
         ∧ mapM astype_float_cell (series loaded "Speed") = Some speeds
         ∧ heap w' !! 0%nat
           = Some (set_column
                     (set_column
                        (set_column (set_column loaded "Date" dates)
                           "DayOfWeek" (day_name_of <$> dates))
                        "Time" (to_datetime_coerce (series loaded "Time")))
                     "Speed" speeds))
  ∧ (∀ resp w',
       speed_analysis (request fs) = (inr resp, w') →
       ∃ speeds,
         mapM astype_float_cell (series loaded "Speed") = Some speeds
         ∧ heap w' !! 0%nat = Some (set_column loaded "Speed" speeds))
  ∧ (∀ resp w',
       home (request fs) = (inr resp, w') →
       ∃ dates,
         mapM (to_datetime_cell (series loaded "Date")) (series loaded "Date") = Some dates
         ∧ heap w' !! 0%nat
           = Some (set_column (set_column loaded "Date" dates)
                     "DayOfWeek" (day_name_of <$> dates))).
Proof.
  intros H1 H2 loaded. subst loaded. split; [|split; [|split]].
  - repeat apply Forall_cons_2; try apply Forall_nil_2; intros r w' Hrun.
    + unfold spatial_analysis in Hrun.
      refine (kept_after_load _ fs df df1 r w' H1 H2 _ Hrun). writes.
    + unfold correlation_analysis in Hrun.
      rewrite (bind_inr _ _ _ _ _ (load_data_run (request fs) df df1 H1 H2)) in Hrun.
      rewrite (bind_inr (copy 0) _ _
                 {| files := fs; heap := [load_frame df df1; load_frame df df1] |} 1%nat)
        in Hrun by reflexivity.
      match type of Hrun with
      | ?body _ = _ => assert (writes_only (λ i, i = 1%nat) body) as Hw
      end.
      { repeat first [ solve [auto with writes]
                     | apply writes_only_setitem; reflexivity
                     | apply writes_only_drop_inplace; reflexivity
                     | apply writes_only_bind; [|intros ?] ]. }
      destruct (Hw _ _ _ Hrun) as (_ & _ & Hsame).
      rewrite Hsame; simpl; [done|lia|lia].
    + unfold driver_behavior in Hrun.
      refine (kept_after_load _ fs df df1 r w' H1 H2 _ Hrun). writes.
    + unfold safety_impact in Hrun.
      refine (kept_after_load _ fs df df1 r w' H1 H2 _ Hrun). writes.
    + unfold safety_analysis in Hrun.
      refine (kept_after_load _ fs df df1 r w' H1 H2 _ Hrun). writes.
    + unfold get_coordinates in Hrun.
      refine (kept_after_load _ fs df df1 r w' H1 H2 _ Hrun). writes.
  - intros resp w' Hrun. unfold alert_frequency in Hrun.
    run_back Hrun. same_files. by eexists _, _.
  - intros resp w' Hrun. unfold speed_analysis in Hrun.
    run_back Hrun. same_files. by eexists.
  - intros resp w' Hrun. unfold home in Hrun.
    run_back Hrun. same_files.
    match goal with
    | H : mapM _ _ _ = (inr _, _) |- _ =>
        apply (mapM_returns _ (λ _ _, True)) in H as [-> _];
          [|intros ????; apply location_of_returns]
    end.
    by eexists.
Qed.

(** The amended C9 on the fleet files: [correlation_analysis] leaves the
    loaded frame as loaded, [speed_analysis] leaves it with the two
    sampled speeds, 93 and 86, turned from integers into floats. *)
Lemma loaded_frame_after_handlers_witness :
  (∃ r w',
     correlation_analysis (lib := Standin.library) (request Fleet.disk) = (r, w')
     ∧ heap w' !! 0%nat
       = Some (load_frame (lib := Standin.library) Fleet.cas Fleet.casdms))
  ∧ (∃ resp w',
       speed_analysis (lib := Standin.library) (request Fleet.disk) = (inr resp, w')
       ∧ series (load_frame (lib := Standin.library) Fleet.cas Fleet.casdms) "Speed"
         = [Int 93; Int 86]
       ∧ heap w' !! 0%nat
         = Some (set_column (load_frame (lib := Standin.library) Fleet.cas Fleet.casdms)
                   "Speed" [Flt 93; Flt 86])).
Proof.
  destruct (loaded_frame_after_handlers (lib := Standin.library)
              Fleet.disk Fleet.cas Fleet.casdms fleet_disk_cas fleet_disk_casdms)
    as (Hread & _ & Hspeed & _).
  split.
  - destruct (correlation_analysis (lib := Standin.library) (request Fleet.disk))
      as [r w'] eqn:Hrun.
    exists r, w'. split; [reflexivity|].
    apply Forall_cons in Hread as [_ Hread].
    apply Forall_cons in Hread as [Hcorr _].
    by apply (Hcorr r w').
  - destruct (returns_run (speed_analysis (lib := Standin.library)) (request Fleet.disk))
      as (resp & w' & Hrun); [vm_compute; reflexivity|].
    destruct (Hspeed resp w' Hrun) as (speeds & Hconv & Hheap).
    assert (series (load_frame (lib := Standin.library) Fleet.cas Fleet.casdms) "Speed"
            = [Int 93; Int 86]) as Hseries by (vm_compute; reflexivity).
    exists resp, w'. split; [exact Hrun|]. split; [exact Hseries|].
    rewrite Hseries in Hconv. vm_compute in Hconv.
    injection Hconv as <-. exact Hheap.
Defined.

(** C9 fails on the code: on the fleet files [alert_frequency] leaves the
    frame that [load_data] returned with an eighth column, DayOfWeek, and
    with datetimes where the Date column held text. *)
Lemma alert_frequency_writes_loaded_frame :
  (λ d, (columns d, series d "Date"))
    <$> heap (load_data (lib := Standin.library) (request Fleet.disk)).2 !! 0%nat
  = Some (["Alert"; "Date"; "Time"; "Lat"; "Long"; "Vehicle"; "Speed"],
          [Str "2022-06-05"; Str "2022-06-02"])
  ∧ (λ d, (columns d, series d "Date"))
      <$> heap (alert_frequency (lib := Standin.library) (request Fleet.disk)).2 !! 0%nat
    = Some (["Alert"; "Date"; "Time"; "Lat"; "Long"; "Vehicle"; "Speed"; "DayOfWeek"],
            [Stamp 1654387200000000000; Stamp 1654128000000000000]).
Proof. split; vm_compute; reflexivity. Qed.

(** ** The columns of the correlation matrix *)




(** *** Hours and their category codes *)





Section Categories.

Variable s : list cell.





End Categories.








(** ** The correlation matrix *)

Section CorrShape.

Context `{lib : Library}.





End CorrShape.




(** * Further properties of the loader and the handlers *)

(** ** A file that is not there *)

Lemma bind_raises {A B : Type} (m : M A) (f : A → M B) (w w1 : world) (e : exn) :
  m w = (inl e, w1) → (m ≫= f) w = (inl e, w1).
Proof. intros Hm. unfold mbind, M_bind. by rewrite Hm. Qed.

Lemma load_data_first_missing `{lib : Library} (w : world) :
  files w !! "data/iraste_nxt_cas.csv" = None →
  load_data w = (inl (FileNotFoundError "data/iraste_nxt_cas.csv"), w).
Proof.
  intros H1. unfold load_data, mbind, M_bind, read_csv. by rewrite H1.
Qed.

Lemma load_data_second_missing `{lib : Library} (w : world) (df : DataFrame) :
  files w !! "data/iraste_nxt_cas.csv" = Some df →
  files w !! "data/iraste_nxt_casdms.csv" = None →
  load_data w = (inl (FileNotFoundError "data/iraste_nxt_casdms.csv"), w).
Proof.
  intros H1 H2. unfold load_data, mbind, M_bind, read_csv. by rewrite H1, H2.
Qed.

(** X1.  Every route handler begins with [load_data]: when one of the two
    files is not there, each of the nine handlers raises
    FileNotFoundError for that file (for the first one when both are
    missing) and leaves no frame behind. *)
Theorem handlers_need_both_files `{lib : Library} (fs : gmap string DataFrame) :
  (fs !! "data/iraste_nxt_cas.csv" = None →
   Forall (λ handler : M response,
             handler (request fs)
             = (inl (FileNotFoundError "data/iraste_nxt_cas.csv"), request fs))
     [spatial_analysis; alert_frequency; speed_analysis; correlation_analysis;
      driver_behavior; safety_impact; safety_analysis; home; get_coordinates])
  ∧ (∀ df,
       fs !! "data/iraste_nxt_cas.csv" = Some df →
       fs !! "data/iraste_nxt_casdms.csv" = None →
       Forall (λ handler : M response,
                 handler (request fs)
                 = (inl (FileNotFoundError "data/iraste_nxt_casdms.csv"), request fs))
         [spatial_analysis; alert_frequency; speed_analysis; correlation_analysis;
          driver_behavior; safety_impact; safety_analysis; home; get_coordinates]).
Proof.
  split.
  - intros H1. repeat apply Forall_cons_2; try apply Forall_nil_2;
      apply bind_raises, load_data_first_missing, H1.
  - intros df H1 H2. repeat apply Forall_cons_2; try apply Forall_nil_2;
      apply bind_raises, (load_data_second_missing _ df); assumption.
Qed.

(** X1 with no file at all, and with the first file only. *)
Lemma handlers_need_both_files_witness :
  home (lib := Standin.library) (request ∅)
    = (inl (FileNotFoundError "data/iraste_nxt_cas.csv"), request ∅)
  ∧ get_coordinates (lib := Standin.library)
      (request {[ "data/iraste_nxt_cas.csv" := Fleet.positions ]})
    = (inl (FileNotFoundError "data/iraste_nxt_casdms.csv"),
       request {[ "data/iraste_nxt_cas.csv" := Fleet.positions ]}).
Proof.
  split.
  - destruct (handlers_need_both_files (lib := Standin.library) ∅) as [Hfirst _].
    specialize (Hfirst (lookup_empty _)).
    rewrite Forall_forall in Hfirst. apply Hfirst. set_solver.
  - destruct (handlers_need_both_files (lib := Standin.library)
                {[ "data/iraste_nxt_cas.csv" := Fleet.positions ]}) as [_ Hsecond].
    specialize (Hsecond Fleet.positions (lookup_singleton_eq _ _)).
    rewrite lookup_singleton_ne in Hsecond by discriminate.
    specialize (Hsecond eq_refl).
    rewrite Forall_forall in Hsecond. apply Hsecond. set_solver.
Defined.

(** ** How many rows the loader keeps *)

Lemma sample_size_le (n : nat) : (sample_size n ≤ n)%nat.
Proof.
  unfold sample_size.
  pose proof (Nat.div_mod_eq n 100) as Hn.
  pose proof (Nat.mod_upper_bound n 100 ltac:(lia)) as Hr.
  repeat case_match;
    repeat match goal with
      | H : (_ <? _)%nat = true |- _ => apply Nat.ltb_lt in H
      | H : (_ <? _)%nat = false |- _ => apply Nat.ltb_ge in H
      end; lia.
Qed.

Lemma sample_size_nearest (n : nat) :
  (100 * sample_size n ≤ n + 50 ∧ n ≤ 100 * sample_size n + 50)%nat.
Proof.
  unfold sample_size.
  pose proof (Nat.div_mod_eq n 100) as Hn.
  pose proof (Nat.mod_upper_bound n 100 ltac:(lia)) as Hr.
  repeat case_match;
    repeat match goal with
      | H : (_ <? _)%nat = true |- _ => apply Nat.ltb_lt in H
      | H : (_ <? _)%nat = false |- _ => apply Nat.ltb_ge in H
      end; lia.
Qed.

Lemma sample_size_small (n : nat) : (n ≤ 50)%nat → sample_size n = 0%nat.
Proof.
  intros Hn. unfold sample_size.
  rewrite (Nat.div_small n 100), (Nat.mod_small n 100) by lia.
  destruct (n <? 50)%nat eqn:H1; [done|].
  apply Nat.ltb_ge in H1.
  destruct (50 <? n)%nat eqn:H2; [apply Nat.ltb_lt in H2; lia|done].
Qed.

Lemma take_rows_length (ps : list nat) (rs : list row) :
  Forall (λ i, (i < length rs)%nat) ps → length (take_rows ps rs) = length ps.
Proof.
  unfold take_rows. induction 1 as [|i ps Hi _ IH]; [done|].
  destruct (lookup_lt_is_Some_2 rs i Hi) as [r Hr].
  csimpl. rewrite Hr. csimpl. by rewrite IH.
Qed.

Lemma sample_length `{lib : Library} (df : DataFrame) :
  permutation (length (rows df)) ≡ₚ seq 0 (length (rows df)) →
  length (rows (sample df)) = sample_size (length (rows df)).
Proof.
  intros Hperm. unfold sample. cbn [rows].
  rewrite take_rows_length.
  - rewrite length_take, (Permutation_length Hperm), length_seq.
    pose proof (sample_size_le (length (rows df))). lia.
  - apply Forall_take. rewrite Forall_forall. intros i Hi.
    rewrite Hperm in Hi. apply elem_of_seq in Hi. lia.
Qed.

(** X2.  With fifty or fewer distinct complete rows in the two files
    together, [round(0.01 * n)] is 0: the loader returns a frame without
    rows, whatever the generator draws. *)
Theorem load_data_small_input_empty `{lib : Library} (fs : gmap string DataFrame)
    (df df1 : DataFrame) :
  fs !! "data/iraste_nxt_cas.csv" = Some df →
  fs !! "data/iraste_nxt_casdms.csv" = Some df1 →
  (length (rows (cleaned df df1)) ≤ 50)%nat →
  ∃ loaded,
    load_data (request fs) = (inr 0%nat, {| files := fs; heap := [loaded] |})
    ∧ columns loaded = columns (concat df df1)
    ∧ rows loaded = [].
Proof.
  intros H1 H2 Hn. exists (load_frame df df1). split; [|split].
  - by rewrite (load_data_run (request fs) df df1).
  - done.
  - unfold load_frame, sample. cbn [rows].
    fold (cleaned df df1). by rewrite (sample_size_small _ Hn).
Qed.

Lemma depot_few_cas :
  Depot.few_disk !! "data/iraste_nxt_cas.csv" = Some (Depot.few 0).
Proof. apply lookup_insert_eq. Qed.

Lemma depot_few_casdms :
  Depot.few_disk !! "data/iraste_nxt_casdms.csv" = Some (Depot.few 20).
Proof.
  unfold Depot.few_disk. rewrite lookup_insert_ne by discriminate.
  apply lookup_singleton_eq.
Qed.

(** X2 on two files of thirty readings, ten of them in both: fifty
    distinct complete rows, and [round(0.5)] is 0. *)
Lemma load_data_small_input_empty_witness :
  length (rows (cleaned (Depot.few 0) (Depot.few 20))) = 50%nat
  ∧ ∃ loaded,
      load_data (lib := Standin.library) (request Depot.few_disk)
        = (inr 0%nat, {| files := Depot.few_disk; heap := [loaded] |})
      ∧ columns loaded = columns (concat (Depot.few 0) (Depot.few 20))
      ∧ rows loaded = [].
Proof.
  assert (length (rows (cleaned (Depot.few 0) (Depot.few 20))) = 50%nat) as Hn
    by (vm_compute; reflexivity).
  split; [exact Hn|].
  apply (load_data_small_input_empty (lib := Standin.library) Depot.few_disk
           (Depot.few 0) (Depot.few 20) depot_few_cas depot_few_casdms).
  rewrite Hn. lia.
Defined.

(** X3.  When the generator draws a permutation of the positions, the
    loader keeps [round(n / 100)] (halves to even) of the [n] distinct
    complete rows: a number within 50 of [n] when multiplied by 100. *)
Theorem load_data_sample_count `{lib : Library} (df df1 : DataFrame) :
  let n := length (rows (cleaned df df1)) in
  permutation n ≡ₚ seq 0 n →
  length (rows (load_frame df df1)) = sample_size n
  ∧ (100 * sample_size n ≤ n + 50)%nat
  ∧ (n ≤ 100 * sample_size n + 50)%nat.
Proof.
  intros n Hperm. split; [|apply sample_size_nearest].
  apply (sample_length (cleaned df df1) Hperm).
Qed.

(** X3 on the fleet: 180 rows after the cleaning, two in the sample. *)
Lemma load_data_sample_count_witness :
  length (rows (load_frame (lib := Standin.library) Fleet.cas Fleet.casdms)) = 2%nat.
Proof.
  assert (length (rows (cleaned Fleet.cas Fleet.casdms)) = 180%nat) as Hn
    by (vm_compute; reflexivity).
  destruct (load_data_sample_count (lib := Standin.library) Fleet.cas Fleet.casdms)
    as (Hlen & _ & _).
  - rewrite Hn. exact (reverse_Permutation (seq 0 180)).
  - rewrite Hlen, Hn. reflexivity.
Defined.

(** ** Files with the same columns *)

Lemma reindex_fits (cols cols' : list string) (r : row) :
  cols' ≡ₚ cols → row_fits cols' r → reindex cols r = r.
Proof.
  intros Hperm Hfit. apply map_eq. intros c.
  destruct (decide (c ∈ cols)) as [Hc|Hc].
  - rewrite reindex_lookup by done.
    assert (is_Some (r !! c)) as [v Hv]
      by (apply (row_fits_lookup cols'); [done|by rewrite Hperm]).
    unfold cell_of. by rewrite Hv.
  - assert (r !! c = None) as ->.
    { apply eq_None_not_Some. intros Hsome.
      apply (row_fits_lookup cols') in Hsome; [|done]. by rewrite Hperm in Hsome. }
    unfold reindex. apply not_elem_of_list_to_map_1.
    rewrite <- list_fmap_compose. intros Hin.
    apply list_elem_of_fmap in Hin as (c' & -> & Hc'). done.
Qed.

Lemma fmap_fixed {A : Type} (f : A → A) (l : list A) :
  Forall (λ x, f x = x) l → f <$> l = l.
Proof. induction 1 as [|x l Hx _ IH]; csimpl; [done|by rewrite Hx, IH]. Qed.

(** A cell of a row of the union: converted when the column, over the
    rows of both frames, is float64. *)
Lemma cell_of_unify_eq (a b : DataFrame) (r : row) (c : string) :
  c ∈ union_columns a b →
  cell_of (unify a b r) c
  = if floating ((λ r, cell_of r c) <$> (rows a ++ rows b))
    then upcast_cell (cell_of r c) else cell_of r c.
Proof.
  intros Hc. unfold unify. rewrite cell_of_upcast, cell_of_reindex by done.
  assert ((λ r, cell_of r c) <$> (reindex (union_columns a b) <$> (rows a ++ rows b))
          = (λ r, cell_of r c) <$> (rows a ++ rows b)) as Hcol.
  { rewrite <- list_fmap_compose. apply list_fmap_ext. intros i x _. cbn.
    by apply cell_of_reindex. }
  destruct (floating ((λ r, cell_of r c) <$> (rows a ++ rows b))) eqn:Hf.
  - rewrite decide_True; [done|]. apply list_elem_of_filter. by rewrite Hcol.
  - rewrite decide_False; [done|]. intros [Hf' _]%list_elem_of_filter.
    rewrite Hcol in Hf'. congruence.
Qed.

Lemma isna_canonical_cell (x : cell) : isna (canonical_cell x) = isna x.
Proof.
  destruct x as [| | | |x|]; try done. cbn [canonical_cell isna].
  destruct (PrimFloat.is_nan x) eqn:Hx; [done|].
  destruct (x =? 0)%float; [done|exact Hx].
Qed.

Lemma cell_of_canonical (r : row) (c : string) :
  cell_of (canonical r) c = canonical_cell (cell_of r c).
Proof.
  unfold cell_of, canonical. rewrite lookup_fmap. by destruct (r !! c).
Qed.

(** Rows that [duplicated] takes for equal are complete together. *)
Lemma complete_canonical (cols : list string) (r r' : row) :
  canonical r = canonical r' → complete cols r = complete cols r'.
Proof.
  intros Heq. unfold complete. induction cols as [|c cols IH]; [done|].
  cbn [forallb]. rewrite IH. f_equal. unfold notna. f_equal.
  by rewrite <- (isna_canonical_cell (cell_of r c)),
             <- (isna_canonical_cell (cell_of r' c)), <- !cell_of_canonical, Heq.
Qed.

Lemma same_schema_columns (a b : DataFrame) :
  columns b ≡ₚ columns a → union_columns a b = columns a.
Proof.
  intros Hperm. unfold union_columns. rewrite filter_none, app_nil_r; [done|].
  rewrite Forall_forall. intros c Hc Hnot. apply Hnot. by rewrite <- Hperm.
Qed.

Lemma cleaned_rows (df df1 : DataFrame) (r : row) :
  r ∈ rows (cleaned df df1) →
  (∃ r0, (r0 ∈ rows df ∨ r0 ∈ rows df1) ∧ r = unify df df1 r0)
  ∧ complete (union_columns df df1) r = true.
Proof.
  unfold cleaned, dropna, drop_duplicates. cbn [rows columns].
  rewrite concat_rows, concat_columns.
  intros [Hc [Hr _]%first_by_elem]%list_elem_of_filter. split; [|exact Hc].
  apply list_elem_of_fmap in Hr as (r0 & -> & Hr0%elem_of_app). by exists r0.
Qed.

(** Every complete row of the union is in the cleaned frame, itself or
    by an earlier row that [duplicated] takes for equal. *)
Lemma cleaned_covers (df df1 : DataFrame) (r0 : row) :
  r0 ∈ rows df ∨ r0 ∈ rows df1 →
  complete (union_columns df df1) (unify df df1 r0) = true →
  ∃ r, r ∈ rows (cleaned df df1) ∧ canonical r = canonical (unify df df1 r0).
Proof.
  intros Hr0 Hc.
  destruct (first_by_covers canonical [] (rows (concat df df1)) (unify df df1 r0))
    as (r & Hr & Hkey).
  { rewrite concat_rows. apply list_elem_of_fmap. exists r0.
    split; [done|by apply elem_of_app]. }
  { apply not_elem_of_nil. }
  exists r. split; [|exact Hkey].
  unfold cleaned, dropna, drop_duplicates. cbn [rows columns].
  apply list_elem_of_filter. split; [|exact Hr].
  rewrite concat_columns. by rewrite (complete_canonical _ _ _ Hkey).
Qed.

(** X4.  Two well-formed files that list the same columns (in any order)
    are put together over the columns of the first file.  Every row of
    the frame before the sample, and so every loaded row, is a complete
    row of one of the files, with a cell converted from integer to float
    exactly where its column, over both files, holds numbers only and a
    float or NaN among them; and every complete row of either file is
    there, itself or by an earlier row that [drop_duplicates] takes for
    equal. *)
Theorem load_data_rows_from_files `{lib : Library} (df df1 : DataFrame) :
  rectangular df → rectangular df1 → columns df1 ≡ₚ columns df →
  columns (load_frame df df1) = columns df
  ∧ (∀ r, r ∈ rows (load_frame df df1) → r ∈ rows (cleaned df df1))
  ∧ (∀ r, r ∈ rows (cleaned df df1) →
          complete (columns df) r = true
          ∧ ∃ r0, (r0 ∈ rows df ∨ r0 ∈ rows df1) ∧ r = unify df df1 r0)
  ∧ (∀ r0, r0 ∈ rows df ∨ r0 ∈ rows df1 →
           complete (columns df) (unify df df1 r0) = true →
           ∃ r, r ∈ rows (cleaned df df1)
                ∧ canonical r = canonical (unify df df1 r0))
  ∧ (∀ r0 c, c ∈ columns df →
             cell_of (unify df df1 r0) c
             = if floating ((λ r, cell_of r c) <$> (rows df ++ rows df1))
               then upcast_cell (cell_of r0 c) else cell_of r0 c).
Proof.
  intros Ha Hb Hperm.
  pose proof (same_schema_columns df df1 Hperm) as Hcols.
  split; [exact Hcols|].
  split; [intros r; apply (sample_rows_elem (cleaned df df1))|].
  split.
  { intros r Hr. apply cleaned_rows in Hr as [Hfrom Hc].
    rewrite Hcols in Hc. by split. }
  split.
  { intros r0 Hr0 Hc. apply cleaned_covers; [done|]. by rewrite Hcols. }
  intros r0 c Hc. apply cell_of_unify_eq. by rewrite Hcols.
Qed.

(** X4 on the fleet's two files, whose columns hold integers only or no
    integer at all: the two sampled readings are readings of the files
    as they stand there. *)
Lemma load_data_rows_from_files_witness :
  columns (load_frame (lib := Standin.library) Fleet.cas Fleet.casdms) = Fleet.schema
  ∧ ∀ r, r ∈ rows (load_frame (lib := Standin.library) Fleet.cas Fleet.casdms) →
         (r ∈ rows Fleet.cas ∨ r ∈ rows Fleet.casdms)
         ∧ complete Fleet.schema r = true.
Proof.
  assert (rectangular Fleet.cas) as Ha
    by (apply (bool_decide_unpack _); vm_compute; exact I).
  assert (rectangular Fleet.casdms) as Hb
    by (apply (bool_decide_unpack _); vm_compute; exact I).
  destruct (load_data_rows_from_files (lib := Standin.library) Fleet.cas Fleet.casdms
              Ha Hb (reflexivity _)) as (Hcols & Hsample & Hclean & _ & _).
  assert (Forall (λ r0, unify Fleet.cas Fleet.casdms r0 = r0)
            (rows Fleet.cas ++ rows Fleet.casdms)) as Hsame
    by (apply (bool_decide_unpack _); vm_compute; exact I).
  split; [exact Hcols|].
  intros r Hr. destruct (Hclean r (Hsample r Hr)) as (Hc & r0 & Hr0 & ->).
  rewrite Forall_forall in Hsame.
  rewrite (Hsame r0) in * by (by apply elem_of_app).
  split; [exact Hr0|exact Hc].
Defined.

(** ** The two cleaning steps *)

Section Cleaning.

Context {A K : Type} `{EqDecision K} (key : A → K).

Lemma first_by_seen (seen seen' : list K) (l : list A) :
  (∀ x, x ∈ l → key x ∈ seen ↔ key x ∈ seen') →
  first_by key seen l = first_by key seen' l.
Proof.
  revert seen seen'. induction l as [|x l IH]; intros seen seen' Hs; [done|].
  cbn [first_by].
  destruct (decide (key x ∈ seen)) as [Hx|Hx], (decide (key x ∈ seen')) as [Hx'|Hx'].
  - apply IH. intros y Hy. apply Hs. by right.
  - destruct Hx'. apply Hs; [left|done].
  - destruct Hx. apply Hs; [left|done].
  - f_equal. apply IH. intros y Hy. rewrite !elem_of_cons.
    specialize (Hs y (list_elem_of_further _ _ _ Hy)). tauto.
Qed.

(** A filter that cannot tell values of one key apart can be applied
    before or after. *)
Lemma first_by_filter (P : A → Prop) `{∀ x, Decision (P x)}
    (seen : list K) (l : list A) :
  (∀ x y, key x = key y → P x → P y) →
  filter P (first_by key seen l) = first_by key seen (filter P l).
Proof.
  intros Hkey. revert seen. induction l as [|x l IH]; intros seen; [done|].
  cbn [first_by]. rewrite filter_cons.
  destruct (decide (P x)) as [HP|HP].
  - cbn [first_by]. destruct (decide (key x ∈ seen)); [apply IH|].
    rewrite filter_cons_True by done. f_equal. apply IH.
  - destruct (decide (key x ∈ seen)); [apply IH|].
    rewrite filter_cons_False by done. rewrite IH.
    apply first_by_seen. intros y Hy. rewrite elem_of_cons.
    apply list_elem_of_filter in Hy as [HPy _].
    split; [intros [Heq|?]; [|done]|by right].
    destruct HP. by apply (Hkey y x).
Qed.

Lemma first_by_fixed (seen : list K) (l : list A) :
  NoDup (key <$> l) → (∀ x, x ∈ l → key x ∉ seen) → first_by key seen l = l.
Proof.
  revert seen. induction l as [|x l IH]; intros seen Hnd Hs; [done|].
  cbn [first_by]. rewrite decide_False by (apply Hs; left).
  csimpl in Hnd. apply NoDup_cons in Hnd as [Hx Hnd].
  f_equal. apply IH; [done|]. intros y Hy. rewrite elem_of_cons.
  intros [Heq|Hin]; [|by apply (Hs y); [right|]].
  apply Hx. rewrite <- Heq. by apply list_elem_of_fmap_2.
Qed.

End Cleaning.

(** X5.  Lines 19 and 20 of the loader can be swapped: dropping
    duplicates and then incomplete rows gives the frame that dropping
    incomplete rows and then duplicates gives; and either step, done a
    second time, changes nothing. *)
Theorem cleaning_steps_commute (df : DataFrame) :
  dropna (drop_duplicates df) = drop_duplicates (dropna df)
  ∧ drop_duplicates (drop_duplicates df) = drop_duplicates df
  ∧ dropna (dropna df) = dropna df.
Proof.
  unfold dropna, drop_duplicates. cbn [rows columns]. split; [|split]; f_equal.
  - apply first_by_filter. intros r r' Heq.
    by rewrite (complete_canonical _ _ _ Heq).
  - apply first_by_fixed; [apply first_by_keys_NoDup|].
    intros x _. apply not_elem_of_nil.
  - apply filter_all. rewrite Forall_forall. intros r Hr.
    by apply list_elem_of_filter in Hr as [? _].
Qed.

(** ** The order of the speed bands *)

Section BandOrder.

Local Open Scope float_scope.

Lemma SFleb_ltb_trans (x y z : spec_float) :
  SFleb x y = true → SFltb y z = true → SFltb x z = true.
Proof.
  unfold SFleb, SFltb.
  destruct x as [sx|sx| |sx mx ex], y as [sy|sy| |sy my ey], z as [sz|sz| |sz mz ez];
    cbn [SFcompare]; try destruct sx; try destruct sy; try destruct sz;
    try done.
  all: change (PosDef.Pos.compare_cont Eq) with Pos.compare.
  all: destruct (Z.compare_spec ex ey); try done.
  all: destruct (Z.compare_spec ey ez); try done.
  all: destruct (Z.compare_spec ex ez); try done; try lia.
  all: destruct (Pos.compare_spec mx my); cbn [CompOpp]; try done.
  all: destruct (Pos.compare_spec my mz); cbn [CompOpp]; try done.
  all: destruct (Pos.compare_spec mx mz); cbn [CompOpp]; try done; try lia.
Qed.

Lemma leb_ltb_trans (x y z : float) :
  (x <=? y) = true → (y <? z) = true → (x <? z) = true.
Proof. rewrite leb_spec, !ltb_spec. apply SFleb_ltb_trans. Qed.

(** A speed that compares with some other speed is not NaN, and then is
    either below a limit or at least the limit. *)
Lemma not_ltb_leb (x y z : float) :
  (x <=? y) = true → (x <? z) = false → (z <? z) = false → (z <=? z) = true →
  (z <=? x) = true.
Proof.
  rewrite !leb_spec, !ltb_spec. unfold SFleb, SFltb.
  rewrite (SFcompare_antisym (Prim2SF x) (Prim2SF z)).
  destruct (Prim2SF x) as [sx|sx| |sx mx ex], (Prim2SF y) as [sy|sy| |sy my ey],
    (Prim2SF z) as [sz|sz| |sz mz ez];
    cbn [SFcompare fmap option_fmap option_map]; try done.
  all: try destruct sx; try destruct sz; cbn [CompOpp]; try done.
  all: change (PosDef.Pos.compare_cont Eq) with Pos.compare.
  all: destruct (ex ?= ez)%Z; cbn [CompOpp]; try done.
  all: destruct (mx ?= mz)%positive; cbn [CompOpp]; done.
Qed.

End BandOrder.

(** X6.  The bands are in the order of the speeds: a speed no greater
    than one labelled "Low" is "Low", and a speed no smaller than one
    labelled "High" is "High". *)
Theorem categorize_speed_monotone (s1 s2 : float) :
  (s1 <=? s2)%float = true →
  (categorize_speed s2 = "Low" → categorize_speed s1 = "Low")
  ∧ (categorize_speed s1 = "High" → categorize_speed s2 = "High").
Proof.
  intros Hle. unfold categorize_speed. split.
  - destruct (s2 <? 60)%float eqn:H2.
    + intros _. by rewrite (leb_ltb_trans s1 s2 60 Hle H2).
    + by destruct ((60 <=? s2)%float && (s2 <? 80)%float)%bool.
  - destruct (s1 <? 60)%float eqn:H1; [done|].
    assert ((60 <=? s1)%float = true) as H60.
    { apply (not_ltb_leb s1 s2 60 Hle H1); vm_compute; reflexivity. }
    rewrite H60. cbn [andb].
    destruct (s1 <? 80)%float eqn:H1'; [done|]. intros _.
    destruct (s2 <? 60)%float eqn:H2.
    { by rewrite (leb_ltb_trans s1 s2 60 Hle H2) in H1. }
    destruct (s2 <? 80)%float eqn:H2'.
    { by rewrite (leb_ltb_trans s1 s2 80 Hle H2') in H1'. }
    by rewrite andb_false_r.
Qed.

(** X6 at two speeds on either side of the limit of 60. *)
Lemma categorize_speed_monotone_witness :
  (categorize_speed 59.5 = "Low" → categorize_speed 12.25 = "Low")
  ∧ (categorize_speed 12.25 = "High" → categorize_speed 59.5 = "High").
Proof.
  apply (categorize_speed_monotone 12.25 59.5). vm_compute. reflexivity.
Defined.

(** ** Counting *)

Section Counting.

Context {A : Type} `{EqDecision A}.

Lemma tally_one (x : A) (ks : list A) :
  NoDup ks →
  sum_list_with (λ k, if decide (x = k) then 1%nat else 0%nat) ks
  = if decide (x ∈ ks) then 1%nat else 0%nat.
Proof.
  induction 1 as [|k ks Hk Hnd IH]; [done|].
  cbn [sum_list_with]. rewrite IH.
  destruct (decide (x = k)) as [->|Hne].
  - rewrite decide_False by done. rewrite decide_True by left. done.
  - destruct (decide (x ∈ ks)).
    + rewrite decide_True by (by right). done.
    + rewrite decide_False; [done|]. rewrite elem_of_cons. tauto.
Qed.

(** The groups of distinct keys share out the elements that have one of
    the keys. *)
Lemma tally_total (ks l : list A) :
  NoDup ks →
  sum_list_with (λ k, length (filter (λ x, x = k) l)) ks
  = length (filter (λ x, x ∈ ks) l).
Proof.
  intros Hnd. induction l as [|x l IH].
  - cbn. induction ks as [|k ks IHk]; [done|].
    cbn [sum_list_with]. apply NoDup_cons in Hnd as [_ Hnd]. by rewrite IHk.
  - transitivity (sum_list_with (λ k, if decide (x = k) then 1%nat else 0%nat) ks
                  + sum_list_with (λ k, length (filter (λ x, x = k) l)) ks)%nat.
    + clear IH Hnd. induction ks as [|k ks IHk]; [done|].
      cbn [sum_list_with]. rewrite IHk. rewrite filter_cons.
      destruct (decide (x = k)); cbn [length]; lia.
    + rewrite IH, tally_one by done. rewrite filter_cons.
      destruct (decide (x ∈ ks)); cbn [length]; lia.
Qed.

End Counting.

Lemma filter_fmap_length {A B : Type} (f : A → B) (P : B → Prop) (Q : A → Prop)
    `{∀ y, Decision (P y)} `{∀ x, Decision (Q x)} (l : list A) :
  (∀ x, Q x ↔ P (f x)) →
  length (filter Q l) = length (filter P (f <$> l)).
Proof.
  intros HQ. induction l as [|x l IH]; [done|].
  csimpl. rewrite !filter_cons.
  destruct (decide (Q x)) as [Hx|Hx], (decide (P (f x))) as [Hy|Hy];
    cbn [length]; try lia.
  - destruct Hy. by apply HQ.
  - destruct Hx. by apply HQ.
Qed.

Lemma filter_iff_in {A : Type} (P Q : A → Prop) `{∀ x, Decision (P x)}
    `{∀ x, Decision (Q x)} (l : list A) :
  (∀ x, x ∈ l → P x ↔ Q x) → filter P l = filter Q l.
Proof.
  induction l as [|x l IH]; intros Hl; [done|].
  rewrite !filter_cons.
  destruct (decide (P x)) as [HP|HP], (decide (Q x)) as [HQ|HQ].
  - f_equal. apply IH. intros y Hy. apply Hl. by right.
  - destruct HQ. apply Hl; [left|done].
  - destruct HP. apply Hl; [left|done].
  - apply IH. intros y Hy. apply Hl. by right.
Qed.

(** ** [value_counts] *)

Lemma occurrences_values (s : list cell) :
  (occurrences s).*1 = first_occurrences [] (filter (λ c, notna c = true) s).
Proof.
  unfold occurrences. rewrite <- list_fmap_compose. apply list_fmap_id.
Qed.

Lemma occurrences_total (s : list cell) :
  sum_list_with snd (occurrences s) = length (filter (λ c, notna c = true) s).
Proof.
  unfold occurrences.
  set (ks := first_occurrences [] (filter (λ c, notna c = true) s)).
  transitivity (sum_list_with (λ k, length (filter (λ c, c = k) s)) ks).
  { induction ks as [|k ks IH]; [done|]. csimpl. by rewrite IH. }
  rewrite tally_total by apply first_occurrences_NoDup.
  f_equal. apply filter_iff_in. intros c Hc. unfold ks.
  rewrite first_occurrences_elem, list_elem_of_filter.
  split; [tauto|intros Hn; split; [done|apply not_elem_of_nil]].
Qed.

Lemma more_frequent_total (a b : cell * nat) :
  more_frequent a b = false → more_frequent b a = true.
Proof.
  unfold more_frequent. rewrite Nat.leb_gt, Nat.leb_le. lia.
Qed.

Lemma more_frequent_trans (a b c : cell * nat) :
  more_frequent a b = true → more_frequent b c = true → more_frequent a c = true.
Proof. unfold more_frequent. rewrite !Nat.leb_le. lia. Qed.

Section ValueCounts.

Variables (name count_name : string) (s : list cell).
Hypothesis names_differ : name ≠ count_name.

Lemma value_counts_names :
  series (value_counts name count_name s) name
  = (sort_by more_frequent (occurrences s)).*1.
Proof.
  unfold series, value_counts. cbn [rows]. rewrite <- list_fmap_compose.
  apply list_fmap_ext. intros i [v n] _. cbn.
  rewrite cell_of_insert. done.
Qed.

Lemma value_counts_counts :
  series (value_counts name count_name s) count_name
  = (λ vn : cell * nat, Int (Z.of_nat vn.2)) <$> sort_by more_frequent (occurrences s).
Proof.
  unfold series, value_counts. cbn [rows]. rewrite <- list_fmap_compose.
  apply list_fmap_ext. intros i [v n] _. cbn.
  rewrite cell_of_insert_ne by done. unfold cell_of.
  by rewrite lookup_singleton_eq.
Qed.

(** One row for each distinct value that is not missing. *)
Lemma value_counts_labels :
  NoDup (series (value_counts name count_name s) name)
  ∧ ∀ v, v ∈ series (value_counts name count_name s) name
         ↔ v ∈ s ∧ notna v = true.
Proof.
  rewrite value_counts_names.
  assert ((sort_by more_frequent (occurrences s)).*1
          ≡ₚ first_occurrences [] (filter (λ c, notna c = true) s)) as Hperm.
  { rewrite <- occurrences_values. apply fmap_Permutation, sort_by_Permutation. }
  split.
  - rewrite Hperm. apply first_occurrences_NoDup.
  - intros v. rewrite Hperm, first_occurrences_elem, list_elem_of_filter.
    split; [tauto|intros Hv; split; [tauto|apply not_elem_of_nil]].
Qed.

(** Beside each value, the number of its occurrences. *)
Lemma value_counts_rows :
  Forall (λ r, cell_of r count_name
               = Int (Z.of_nat (length (filter (λ c, c = cell_of r name) s))))
    (rows (value_counts name count_name s)).
Proof.
  unfold value_counts. cbn [rows]. rewrite Forall_fmap, Forall_forall.
  intros [v n] Hvn. apply sort_by_elem in Hvn. unfold occurrences in Hvn.
  apply list_elem_of_fmap in Hvn as (v' & [= -> ->] & _). cbn.
  rewrite cell_of_insert, cell_of_insert_ne by done.
  unfold cell_of. by rewrite lookup_singleton_eq.
Qed.

(** The counts add up to the number of values that are not missing. *)
Lemma value_counts_total :
  column_total (value_counts name count_name s) count_name
  = Z.of_nat (length (filter (λ c, notna c = true) s)).
Proof.
  unfold column_total. rewrite value_counts_counts, <- occurrences_total.
  rewrite <- (sum_list_with_Permutation_proper snd _ _
                (sort_by_Permutation more_frequent (occurrences s))).
  rewrite <- list_fmap_compose.
  induction (sort_by more_frequent (occurrences s)) as [|[v n] l IH]; [done|].
  csimpl. rewrite IH. lia.
Qed.

(** Most frequent first. *)
Lemma value_counts_descending :
  StronglySorted (λ x y, (int_of y ≤ int_of x)%Z)
    (series (value_counts name count_name s) count_name).
Proof.
  rewrite value_counts_counts.
  pose proof (sort_by_sorted more_frequent (occurrences s)
                more_frequent_total more_frequent_trans) as Hsorted.
  induction Hsorted as [|a l Hl IH Ha]; csimpl; constructor; [done|].
  rewrite Forall_fmap. eapply Forall_impl; [exact Ha|].
  intros b Hb. cbn. unfold more_frequent in Hb. apply Nat.leb_le in Hb. lia.
Qed.

End ValueCounts.

Lemma load_frame_no_missing `{lib : Library} (df df1 : DataFrame) :
  no_missing (load_frame df df1).
Proof.
  intros r c Hr Hc. apply (cleaned_no_missing df df1 r c); [|done].
  by apply (sample_rows_elem (cleaned df df1)).
Qed.

Lemma series_no_missing (d : DataFrame) (c : string) :
  no_missing d → c ∈ columns d →
  filter (λ x, notna x = true) (series d c) = series d c.
Proof.
  intros Hd Hc. apply filter_all. unfold series. rewrite Forall_fmap, Forall_forall.
  intros r Hr. cbn. unfold notna. by rewrite (Hd r c Hr Hc).
Qed.

(** X7.  The pie chart of [driver_behavior] gets one row for each
    distinct alert of the frame [load_data] made of the two files, with
    the number of loaded rows that carry it, most frequent first; the
    frequencies add up to the number of loaded rows. *)
Theorem driver_behavior_counts `{lib : Library} (fs : gmap string DataFrame)
    (resp : response) (w' : world) :
  driver_behavior (request fs) = (inr resp, w') →
  ∃ d0 d1 loaded counts,
    fs !! "data/iraste_nxt_cas.csv" = Some d0
    ∧ fs !! "data/iraste_nxt_casdms.csv" = Some d1
    ∧ loaded = load_frame d0 d1
    ∧ heap w' = [loaded]
    ∧ resp = Json (Px "pie" counts [("values", "Frequency"); ("names", "Alert")] []
                     "Distribution of Driver Alerts" [])
    ∧ NoDup (series counts "Alert")
    ∧ (∀ a, a ∈ series counts "Alert" ↔ a ∈ series loaded "Alert")
    ∧ Forall (λ r, cell_of r "Frequency"
                   = Int (Z.of_nat (length
                       (filter (λ a, a = cell_of r "Alert") (series loaded "Alert")))))
        (rows counts)
    ∧ column_total counts "Frequency" = Z.of_nat (length (rows loaded))
    ∧ StronglySorted (λ x y, (int_of y ≤ int_of x)%Z) (series counts "Frequency").
Proof.
  intros Hrun. unfold driver_behavior in Hrun. run_back Hrun.
  match goal with
  | Hcol : "Alert" ∈ columns (load_frame ?a ?b) |- _ =>
      pose proof (series_no_missing (load_frame a b) "Alert"
                    (load_frame_no_missing a b) Hcol) as Hall;
      exists a, b, (load_frame a b),
        (value_counts "Alert" "Frequency" (series (load_frame a b) "Alert"))
  end.
  assert ("Alert" ≠ "Frequency") as Hne by done.
  split; [assumption|]. split; [assumption|]. split; [reflexivity|].
  split; [done|]. split; [done|].
  split; [apply (value_counts_labels "Alert" "Frequency" _)|].
  split.
  { intros a. rewrite (proj2 (value_counts_labels "Alert" "Frequency" _)).
    split; [tauto|]. intros Ha. split; [done|].
    rewrite <- Hall in Ha. by apply list_elem_of_filter in Ha as [? _]. }
  split; [apply (value_counts_rows _ _ _ Hne)|].
  split; [|apply (value_counts_descending _ _ _ Hne)].
  by rewrite (value_counts_total _ _ _ Hne), Hall, series_length.
Qed.

(** X7 on the fleet: the handler returns, and the frequencies of its pie
    chart add up to the number of sampled rows. *)
Lemma driver_behavior_counts_witness :
  ∃ resp w' loaded counts,
    driver_behavior (lib := Standin.library) (request Fleet.disk) = (inr resp, w')
    ∧ loaded = load_frame (lib := Standin.library) Fleet.cas Fleet.casdms
    ∧ heap w' = [loaded]
    ∧ resp = Json (Px "pie" counts [("values", "Frequency"); ("names", "Alert")] []
                     "Distribution of Driver Alerts" [])
    ∧ series counts "Alert" = [Str "speeding"; Str "cas_fcw"]
    ∧ series counts "Frequency" = [Int 1; Int 1]
    ∧ column_total counts "Frequency" = 2.
Proof.
  destruct (returns_run (driver_behavior (lib := Standin.library)) (request Fleet.disk))
    as (resp & w' & Hrun); [vm_compute; reflexivity|].
  destruct (driver_behavior_counts (lib := Standin.library) Fleet.disk resp w' Hrun)
    as (d0 & d1 & loaded & counts & Hd0 & Hd1 & Hloaded & Hheap & Hresp & _ & _ & _
        & Htotal & _).
  rewrite fleet_disk_cas in Hd0. rewrite fleet_disk_casdms in Hd1.
  injection Hd0 as <-. injection Hd1 as <-.
  assert (match (driver_behavior (lib := Standin.library) (request Fleet.disk)).1 with
          | inr (Json (Px _ c _ _ _ _)) =>
              series c "Alert" = [Str "speeding"; Str "cas_fcw"]
              ∧ series c "Frequency" = [Int 1; Int 1]
          | _ => False
          end) as Hdata by (vm_compute; split; reflexivity).
  rewrite Hrun in Hdata. cbn [fst] in Hdata. rewrite Hresp in Hdata.
  destruct Hdata as [Halerts Hfreq].
  assert (length (rows (load_frame (lib := Standin.library) Fleet.cas Fleet.casdms))
          = 2%nat) as Hlen by (vm_compute; reflexivity).
  exists resp, w', loaded, counts.
  split; [exact Hrun|]. split; [exact Hloaded|]. split; [exact Hheap|].
  split; [exact Hresp|]. split; [exact Halerts|]. split; [exact Hfreq|].
  rewrite Htotal, Hloaded, Hlen. reflexivity.
Defined.

(** ** [groupby] *)

Lemma sum_list_with_ext {A : Type} (f g : A → nat) (l : list A) :
  (∀ x, x ∈ l → f x = g x) → sum_list_with f l = sum_list_with g l.
Proof.
  induction l as [|x l IH]; intros Hfg; [done|].
  cbn [sum_list_with]. rewrite (Hfg x) by left. rewrite IH; [done|].
  intros y Hy. apply Hfg. by right.
Qed.

(** The groups share out the rows that have no missing key. *)
Lemma group_keys_total (keys : list string) (df : DataFrame) :
  sum_list_with
    (λ ks, length (filter (λ r, (λ k, cell_of r k) <$> keys = ks) (rows df)))
    (group_keys keys df)
  = length (filter (λ r, forallb notna ((λ k, cell_of r k) <$> keys) = true) (rows df)).
Proof.
  unfold group_keys.
  rewrite (sum_list_with_Permutation_proper _ _ _ (sort_by_Permutation keys_leb _)).
  set (key := λ r : row, (λ k, cell_of r k) <$> keys).
  rewrite (sum_list_with_ext _
             (λ ks, length (filter (λ x, x = ks) (key <$> rows df)))).
  2:{ intros ks _. by apply filter_fmap_length. }
  rewrite tally_total by apply first_occurrences_NoDup.
  rewrite (filter_fmap_length key (λ x, forallb notna x = true)
             (λ r, forallb notna (key r) = true)) by done.
  f_equal. apply filter_iff_in. intros ks Hks.
  rewrite first_occurrences_elem, list_elem_of_filter.
  split; [tauto|intros Hn; split; [done|apply not_elem_of_nil]].
Qed.

Lemma count_column_total {A : Type} (f : A → nat) (g : A → row) (c : string)
    (l : list A) :
  (∀ x, cell_of (g x) c = Int (Z.of_nat (f x))) →
  foldr Z.add 0 (int_of <$> ((λ r, cell_of r c) <$> (g <$> l)))
  = Z.of_nat (sum_list_with f l).
Proof.
  intros Hg. induction l as [|x l IH]; [done|].
  csimpl. rewrite IH, Hg. cbn. lia.
Qed.

(** The sizes [groupby(keys).size()] reports add up to the number of
    rows with no missing key. *)
Lemma groupby_size_total (keys : list string) (count_name : string) (df : DataFrame) :
  column_total (groupby_size keys count_name df) count_name
  = Z.of_nat (length (filter (λ r, forallb notna ((λ k, cell_of r k) <$> keys) = true)
                        (rows df))).
Proof.
  rewrite <- group_keys_total. unfold column_total, series, groupby_size. cbn [rows].
  apply count_column_total. intros ks. apply cell_of_insert.
Qed.

(** The counts [groupby(key)[counted].count()] reports add up to the
    number of rows where neither column is missing. *)
Lemma groupby_count_total (key counted : string) (df : DataFrame) :
  key ≠ counted →
  column_total (groupby_count key counted df) counted
  = Z.of_nat (length (filter (λ r, notna (cell_of r key) = true
                                   ∧ notna (cell_of r counted) = true) (rows df))).
Proof.
  intros Hne. unfold column_total, series, groupby_count. cbn [rows].
  rewrite (count_column_total
             (λ ks, length (filter (λ r, [cell_of r key] = ks
                                         ∧ notna (cell_of r counted) = true) (rows df)))).
  2:{ intros ks. rewrite cell_of_insert_ne by done.
      unfold cell_of. by rewrite lookup_singleton_eq. }
  f_equal. unfold group_keys.
  rewrite (sum_list_with_Permutation_proper _ _ _ (sort_by_Permutation keys_leb _)).
  set (key_of := λ r : row, (λ k, cell_of r k) <$> [key]).
  set (kept := filter (λ r, notna (cell_of r counted) = true) (rows df)).
  rewrite (sum_list_with_ext _
             (λ ks, length (filter (λ x, x = ks) (key_of <$> kept)))).
  2:{ intros ks _.
      rewrite <- (filter_fmap_length key_of (λ x, x = ks) (λ r, key_of r = ks))
        by done.
      unfold kept. by rewrite list_filter_filter. }
  rewrite tally_total by apply first_occurrences_NoDup.
  transitivity (length (filter (λ x, forallb notna x = true) (key_of <$> kept))).
  { f_equal. apply filter_iff_in. intros ks Hks.
    rewrite first_occurrences_elem, list_elem_of_filter.
    split; [tauto|intros Hn; split; [|apply not_elem_of_nil]].
    split; [done|].
    apply list_elem_of_fmap in Hks as (r & -> & Hr).
    apply list_elem_of_fmap. exists r. split; [done|].
    by apply list_elem_of_filter in Hr as [_ ?]. }
  rewrite <- (filter_fmap_length key_of (λ x, forallb notna x = true)
                (λ r, forallb notna (key_of r) = true)) by done.
  unfold kept. rewrite list_filter_filter. f_equal.
  apply list_filter_iff. intros r. unfold key_of. cbn.
  rewrite andb_true_r. tauto.
Qed.

(** ** Rows of a frame after an assignment *)

Lemma set_column_elem (d : DataFrame) (c : string) (v : list cell) (r : row) :
  r ∈ rows (set_column d c v) → ∃ r0 x, r0 ∈ rows d ∧ x ∈ v ∧ r = <[c := x]> r0.
Proof.
  unfold set_column. cbn [rows]. intros Hr.
  apply elem_of_zip_with in Hr as (r0 & x & -> & Hr0 & Hx). by exists r0, x.
Qed.

Lemma set_column_columns (d : DataFrame) (c c' : string) (v : list cell) :
  c' ∈ columns (set_column d c v) ↔ c' ∈ columns d ∨ c' = c.
Proof.
  unfold set_column. cbn [columns]. destruct (decide (c ∈ columns d)) as [Hc|Hc].
  - split; [by left|]. by intros [?| ->].
  - rewrite elem_of_app, list_elem_of_singleton. done.
Qed.

Lemma set_column_rows_lookup (d : DataFrame) (c : string) (v : list cell)
    (i : nat) (r' : row) :
  rows (set_column d c v) !! i = Some r' →
  ∃ r x, rows d !! i = Some r ∧ v !! i = Some x ∧ r' = <[c := x]> r.
Proof.
  unfold set_column. cbn [rows]. intros Hr.
  apply lookup_zip_with_Some in Hr as (r & x & -> & Hr & Hx). by exists r, x.
Qed.

Lemma is_nan_SF (x : float) : PrimFloat.is_nan x = true → Prim2SF x = S754_nan.
Proof.
  unfold PrimFloat.is_nan. rewrite negb_true_iff, FloatAxioms.eqb_spec. unfold SFeqb.
  destruct (Prim2SF x) as [s|s| |s m e]; cbn [SFcompare]; try destruct s; try done.
  all: change (PosDef.Pos.compare_cont Eq) with Pos.compare.
  all: by rewrite Z.compare_refl, Pos.compare_refl.
Qed.

(** NaN is below no limit and at least no limit: the last branch. *)
Lemma categorize_speed_nan (x : float) :
  PrimFloat.is_nan x = true → categorize_speed x = "High".
Proof.
  intros Hx%is_nan_SF. unfold categorize_speed.
  rewrite !FloatAxioms.ltb_spec, FloatAxioms.leb_spec, Hx. unfold SFltb, SFleb. cbn [SFcompare].
  by destruct (Prim2SF 60).
Qed.

Lemma categorize_speed_missing (c : cell) :
  isna c = true → categorize_speed (float_of c) = "High".
Proof.
  destruct c; cbn [isna float_of]; try discriminate;
    first [apply categorize_speed_nan|intros _; vm_compute; reflexivity].
Qed.

(** X8.  In [speed_analysis] every charted row has the label that
    [categorize_speed] gives its own speed ("High" when the speed is
    missing), and the counts of the bar chart, one per pair of label and
    alert, add up to the number of charted rows, which is the number of
    loaded rows. *)
Theorem speed_analysis_category_counts `{lib : Library}
    (fs : gmap string DataFrame) (resp : response) (w' : world) :
  speed_analysis (request fs) = (inr resp, w') →
  ∃ (df charted grouped : DataFrame) (fig1 fig2 : figure),
    heap w' = [df; charted]
    ∧ resp = JsonDict
               [("speed_time_chart", fig1); ("speed_distribution_chart", fig2);
                ("speed_category_chart",
                 Px "bar" grouped
                   [("x", "Speed_Category"); ("y", "Count"); ("color", "Alert")]
                   [("barmode", "group")] "Alerts Count by Speed Category" [])]
    ∧ grouped = groupby_size ["Speed_Category"; "Alert"] "Count" charted
    ∧ Forall (λ r, cell_of r "Speed_Category"
                   = Str (categorize_speed (float_of (cell_of r "Speed"))))
        (rows charted)
    ∧ Forall (λ r, isna (cell_of r "Speed") = true →
                   cell_of r "Speed_Category" = Str "High")
        (rows charted)
    ∧ column_total grouped "Count" = Z.of_nat (length (rows charted))
    ∧ length (rows charted) = length (rows df).
Proof.
  intros Hrun. unfold speed_analysis in Hrun. run_back Hrun.
  match goal with
  | |- context [sorted_by "Time" (set_column (load_frame ?a ?b) "Speed" ?s)] =>
      set (loaded := load_frame a b) in *;
      pose proof (load_frame_no_missing a b : no_missing loaded) as Hfull;
      set (df := set_column loaded "Speed" s) in *
  end.
  set (raw := sorted_by "Time" df) in *.
  set (timed := set_column raw "Time" (to_datetime_coerce (series raw "Time"))) in *.
  set (charted := set_column timed "Speed_Category" _) in *.
  assert (∀ i r', rows charted !! i = Some r' →
            ∃ r0 x y z, r0 ∈ rows loaded
              ∧ r' = <["Speed_Category" := Str (categorize_speed (float_of x))]>
                       (<["Time" := y]> (<["Speed" := z]> r0))
              ∧ x = cell_of (<["Speed" := z]> r0) "Speed") as Hrows.
  { intros i r' Hr'.
    apply set_column_rows_lookup in Hr' as (ra & va & Hra & Hva & ->).
    apply set_column_rows_lookup in Hra as (rb & vb & Hrb & Hvb & ->).
    rewrite list_lookup_fmap, (series_lookup raw "Speed" i rb Hrb) in Hva.
    injection Hva as <-.
    apply list_elem_of_lookup_2 in Hrb. apply sort_by_elem in Hrb.
    apply set_column_elem in Hrb as (r0 & z & Hr0 & _ & ->).
    by exists r0, (cell_of (<["Speed" := z]> r0) "Speed"), vb, z. }
  assert ("Alert" ∈ columns loaded) as Halert.
  { match goal with
    | Hin : "Alert" ∈ columns charted |- _ =>
        unfold charted, timed in Hin;
        apply set_column_columns in Hin as [Hin|?]; [|done];
        apply set_column_columns in Hin as [Hin|?]; [|done];
        unfold raw, sorted_by, df in Hin; cbn [columns] in Hin;
        apply (set_column_columns loaded) in Hin as [Hin|?]; [exact Hin|done]
    end. }
  eexists df, charted, _, _, _.
  split; [reflexivity|]. split; [reflexivity|]. split; [reflexivity|].
  split.
  { apply Forall_lookup. intros i r' Hr'.
    apply Hrows in Hr' as (r0 & u & y & z & _ & -> & ->).
    rewrite (cell_of_insert _ "Speed_Category").
    rewrite (cell_of_insert_ne _ "Speed_Category" "Speed") by done.
    by rewrite (cell_of_insert_ne _ "Time" "Speed"). }
  split.
  { apply Forall_lookup. intros i r' Hr'.
    apply Hrows in Hr' as (r0 & u & y & z & _ & -> & ->).
    rewrite (cell_of_insert _ "Speed_Category").
    rewrite (cell_of_insert_ne _ "Speed_Category" "Speed") by done.
    rewrite (cell_of_insert_ne _ "Time" "Speed") by done.
    intros Hna. by rewrite categorize_speed_missing. }
  split.
  { rewrite groupby_size_total. f_equal. f_equal. apply filter_all.
    apply Forall_lookup. intros i r' Hr'.
    apply Hrows in Hr' as (r0 & u & y & z & Hr0 & -> & ->). cbn.
    rewrite (cell_of_insert _ "Speed_Category").
    rewrite (cell_of_insert_ne _ "Speed_Category" "Alert") by done.
    rewrite (cell_of_insert_ne _ "Time" "Alert") by done.
    rewrite (cell_of_insert_ne _ "Speed" "Alert") by done.
    unfold notna at 2. rewrite (Hfull r0 "Alert" Hr0 Halert). done. }
  assert (length (rows df) = length (rows loaded)) as Hdf.
  { apply set_column_length.
    match goal with Hlen : length _ = length (rows loaded) |- _ => exact Hlen end. }
  unfold charted. rewrite set_column_length.
  - unfold timed. rewrite set_column_length.
    + unfold raw, sorted_by. cbn [rows]. apply Permutation_length, sort_by_Permutation.
    + unfold to_datetime_coerce. by rewrite length_fmap, series_length.
  - match goal with Hlen : length _ = length (rows timed) |- _ => exact Hlen end.
Qed.

(** X8 on the fleet: speeds 86 and 93 are both "High", two counts of one. *)
Lemma speed_analysis_category_counts_witness :
  ∃ resp w' df charted,
    speed_analysis (lib := Standin.library) (request Fleet.disk) = (inr resp, w')
    ∧ heap w' = [df; charted]
    ∧ series charted "Speed_Category" = [Str "High"; Str "High"]
    ∧ column_total (groupby_size ["Speed_Category"; "Alert"] "Count" charted) "Count"
      = 2.
Proof.
  destruct (returns_run (speed_analysis (lib := Standin.library)) (request Fleet.disk))
    as (resp & w' & Hrun); [vm_compute; reflexivity|].
  destruct (speed_analysis_category_counts (lib := Standin.library) _ _ _ Hrun)
    as (df & charted & grouped & fig1 & fig2 & Hheap & Hresp & Hgrouped & _ & _
        & Htotal & _).
  assert (match heap (speed_analysis (lib := Standin.library) (request Fleet.disk)).2 with
          | [_; c] => series c "Speed_Category" = [Str "High"; Str "High"]
                      ∧ length (rows c) = 2%nat
          | _ => False
          end) as Hdata by (vm_compute; split; reflexivity).
  rewrite Hrun in Hdata. simpl in Hdata. rewrite Hheap in Hdata.
  destruct Hdata as [Hcat Hlen].
  exists resp, w', df, charted.
  split; [exact Hrun|]. split; [exact Hheap|]. split; [exact Hcat|].
  rewrite <- Hgrouped, Htotal, Hlen. reflexivity.
Defined.

Lemma select_no_missing (d : DataFrame) (keep : row → bool) :
  no_missing d → no_missing (select d keep).
Proof.
  intros Hd r c Hr Hc. apply Hd; [|done].
  cbn [select rows] in Hr. by apply list_elem_of_filter in Hr as [_ ?].
Qed.

Lemma safety_tables_total (d : DataFrame) :
  no_missing d → "Speed" ∈ columns d → "Alert" ∈ columns d →
  column_total (groupby_count "Speed" "Alert" d) "Alert" = Z.of_nat (length (rows d))
  ∧ column_total (value_counts "Alert" "Frequency" (series d "Alert")) "Frequency"
    = Z.of_nat (length (rows d)).
Proof.
  intros Hd Hspeed Halert. split.
  - rewrite groupby_count_total by done. f_equal. f_equal. apply filter_all.
    rewrite Forall_forall. intros r Hr. unfold notna.
    by rewrite (Hd r "Speed" Hr Hspeed), (Hd r "Alert" Hr Halert).
  - rewrite value_counts_total by done.
    by rewrite series_no_missing, series_length.
Qed.

(** X9.  Both safety handlers chart the same table of alerts per speed,
    [safety_analysis] with a trend line; its counts, and the
    frequencies of the pie chart, each add up to the number of rows of
    the safety frame. *)
Theorem safety_counts_total `{lib : Library}
    (fs : gmap string DataFrame) (resp : response) (w' : world) :
  safety_impact (request fs) = (inr resp, w')
  ∨ safety_analysis (request fs) = (inr resp, w') →
  ∃ (loaded safety_df by_speed by_alert : DataFrame),
    heap w' = [loaded; safety_df]
    ∧ by_speed = groupby_count "Speed" "Alert" safety_df
    ∧ by_alert = value_counts "Alert" "Frequency" (series safety_df "Alert")
    ∧ column_total by_speed "Alert" = Z.of_nat (length (rows safety_df))
    ∧ column_total by_alert "Frequency" = Z.of_nat (length (rows safety_df))
    ∧ (resp = JsonDict
                [("safety_speed_frequency",
                  Px "scatter" by_speed [("x", "Speed"); ("y", "Alert")] []
                    "Speed vs. Frequency of Safety-Related Alerts" []);
                 ("safety_speed_distribution",
                  Px "box" safety_df [("x", "Alert"); ("y", "Speed")] []
                    "Speed Distribution During Safety Alerts" [])]
       ∨ resp = JsonDict
                  [("safety_pie",
                    Px "pie" by_alert [("values", "Frequency"); ("names", "Alert")] []
                      "Distribution of Safety-Related Alerts" []);
                   ("safety_speed",
                    Px "scatter" by_speed [("x", "Speed"); ("y", "Alert")]
                      [("trendline", "ols")]
                      "Speed vs. Frequency of Safety-Related Alerts" [])]).
Proof.
  intros [Hrun|Hrun].
  - unfold safety_impact in Hrun. run_back Hrun.
    match goal with
    | |- context [select (load_frame ?a ?b) ?k] =>
        pose proof (select_no_missing _ k (load_frame_no_missing a b)) as Hfull
    end.
    eexists _, _, _, _. split; [reflexivity|]. split; [reflexivity|].
    split; [reflexivity|].
    split; [by apply safety_tables_total|].
    split; [by apply safety_tables_total|]. by left.
  - unfold safety_analysis, safety_alerts in Hrun. run_back Hrun.
    match goal with
    | |- context [select (load_frame ?a ?b) ?k] =>
        pose proof (select_no_missing _ k (load_frame_no_missing a b)) as Hfull
    end.
    eexists _, _, _, _. split; [reflexivity|]. split; [reflexivity|].
    split; [reflexivity|].
    split; [by apply safety_tables_total|].
    split; [by apply safety_tables_total|]. by right.
Qed.

(** X9 on the fleet: one safety row, one alert counted in either table. *)
Lemma safety_counts_total_witness :
  ∃ resp w' loaded safety_df,
    safety_analysis (lib := Standin.library) (request Fleet.disk) = (inr resp, w')
    ∧ heap w' = [loaded; safety_df]
    ∧ column_total (groupby_count "Speed" "Alert" safety_df) "Alert" = 1
    ∧ column_total (value_counts "Alert" "Frequency" (series safety_df "Alert"))
        "Frequency" = 1.
Proof.
  destruct (returns_run (safety_analysis (lib := Standin.library)) (request Fleet.disk))
    as (resp & w' & Hrun); [vm_compute; reflexivity|].
  destruct (safety_counts_total (lib := Standin.library) _ _ _ (or_intror Hrun))
    as (loaded & safety_df & by_speed & by_alert & Hheap & -> & -> & Hspeed & Halert & _).
  assert (match heap (safety_analysis (lib := Standin.library) (request Fleet.disk)).2 with
          | [_; s] => length (rows s) = 1%nat
          | _ => False
          end) as Hdata by (vm_compute; reflexivity).
  rewrite Hrun in Hdata. simpl in Hdata. rewrite Hheap in Hdata.
  exists resp, w', loaded, safety_df.
  split; [exact Hrun|]. split; [exact Hheap|].
  rewrite Hspeed, Halert, Hdata. split; reflexivity.
Defined.

(** ** The landing page *)

Lemma location_of_fields (cols : list string) (r : row) (w w' : world) (l : location) :
  location_of cols r w = (inr l, w') →
  w' = w
  ∧ l = {| loc_lat := cell_of r "Lat"; loc_lng := cell_of r "Long";
           loc_alert := cell_of r "Alert"; loc_date := cell_of r "Date";
           loc_time := cell_of r "Time"; loc_vehicle := cell_of r "Vehicle";
           loc_speed := cell_of r "Speed" |}.
Proof.
  unfold location_of. intros H.
  repeat (apply bind_returns in H as (? & ? & [-> [_ ->]]%row_getitem_returns & H);
          cbv beta in H).
  by apply mret_returns in H as [<- <-].
Qed.

(** X10.  The landing page lists one location per row of the frame
    [load_data] made of the two files, in the order of the rows.  The
    list is built after the Date column of that frame was replaced by its
    parse (and DayOfWeek added), so a location carries the parsed date,
    while its time and its other fields are the cells as loaded; the
    summary and the heat map were made before, from the frame as
    loaded. *)
Theorem home_locations `{lib : Library}
    (fs : gmap string DataFrame) (resp : response) (w' : world) :
  home (request fs) = (inr resp, w') →
  ∃ (d0 d1 loaded df : DataFrame) (dates : list cell)
    (fig1 fig2 fig3 : figure) (locations : list location),
    fs !! "data/iraste_nxt_cas.csv" = Some d0
    ∧ fs !! "data/iraste_nxt_casdms.csv" = Some d1
    ∧ loaded = load_frame d0 d1
    ∧ mapM (to_datetime_cell (series loaded "Date")) (series loaded "Date") = Some dates
    ∧ df = set_column (set_column loaded "Date" dates) "DayOfWeek"
             (day_name_of <$> dates)
    ∧ heap w' = [df]
    ∧ resp = Page (describe_html loaded) fig1 fig2 fig3 locations
    ∧ fig_data fig1 = Some loaded
    ∧ fig_data fig3 = Some df
    ∧ Forall2 (λ r l,
                 to_datetime_cell (series loaded "Date") (cell_of r "Date")
                   = Some (loc_date l)
                 ∧ loc_time l = cell_of r "Time"
                 ∧ loc_lat l = cell_of r "Lat"
                 ∧ loc_lng l = cell_of r "Long"
                 ∧ loc_alert l = cell_of r "Alert"
                 ∧ loc_vehicle l = cell_of r "Vehicle"
                 ∧ loc_speed l = cell_of r "Speed")
        (rows loaded) locations.
Proof.
  intros Hrun. unfold home in Hrun. run_back Hrun.
  match goal with
  | Hmap : mapM (location_of _) _ _ = _ |- _ =>
      apply (mapM_returns _
               (λ r l, l = {| loc_lat := cell_of r "Lat"; loc_lng := cell_of r "Long";
                              loc_alert := cell_of r "Alert";
                              loc_date := cell_of r "Date";
                              loc_time := cell_of r "Time";
                              loc_vehicle := cell_of r "Vehicle";
                              loc_speed := cell_of r "Speed" |}))
        in Hmap as [-> Hlocs]; [|intros a b w1 w2; apply location_of_fields]
  end.
  match goal with
  | Hparse : mapM (to_datetime_cell (series (load_frame ?a ?b) _)) _ = Some ?s |- _ =>
      exists a, b, (load_frame a b); eexists _; exists s; eexists _, _, _, _;
      split; [assumption|]; split; [assumption|]; split; [reflexivity|];
      split; [exact Hparse|]; split; [reflexivity|];
      apply mapM_Some in Hparse; rename Hparse into Hdates
  end.
  split; [reflexivity|]. split; [reflexivity|].
  split; [reflexivity|]. split; [reflexivity|].
  apply Forall2_same_length_lookup_2.
  { by rewrite <- (Forall2_length _ _ _ Hlocs), !set_column_length. }
  intros i r l Hr Hl.
  destruct (Forall2_lookup_r _ _ _ _ _ Hlocs Hl) as (r' & Hr' & ->).
  apply set_column_rows_lookup in Hr' as (ra & day & Hra & _ & ->).
  apply set_column_rows_lookup in Hra as (rb & parsed & Hrb & Hparsed & ->).
  assert (rb = r) as -> by congruence.
  cbn [loc_lat loc_lng loc_alert loc_date loc_time loc_vehicle loc_speed].
  rewrite (cell_of_insert_ne _ "DayOfWeek" "Date"), (cell_of_insert _ "Date") by done.
  split.
  { apply (Forall2_lookup_lr _ _ _ i _ _ Hdates); [|done].
    by apply series_lookup. }
  by rewrite !(cell_of_insert_ne _ "DayOfWeek"), !(cell_of_insert_ne _ "Date").
Qed.

(** X10 on the fleet: the dates of the two locations are datetimes, the
    times the text of the file. *)
Lemma home_locations_witness :
  ∃ resp w' locations,
    home (lib := Standin.library) (request Fleet.disk) = (inr resp, w')
    ∧ (∃ summary f1 f2 f3, resp = Page summary f1 f2 f3 locations)
    ∧ loc_date <$> locations = [Stamp 1654387200000000000; Stamp 1654128000000000000]
    ∧ loc_time <$> locations = [Str "9:59:59"; Str "10:05:30"].
Proof.
  destruct (returns_run (home (lib := Standin.library)) (request Fleet.disk))
    as (resp & w' & Hrun); [vm_compute; reflexivity|].
  destruct (home_locations (lib := Standin.library) _ _ _ Hrun)
    as (d0 & d1 & loaded & df & dates & f1 & f2 & f3 & locations & _ & _ & _ & _ & _
        & Hheap & Hresp & _ & _ & _).
  assert (match (home (lib := Standin.library) (request Fleet.disk)).1 with
          | inr (Page _ _ _ _ ls) =>
              loc_date <$> ls = [Stamp 1654387200000000000; Stamp 1654128000000000000]
              ∧ loc_time <$> ls = [Str "9:59:59"; Str "10:05:30"]
          | _ => False
          end) as Hdata by (vm_compute; split; reflexivity).
  rewrite Hrun in Hdata. simpl in Hdata. rewrite Hresp in Hdata.
  exists resp, w', locations.
  split; [exact Hrun|]. split; [by eexists _, _, _, _|]. exact Hdata.
Defined.

(** ** What [alert_frequency] does to the loaded frame *)

Lemma set_column_keeps (d : DataFrame) (c : string) (v : list cell) :
  c ∈ columns d → columns (set_column d c v) = columns d.
Proof. intros Hc. unfold set_column. cbn [columns]. by rewrite decide_True. Qed.

Lemma set_column_adds (d : DataFrame) (c : string) (v : list cell) :
  columns (set_column d c v) = columns d ++ filter (λ c', c' ∉ columns d) [c].
Proof.
  unfold set_column. cbn [columns]. rewrite filter_cons, filter_nil.
  destruct (decide (c ∈ columns d)) as [Hc|Hc].
  - rewrite decide_False by tauto. by rewrite app_nil_r.
  - by rewrite decide_True.
Qed.

(** X11.  [alert_frequency] charts the one frame of its request, which
    is the frame [load_data] made of the two files rewritten row by row:
    Date becomes its parse, DayOfWeek the day name of that parse, Time
    its parse or NaT where it does not parse, Speed its conversion to
    float; the rows keep their number and order, and every other column
    is left as loaded. *)
Theorem alert_frequency_normalises `{lib : Library}
    (fs : gmap string DataFrame) (resp : response) (w' : world) :
  alert_frequency (request fs) = (inr resp, w') →
  ∃ (d0 d1 loaded df : DataFrame) (fig1 fig2 fig3 : figure),
    fs !! "data/iraste_nxt_cas.csv" = Some d0
    ∧ fs !! "data/iraste_nxt_casdms.csv" = Some d1
    ∧ loaded = load_frame d0 d1
    ∧ heap w' = [df]
    ∧ columns df = columns loaded ++ filter (λ c, c ∉ columns loaded) ["DayOfWeek"]
    ∧ resp = JsonDict [("day_of_week_chart", fig1); ("speed_alert_chart", fig2);
                       ("speed_time", fig3)]
    ∧ fig_data fig1 = Some df ∧ fig_data fig2 = Some df ∧ fig_data fig3 = Some df
    ∧ Forall2 (λ r r',
                 to_datetime_cell (series loaded "Date") (cell_of r "Date")
                   = Some (cell_of r' "Date")
                 ∧ cell_of r' "DayOfWeek" = day_name_of (cell_of r' "Date")
                 ∧ cell_of r' "Time"
                   = default NaT (to_datetime_cell (series loaded "Time")
                                    (cell_of r "Time"))
                 ∧ astype_float_cell (cell_of r "Speed") = Some (cell_of r' "Speed")
                 ∧ ∀ c, c ∉ ["Date"; "DayOfWeek"; "Time"; "Speed"] →
                        cell_of r' c = cell_of r c)
        (rows loaded) (rows df).
Proof.
  intros Hrun. unfold alert_frequency in Hrun. run_back Hrun.
  repeat match goal with
    | Hparse : mapM _ _ = Some _ |- _ => apply mapM_Some in Hparse
    end.
  match goal with
  | Hd : Forall2 _ (series (load_frame ?a ?b) "Date") ?s,
    Hs : Forall2 _ (series (load_frame ?a ?b) "Speed") ?v |- _ =>
      exists a, b;
      set (loaded := load_frame a b) in *;
      rename Hd into Hdates; rename Hs into Hspeeds
  end.
  eexists loaded, _, _, _, _.
  split; [assumption|]. split; [assumption|]. split; [reflexivity|].
  split; [reflexivity|].
  split.
  { rewrite (set_column_keeps _ "Speed"), (set_column_keeps _ "Time") by assumption.
    rewrite set_column_adds. by rewrite (set_column_keeps _ "Date") by assumption. }
  split; [reflexivity|].
  split; [reflexivity|]. split; [reflexivity|]. split; [reflexivity|].
  apply Forall2_same_length_lookup_2.
  { by rewrite !set_column_length. }
  intros i r r' Hr Hr'.
  apply set_column_rows_lookup in Hr' as (ra & speed & Hra & Hspeed & ->).
  apply set_column_rows_lookup in Hra as (rb & time & Hrb & Htime & ->).
  apply set_column_rows_lookup in Hrb as (rc & day & Hrc & Hday & ->).
  apply set_column_rows_lookup in Hrc as (rd & parsed & Hrd & Hparsed & ->).
  assert (rd = r) as -> by congruence.
  rewrite list_lookup_fmap, Hparsed in Hday. injection Hday as <-.
  unfold to_datetime_coerce in Htime.
  rewrite list_lookup_fmap, (series_lookup loaded "Time" i r Hr) in Htime.
  injection Htime as <-.
  split.
  { rewrite (cell_of_insert_ne _ "Speed" "Date") by done.
    rewrite (cell_of_insert_ne _ "Time" "Date") by done.
    rewrite (cell_of_insert_ne _ "DayOfWeek" "Date") by done.
    rewrite (cell_of_insert _ "Date").
    apply (Forall2_lookup_lr _ _ _ i _ _ Hdates); [|exact Hparsed].
    by apply series_lookup. }
  split.
  { rewrite (cell_of_insert_ne _ "Speed" "DayOfWeek") by done.
    rewrite (cell_of_insert_ne _ "Time" "DayOfWeek") by done.
    rewrite (cell_of_insert _ "DayOfWeek").
    rewrite (cell_of_insert_ne _ "Speed" "Date") by done.
    rewrite (cell_of_insert_ne _ "Time" "Date") by done.
    rewrite (cell_of_insert_ne _ "DayOfWeek" "Date") by done.
    by rewrite (cell_of_insert _ "Date"). }
  split.
  { rewrite (cell_of_insert_ne _ "Speed" "Time") by done.
    by rewrite (cell_of_insert _ "Time"). }
  split.
  { rewrite (cell_of_insert _ "Speed").
    apply (Forall2_lookup_lr _ _ _ i _ _ Hspeeds); [|exact Hspeed].
    by apply series_lookup. }
  intros c Hc.
  assert (c ≠ "Date" ∧ c ≠ "DayOfWeek" ∧ c ≠ "Time" ∧ c ≠ "Speed") as (? & ? & ? & ?).
  { clear -Hc. rewrite !elem_of_cons in Hc. repeat split; intros ->; tauto. }
  rewrite (cell_of_insert_ne _ "Speed" c) by done.
  rewrite (cell_of_insert_ne _ "Time" c) by done.
  rewrite (cell_of_insert_ne _ "DayOfWeek" c) by done.
  by rewrite (cell_of_insert_ne _ "Date" c).
Qed.

(** X11 on the fleet: the two sampled readings after the handler ran. *)
Lemma alert_frequency_normalises_witness :
  ∃ resp w' df,
    alert_frequency (lib := Standin.library) (request Fleet.disk) = (inr resp, w')
    ∧ heap w' = [df]
    ∧ series df "DayOfWeek" = [Str "Sunday"; Str "Thursday"]
    ∧ series df "Speed" = [Flt 93; Flt 86]
    ∧ series df "Vehicle" = [Int 179; Int 178].
Proof.
  destruct (returns_run (alert_frequency (lib := Standin.library)) (request Fleet.disk))
    as (resp & w' & Hrun); [vm_compute; reflexivity|].
  destruct (alert_frequency_normalises (lib := Standin.library) _ _ _ Hrun)
    as (d0 & d1 & loaded & df & f1 & f2 & f3 & _ & _ & _ & Hheap & _).
  assert (match heap (alert_frequency (lib := Standin.library) (request Fleet.disk)).2 with
          | [d] => series d "DayOfWeek" = [Str "Sunday"; Str "Thursday"]
                   ∧ series d "Speed" = [Flt 93; Flt 86]
                   ∧ series d "Vehicle" = [Int 179; Int 178]
          | _ => False
          end) as Hdata by (vm_compute; repeat split; reflexivity).
  rewrite Hrun in Hdata. simpl in Hdata. rewrite Hheap in Hdata.
  exists resp, w', df. split; [exact Hrun|]. split; [exact Hheap|]. exact Hdata.
Defined.

(** ** A column that is not there *)

Lemma getitem_missing (p : nat) (c : string) (w : world) (d : DataFrame) :
  heap w !! p = Some d → c ∉ columns d → getitem p c w = (inl (KeyError c), w).
Proof.
  intros Hp Hc. unfold getitem, mbind, M_bind, deref. rewrite Hp.
  by rewrite decide_False.
Qed.

Lemma where_isin_missing (p : nat) (c : string) (vs : list string) (w : world)
    (d : DataFrame) :
  heap w !! p = Some d → c ∉ columns d → where_isin p c vs w = (inl (KeyError c), w).
Proof.
  intros Hp Hc. unfold where_isin, mbind, M_bind, deref. rewrite Hp.
  by rewrite decide_False.
Qed.

Section MissingColumn.

Context `{lib : Library}.
Variables (fs : gmap string DataFrame) (df df1 : DataFrame).
Hypothesis first_file : fs !! "data/iraste_nxt_cas.csv" = Some df.
Hypothesis second_file : fs !! "data/iraste_nxt_casdms.csv" = Some df1.

Lemma after_load {A : Type} (k : nat → M A) :
  (load_data ≫= k) (request fs)
  = k 0%nat {| files := fs; heap := [load_frame df df1] |}.
Proof.
  apply bind_inr. apply (load_data_run (request fs) df df1 first_file second_file).
Qed.

End MissingColumn.

(** X12.  With both files read, a handler fails on the first column it
    asks for when the loaded frame lacks it: KeyError for Date in
    [alert_frequency], for Speed in [speed_analysis], for Alert in
    [driver_behavior], both safety handlers and [correlation_analysis];
    the loaded frame is as [load_data] returned it. *)
Theorem missing_column_raises_KeyError `{lib : Library}
    (fs : gmap string DataFrame) (df df1 : DataFrame) :
  fs !! "data/iraste_nxt_cas.csv" = Some df →
  fs !! "data/iraste_nxt_casdms.csv" = Some df1 →
  let loaded := load_frame df df1 in
  let after := {| files := fs; heap := [loaded] |} in
  ("Date" ∉ columns loaded →
   alert_frequency (request fs) = (inl (KeyError "Date"), after))
  ∧ ("Speed" ∉ columns loaded →
     speed_analysis (request fs) = (inl (KeyError "Speed"), after))
  ∧ ("Alert" ∉ columns loaded →
     driver_behavior (request fs) = (inl (KeyError "Alert"), after)
     ∧ safety_impact (request fs) = (inl (KeyError "Alert"), after)
     ∧ safety_analysis (request fs) = (inl (KeyError "Alert"), after)
     ∧ correlation_analysis (request fs)
       = (inl (KeyError "Alert"), {| files := fs; heap := [loaded; loaded] |})).
Proof.
  intros H1 H2 loaded after. split; [|split].
  - intros Hc. unfold alert_frequency. rewrite (after_load fs df df1 H1 H2).
    by apply bind_raises, (getitem_missing _ _ _ loaded).
  - intros Hc. unfold speed_analysis. rewrite (after_load fs df df1 H1 H2).
    by apply bind_raises, (getitem_missing _ _ _ loaded).
  - intros Hc. split; [|split; [|split]].
    + unfold driver_behavior. rewrite (after_load fs df df1 H1 H2).
      by apply bind_raises, (getitem_missing _ _ _ loaded).
    + unfold safety_impact. rewrite (after_load fs df df1 H1 H2).
      by apply bind_raises, (where_isin_missing _ _ _ _ loaded).
    + unfold safety_analysis. rewrite (after_load fs df df1 H1 H2).
      by apply bind_raises, (where_isin_missing _ _ _ _ loaded).
    + unfold correlation_analysis. rewrite (after_load fs df df1 H1 H2).
      erewrite bind_inr; [|reflexivity].
      by apply bind_raises, (getitem_missing _ _ _ loaded).
Qed.

Lemma depot_bare_cas : Depot.bare !! "data/iraste_nxt_cas.csv" = Some Fleet.positions.
Proof. apply lookup_insert_eq. Qed.

Lemma depot_bare_casdms :
  Depot.bare !! "data/iraste_nxt_casdms.csv" = Some Fleet.positions.
Proof.
  unfold Depot.bare. rewrite lookup_insert_ne by discriminate.
  apply lookup_singleton_eq.
Qed.

(** X12 on two files of positions: no Date, no Speed, no Alert. *)
Lemma missing_column_raises_KeyError_witness :
  (alert_frequency (lib := Standin.library) (request Depot.bare)).1
    = inl (KeyError "Date")
  ∧ (speed_analysis (lib := Standin.library) (request Depot.bare)).1
    = inl (KeyError "Speed")
  ∧ (driver_behavior (lib := Standin.library) (request Depot.bare)).1
    = inl (KeyError "Alert").
Proof.
  destruct (missing_column_raises_KeyError (lib := Standin.library) Depot.bare
              Fleet.positions Fleet.positions depot_bare_cas depot_bare_casdms)
    as (Hdate & Hspeed & Halert).
  split; [|split].
  - rewrite Hdate; [reflexivity|]. apply (bool_decide_unpack _). vm_compute. exact I.
  - rewrite Hspeed; [reflexivity|]. apply (bool_decide_unpack _). vm_compute. exact I.
  - destruct Halert as [-> _]; [|reflexivity].
    apply (bool_decide_unpack _). vm_compute. exact I.
Defined.

(** ** A date that does not parse *)










(** ** The records of [get_coordinates] *)

(** A row is asked for the seven columns in the order of the dict: the
    first one the frame lacks is the KeyError. *)
Lemma record_of_missing (cols : list string) (r : row) (w : world)
    (pre post : list string) (c : string) :
  ["Alert"; "Date"; "Time"; "Lat"; "Long"; "Vehicle"; "Speed"] = pre ++ c :: post →
  (∀ x, x ∈ pre → x ∈ cols) → c ∉ cols →
  record_of cols r w = (inl (KeyError c), w).
Proof.
  intros Hsplit Hpre Hc.
  unfold record_of, row_getitem, mbind, M_bind, mret, M_ret, raise.
  do 7 (destruct pre as [|? pre];
        [injection Hsplit as <- <-;
         repeat (rewrite decide_True by (apply Hpre; rewrite !elem_of_cons; tauto));
         by rewrite decide_False
        |injection Hsplit as <- Hsplit]).
  by destruct pre.
Qed.

(** X14.  [get_coordinates] reads the columns row by row: on a loaded
    frame without rows it returns the empty list whatever the columns
    are, and on one with rows it fails with KeyError for the first of
    the seven columns that the frame lacks. *)
Theorem coordinates_columns_asked_per_row `{lib : Library}
    (fs : gmap string DataFrame) (df df1 : DataFrame) :
  fs !! "data/iraste_nxt_cas.csv" = Some df →
  fs !! "data/iraste_nxt_casdms.csv" = Some df1 →
  let loaded := load_frame df df1 in
  (rows loaded = [] →
   get_coordinates (request fs)
     = (inr (JsonList []), {| files := fs; heap := [loaded] |}))
  ∧ (∀ pre c post,
       rows loaded ≠ [] →
       ["Alert"; "Date"; "Time"; "Lat"; "Long"; "Vehicle"; "Speed"] = pre ++ c :: post →
       (∀ x, x ∈ pre → x ∈ columns loaded) →
       c ∉ columns loaded →
       get_coordinates (request fs)
         = (inl (KeyError c), {| files := fs; heap := [loaded] |})).
Proof.
  intros H1 H2 loaded. split.
  - intros Hrows. unfold get_coordinates. rewrite (after_load fs df df1 H1 H2).
    erewrite bind_inr; [|reflexivity]. fold loaded. by rewrite Hrows.
  - intros pre c post Hrows Hsplit Hpre Hc.
    unfold get_coordinates. rewrite (after_load fs df df1 H1 H2).
    erewrite bind_inr; [|reflexivity]. fold loaded.
    destruct (rows loaded) as [|r rs]; [done|].
    apply bind_raises. cbn [mapM]. apply bind_raises.
    by apply (record_of_missing _ _ _ pre post).
Qed.

Lemma depot_unmetered_cas :
  Depot.unmetered_disk !! "data/iraste_nxt_cas.csv"
  = Some (Depot.unmetered 0).
Proof. apply lookup_insert_eq. Qed.

Lemma depot_unmetered_casdms :
  Depot.unmetered_disk !! "data/iraste_nxt_casdms.csv"
  = Some (Depot.unmetered 80).
Proof.
  unfold Depot.unmetered_disk. rewrite lookup_insert_ne by discriminate.
  apply lookup_singleton_eq.
Qed.

(** X14 on three rows of which none is sampled, and on the readings
    without their Speed column. *)
Lemma coordinates_columns_asked_per_row_witness :
  (get_coordinates (lib := Standin.library) (request Fleet.unrelated)).1
    = inr (JsonList [])
  ∧ (get_coordinates (lib := Standin.library) (request Depot.unmetered_disk)).1
    = inl (KeyError "Speed").
Proof.
  destruct (coordinates_columns_asked_per_row (lib := Standin.library) Fleet.unrelated
              _ _ fleet_unrelated_cas fleet_unrelated_casdms) as [Hempty _].
  destruct (coordinates_columns_asked_per_row (lib := Standin.library)
              Depot.unmetered_disk _ _ depot_unmetered_cas depot_unmetered_casdms)
    as [_ Hmissing].
  split.
  - rewrite Hempty; [reflexivity|]. vm_compute. reflexivity.
  - rewrite (Hmissing ["Alert"; "Date"; "Time"; "Lat"; "Long"; "Vehicle"] "Speed" []);
      [reflexivity| | reflexivity | |].
    + apply (bool_decide_unpack _). vm_compute. exact I.
    + apply Forall_forall. apply (bool_decide_unpack _). vm_compute. exact I.
    + apply (bool_decide_unpack _). vm_compute. exact I.
Defined.

(** ** What the correlation matrix is taken over *)

Lemma series_drop_column_ne (d : DataFrame) (h c : string) :
  c ≠ h → series (drop_column d h) c = series d c.
Proof.
  intros Hne. unfold series, drop_column. cbn [rows].
  rewrite <- list_fmap_compose. apply list_fmap_ext. intros i r _. cbn.
  unfold cell_of. by rewrite lookup_delete_ne.
Qed.

Lemma drop_column_columns (d : DataFrame) (h c : string) :
  c ∈ columns (drop_column d h) ↔ c ∈ columns d ∧ c ≠ h.
Proof. unfold drop_column. cbn [columns]. rewrite list_elem_of_filter. tauto. Qed.

Lemma numeric_columns_elem (d : DataFrame) (c : string) :
  c ∈ numeric_columns d
  ↔ c ∈ columns d ∧ forallb numeric_cell (series d c) = true.
Proof. unfold numeric_columns. rewrite list_elem_of_filter. tauto. Qed.

Lemma cat_codes_numeric (s : list cell) : forallb numeric_cell (cat_codes s) = true.
Proof.
  unfold cat_codes. generalize (categories s). intros cats.
  induction s as [|c s IH]; [done|].
  csimpl. rewrite IH, andb_true_r. by destruct (list_find _ _) as [[? ?]|].
Qed.

Ltac through_assignments :=
  repeat first
    [ rewrite series_drop_column_ne by done
    | rewrite series_set_column_eq by assumption
    | rewrite series_set_column_ne by (assumption || done) ].

Ltac has_column :=
  repeat first
    [ assumption
    | apply drop_column_columns; split; [|done]
    | apply set_column_columns; (by right) || left ].

(** X15.  The matrix of [correlation_analysis] is taken over a copy of
    the frame [load_data] made of the two files, in which Alert, Date
    and DayOfWeek hold category codes (of the loaded alerts, of the
    parsed dates and of their day names): these three always label the
    matrix.  Time holds its parse, and every other column enters as
    loaded. *)
Theorem correlation_over_codes `{lib : Library}
    (fs : gmap string DataFrame) (resp : response) (w' : world) :
  correlation_analysis (request fs) = (inr resp, w') →
  ∃ (d0 d1 loaded final : DataFrame) (dates : list cell),
    fs !! "data/iraste_nxt_cas.csv" = Some d0
    ∧ fs !! "data/iraste_nxt_casdms.csv" = Some d1
    ∧ loaded = load_frame d0 d1
    ∧ heap w' = [loaded; final]
    ∧ resp = Json (AnnotatedHeatmap (m_values (corr final)) (m_columns (corr final))
                     (m_index (corr final)) "Viridis"
                     "Correlation Between Alert Occurrence and Road Conditions")
    ∧ mapM (to_datetime_cell (series loaded "Date")) (series loaded "Date") = Some dates
    ∧ series final "Alert" = cat_codes (series loaded "Alert")
    ∧ series final "Date" = cat_codes dates
    ∧ series final "DayOfWeek" = cat_codes (day_name_of <$> dates)
    ∧ series final "Time" = to_datetime_coerce (series loaded "Time")
    ∧ (∀ c, c ∉ ["Alert"; "Date"; "DayOfWeek"; "HourOfDay"; "Time"] →
            series final c = series loaded c)
    ∧ "Alert" ∈ m_columns (corr final)
    ∧ "Date" ∈ m_columns (corr final)
    ∧ "DayOfWeek" ∈ m_columns (corr final).
Proof.
  intros Hrun. unfold correlation_analysis in Hrun. run_back Hrun.
  match goal with
  | Hparse : mapM (to_datetime_cell (series (load_frame ?a ?b) _)) _ = Some ?s |- _ =>
      exists a, b;
      set (loaded := load_frame a b) in *;
      exists loaded; eexists _; exists s;
      split; [assumption|]; split; [assumption|]; split; [reflexivity|];
      split; [reflexivity|]; split; [reflexivity|]; split; [exact Hparse|];
      match goal with
      | |- context [series ?d "Alert" = cat_codes (series loaded "Alert")] =>
          set (final := d);
          assert (series final "Alert" = cat_codes (series loaded "Alert")) as Hs1
            by (unfold final; through_assignments; reflexivity);
          assert (series final "Date" = cat_codes s) as Hs2
            by (unfold final; through_assignments; reflexivity);
          assert (series final "DayOfWeek" = cat_codes (day_name_of <$> s)) as Hs3
            by (unfold final; through_assignments; reflexivity);
          assert (series final "Time" = to_datetime_coerce (series loaded "Time"))
            as Hs4 by (unfold final; through_assignments; reflexivity);
          assert ("Alert" ∈ columns final ∧ "Date" ∈ columns final
                  ∧ "DayOfWeek" ∈ columns final) as (Hc1 & Hc2 & Hc3)
            by (unfold final; repeat split; has_column)
      end
  end.
  split; [exact Hs1|]. split; [exact Hs2|]. split; [exact Hs3|].
  split; [exact Hs4|].
  split.
  { intros c Hc.
    assert (c ≠ "Alert" ∧ c ≠ "Date" ∧ c ≠ "DayOfWeek" ∧ c ≠ "HourOfDay"
            ∧ c ≠ "Time") as (? & ? & ? & ? & ?).
    { clear -Hc. rewrite !elem_of_cons in Hc. repeat split; intros ->; tauto. }
    unfold final. through_assignments. reflexivity. }
  cbn [corr m_columns]. rewrite !numeric_columns_elem.
  split; [split; [exact Hc1|rewrite Hs1; apply cat_codes_numeric]|].
  split; [split; [exact Hc2|rewrite Hs2; apply cat_codes_numeric]|].
  split; [exact Hc3|rewrite Hs3; apply cat_codes_numeric].
Qed.

(** X15 on the fleet: of the two alerts, "cas_fcw" sorts first and has
    code 0; the speeds enter as loaded. *)
Lemma correlation_over_codes_witness :
  ∃ resp w' loaded final,
    correlation_analysis (lib := Standin.library) (request Fleet.disk) = (inr resp, w')
    ∧ loaded = load_frame (lib := Standin.library) Fleet.cas Fleet.casdms
    ∧ heap w' = [loaded; final]
    ∧ series loaded "Alert" = [Str "speeding"; Str "cas_fcw"]
    ∧ series final "Alert" = [Int 1; Int 0]
    ∧ series final "Speed" = [Int 93; Int 86].
Proof.
  destruct (returns_run (correlation_analysis (lib := Standin.library))
              (request Fleet.disk))
    as (resp & w' & Hrun); [vm_compute; reflexivity|].
  destruct (correlation_over_codes (lib := Standin.library) _ _ _ Hrun)
    as (d0 & d1 & loaded & final & dates & Hd0 & Hd1 & Hloaded & Hheap & _ & _
        & Halert & _ & _ & _ & Hother & _).
  rewrite fleet_disk_cas in Hd0. rewrite fleet_disk_casdms in Hd1.
  injection Hd0 as <-. injection Hd1 as <-.
  assert (series (load_frame (lib := Standin.library) Fleet.cas Fleet.casdms) "Alert"
          = [Str "speeding"; Str "cas_fcw"]
          ∧ series (load_frame (lib := Standin.library) Fleet.cas Fleet.casdms) "Speed"
            = [Int 93; Int 86]) as [Halerts Hspeeds]
    by (vm_compute; split; reflexivity).
  exists resp, w', loaded, final.
  split; [exact Hrun|]. split; [exact Hloaded|]. split; [exact Hheap|].
  split; [rewrite Hloaded; exact Halerts|].
  split.
  - rewrite Halert, Hloaded, Halerts. vm_compute. reflexivity.
  - rewrite (Hother "Speed"), Hloaded; [exact Hspeeds|].
    rewrite !elem_of_cons, elem_of_nil.
    intros [?|[?|[?|[?|[?|[]]]]]]; discriminate.
Defined.

(** ** A column that only one file has *)

(** A row of a file that lacks column [c] does not survive the cleaning
    of a union that has it. *)
Lemma unified_incomplete (a b : DataFrame) (cols' : list string) (r : row)
    (c : string) :
  row_fits cols' r → c ∉ cols' → c ∈ union_columns a b →
  complete (union_columns a b) (unify a b r) = false.
Proof.
  intros Hfit Hnot Hc. apply (complete_false _ _ c); [done|].
  apply unify_missing; [done|]. unfold cell_of.
  destruct (r !! c) eqn:E; [|done].
  destruct Hnot. apply (row_fits_lookup _ r); [done|by eexists].
Qed.

(** X16.  A column that only one of the two files has costs the other
    file all its rows: they get NaN in that column when the files are
    put together, and [dropna] removes them.  Every loaded row is then a
    row of the file that has the column, as the union holds it: over the
    columns of both files, with integers converted where the column has
    become float64. *)
Theorem load_data_extra_column_drops_other_file `{lib : Library}
    (df df1 : DataFrame) (c : string) :
  rectangular df → rectangular df1 →
  let loaded := load_frame df df1 in
  (c ∈ columns df1 → c ∉ columns df →
   ∀ r, r ∈ rows loaded → ∃ r1, r1 ∈ rows df1 ∧ r = unify df df1 r1)
  ∧ (c ∈ columns df → c ∉ columns df1 →
     ∀ r, r ∈ rows loaded → ∃ r0, r0 ∈ rows df ∧ r = unify df df1 r0).
Proof.
  intros [_ Hfit] [_ Hfit1] loaded.
  rewrite Forall_forall in Hfit. rewrite Forall_forall in Hfit1.
  assert (∀ r, r ∈ rows loaded →
            complete (union_columns df df1) r = true
            ∧ ∃ r', (r' ∈ rows df ∨ r' ∈ rows df1) ∧ r = unify df df1 r')
    as Hfrom.
  { intros r Hr.
    apply (sample_rows_elem (cleaned df df1)), cleaned_rows in Hr as [Hr Hc].
    by split. }
  split.
  - intros Hc Hnot r Hr. destruct (Hfrom r Hr) as (Hcomplete & r' & [Hr'|Hr'] & ->).
    + rewrite (unified_incomplete df df1 (columns df) r' c) in Hcomplete;
        [done|auto..].
      unfold union_columns. apply elem_of_app. right.
      by apply list_elem_of_filter.
    + by exists r'.
  - intros Hc Hnot r Hr. destruct (Hfrom r Hr) as (Hcomplete & r' & [Hr'|Hr'] & ->).
    + by exists r'.
    + rewrite (unified_incomplete df df1 (columns df1) r' c) in Hcomplete;
        [done|auto..].
      unfold union_columns. apply elem_of_app. by left.
Qed.

(** X16 on a first file without Speed and a second file with it: the one
    sampled row is a reading of the second file; its speed, the integer
    93 in the file, is the float 93 in the loaded frame. *)
Lemma load_data_extra_column_drops_other_file_witness :
  series Fleet.casdms "Speed" !! 99%nat = Some (Int 93)
  ∧ series (load_frame (lib := Standin.library) (Depot.unmetered 0) Fleet.casdms)
      "Speed" = [Flt 93]
  ∧ ∀ r, r ∈ rows (load_frame (lib := Standin.library) (Depot.unmetered 0) Fleet.casdms) →
         ∃ r1, r1 ∈ rows Fleet.casdms
               ∧ r = unify (Depot.unmetered 0) Fleet.casdms r1.
Proof.
  split; [vm_compute; reflexivity|]. split; [vm_compute; reflexivity|].
  assert (rectangular (Depot.unmetered 0)) as Ha
    by (apply (bool_decide_unpack _); vm_compute; exact I).
  assert (rectangular Fleet.casdms) as Hb
    by (apply (bool_decide_unpack _); vm_compute; exact I).
  destruct (load_data_extra_column_drops_other_file (lib := Standin.library)
              (Depot.unmetered 0) Fleet.casdms "Speed" Ha Hb) as [Hsecond _].
  apply Hsecond; apply (bool_decide_unpack _); vm_compute; exact I.
Defined.
